(** * vtex-files-manager: batch upload engine

    A shallow embedding of the upload core of the Go program
    [github.com/glinharesb/vtex-files-manager] and the properties proved of it:
    file validation ([pkg/client]), file discovery and the worker pool
    ([cmd/batch.go]), the two upload backends ([pkg/client/filepicker.go],
    [pkg/client/graphql.go]) and the JSON-lines upload log ([pkg/logger]).

    Go strings are byte strings: they are modelled by [string], whose
    characters ([ascii]) are the bytes.  Go's [error] values are modelled by
    their message ([err.Error()]); [nil] is [None]. *)

From Stdlib Require Import DecimalPos DecimalFacts.
From Stdlib Require Import String Ascii List ZArith NArith Bool Lia.
From Stdlib Require Import Permutation DecimalString DecimalZ.
Import ListNotations.

Set Implicit Arguments.
Set Warnings "-register-all,-abstract-large-number".
Local Open Scope string_scope.
Local Open Scope Z_scope.

(** ** The Go standard library, as far as the program uses it *)

Module Go.

(** [error]: the message of the error, [None] for [nil]. *)
Definition error : Type := option string.

(** A call that returns [(T, error)]. *)
Inductive result (T : Type) : Type :=
| Ok (v : T)
| Err (msg : string).
Arguments Ok {T} v.
Arguments Err {T} msg.

Definition byte_of (n : nat) : ascii := ascii_of_nat n.
Definition code (c : ascii) : nat := nat_of_ascii c.

(** The double quote, written by its code. *)
Definition dquote : ascii := byte_of 34.

Definition bytes (s : string) : list ascii := list_ascii_of_string s.
Definition str (l : list ascii) : string := string_of_list_ascii l.

(** [fmt]'s [%d] verb on an integer. *)
Definition itoa (z : Z) : string := NilEmpty.string_of_int (Z.to_int z).


Definition lower_byte (c : ascii) : ascii :=
  if ((65 <=? code c) && (code c <=? 90))%nat then byte_of (code c + 32) else c.

Fixpoint ToLower (s : string) : string :=
  match s with
  | EmptyString => EmptyString
  | String c rest => String (lower_byte c) (ToLower rest)
  end.

Definition IsPathSeparator (c : ascii) : bool := Ascii.eqb c "/".

(** [filepath.Ext]: the loop runs from the last byte towards the first and
    stops at the first separator; [r] is the part of the path not yet
    visited, reversed, and [acc] the bytes already passed. *)
Fixpoint ext_loop (r acc : list ascii) : list ascii :=
  match r with
  | [] => []
  | c :: r' =>
      if IsPathSeparator c then []
      else if Ascii.eqb c "." then c :: acc
      else ext_loop r' (c :: acc)
  end.

Definition Ext (path : string) : string := str (ext_loop (rev (bytes path)) []).

(** [filepath.Base] on a Unix path. *)
Fixpoint strip_slashes (r : list ascii) : list ascii :=
  match r with
  | c :: r' => if IsPathSeparator c then strip_slashes r' else r
  | [] => []
  end.

Fixpoint last_element (r acc : list ascii) : list ascii :=
  match r with
  | [] => acc
  | c :: r' => if IsPathSeparator c then acc else last_element r' (c :: acc)
  end.

Definition Base (path : string) : string :=
  match path with
  | EmptyString => "."
  | _ =>
      match last_element (strip_slashes (rev (bytes path))) [] with
      | [] => "/"
      | l => str l
      end
  end.


(** [filepath.Clean] on a Unix path, element by element: [out] holds the
    elements written so far, the last one first.  An element [..] removes
    the element before it when there is one to remove ([out.w > dotdot] in
    the library's loop); otherwise it is kept on a path that is not rooted
    and dropped on a rooted one. *)
Fixpoint split_sep (s : string) (cur : list ascii) : list string :=
  match s with
  | EmptyString => [str (rev cur)]
  | String c rest =>
      if IsPathSeparator c then str (rev cur) :: split_sep rest []
      else split_sep rest (c :: cur)
  end.

Definition clean_step (rooted : bool) (out : list string) (e : string) : list string :=
  if (String.eqb e EmptyString || String.eqb e ".")%bool then out
  else if String.eqb e ".." then
    match out with
    | top :: out' =>
        if String.eqb top ".." then (if rooted then out else e :: out) else out'
    | [] => if rooted then [] else [e]
    end
  else e :: out.

Definition join_sep (l : list string) : string := String.concat "/" l.

Definition Clean (path : string) : string :=
  match path with
  | EmptyString => "."
  | String c _ =>
      let rooted := IsPathSeparator c in
      let out := fold_left (clean_step rooted) (split_sep path []) [] in
      match rooted, out with
      | true, _ => "/" ++ join_sep (rev out)
      | false, [] => "."
      | false, _ => join_sep (rev out)
      end
  end.

(** [filepath.Join] of two elements: empty elements are ignored and the
    result is cleaned. *)
Definition Join (dir name : string) : string :=
  match dir, name with
  | EmptyString, EmptyString => EmptyString
  | EmptyString, _ => Clean name
  | _, _ => Clean (dir ++ "/" ++ name)
  end.

(** Hexadecimal digits. *)
Definition upperhex (n : nat) : ascii :=
  if (n <? 10)%nat then byte_of (48 + n) else byte_of (55 + n).
Definition lowerhex (n : nat) : ascii :=
  if (n <? 10)%nat then byte_of (48 + n) else byte_of (87 + n).

Definition in_range (lo hi : nat) (c : ascii) : bool :=
  ((lo <=? code c) && (code c <=? hi))%nat.

Definition is_alnum (c : ascii) : bool :=
  (in_range 97 122 c || in_range 65 90 c || in_range 48 57 c)%bool.

Definition one_of (l : string) (c : ascii) : bool :=
  existsb (Ascii.eqb c) (bytes l).

(** [url.shouldEscape] in the mode [encodePathSegment]. *)
Definition shouldEscape (c : ascii) : bool :=
  if is_alnum c then false
  else if one_of "-_.~" c then false
  else if one_of "$&+,/:;=?@" c then one_of "/;,?" c
  else true.

(** [url.PathEscape]. *)
Fixpoint PathEscape (s : string) : string :=
  match s with
  | EmptyString => EmptyString
  | String c rest =>
      if shouldEscape c then
        String "%" (String (upperhex (code c / 16))
                      (String (upperhex (code c mod 16)) (PathEscape rest)))
      else String c (PathEscape rest)
  end.


Definition result_bind {A B} (r : result A) (k : A -> result B) : result B :=
  match r with
  | Ok v => k v
  | Err m => Err m
  end.

(** *** [unicode/utf8]

    Runes and byte values are numbers in [N].  The masks and shifts of the
    library are written as the arithmetic they compute. *)
Definition byteN (c : ascii) : N := N_of_ascii c.
Definition Nbyte (n : N) : ascii := ascii_of_N n.

Definition RuneError : N := 65533.
Definition MaxRune : N := 1114111.

(** The table [first] with [acceptRanges]: for a leading byte, the length
    of the sequence and the range of its second byte. *)
Definition first (b0 : N) : option (nat * N * N) :=
  (if b0 <? 194 then None
   else if b0 <? 224 then Some (2%nat, 128, 191)
   else if b0 =? 224 then Some (3%nat, 160, 191)
   else if b0 =? 237 then Some (3%nat, 128, 159)
   else if b0 <? 240 then Some (3%nat, 128, 191)
   else if b0 =? 240 then Some (4%nat, 144, 191)
   else if b0 <? 244 then Some (4%nat, 128, 191)
   else if b0 =? 244 then Some (4%nat, 128, 143)
   else None)%N.

Definition is_cont (b : N) : bool := ((128 <=? b) && (b <=? 191))%N.

(** [utf8.DecodeRune]: the rune and the number of bytes it takes. *)
Definition DecodeRune (p : list ascii) : N * nat :=
  match p with
  | [] => (RuneError, 0%nat)
  | p0 :: rest =>
      let b0 := byteN p0 in
      if (b0 <? 128)%N then (b0, 1%nat)
      else
        match first b0 with
        | None => (RuneError, 1%nat)
        | Some (sz, lo, hi) =>
            match rest with
            | [] => (RuneError, 1%nat)
            | p1 :: rest1 =>
                let b1 := byteN p1 in
                if negb ((lo <=? b1) && (b1 <=? hi))%N then (RuneError, 1%nat)
                else if (sz <=? 2)%nat then
                  (((b0 - 192) * 64 + (b1 - 128))%N, 2%nat)
                else
                  match rest1 with
                  | [] => (RuneError, 1%nat)
                  | p2 :: rest2 =>
                      let b2 := byteN p2 in
                      if negb (is_cont b2) then (RuneError, 1%nat)
                      else if (sz <=? 3)%nat then
                        (((b0 - 224) * 4096 + (b1 - 128) * 64 + (b2 - 128))%N, 3%nat)
                      else
                        match rest2 with
                        | [] => (RuneError, 1%nat)
                        | p3 :: _ =>
                            let b3 := byteN p3 in
                            if negb (is_cont b3) then (RuneError, 1%nat)
                            else
                              (((b0 - 240) * 262144 + (b1 - 128) * 4096
                                + (b2 - 128) * 64 + (b3 - 128))%N, 4%nat)
                        end
                  end
            end
        end
  end.

(** [utf8.EncodeRune]; a surrogate or a value above [MaxRune] is written
    as [RuneError]. *)
Definition encode3 (r : N) : list ascii :=
  [Nbyte (224 + r / 4096); Nbyte (128 + (r / 64) mod 64); Nbyte (128 + r mod 64)]%N.

Definition EncodeRune (r : N) : list ascii :=
  (if r <=? 127 then [Nbyte r]
   else if r <=? 2047 then [Nbyte (192 + r / 64); Nbyte (128 + r mod 64)]
   else if (MaxRune <? r) || ((55296 <=? r) && (r <=? 57343)) then encode3 RuneError
   else if r <=? 65535 then encode3 r
   else [Nbyte (240 + r / 262144); Nbyte (128 + (r / 4096) mod 64);
         Nbyte (128 + (r / 64) mod 64); Nbyte (128 + r mod 64)])%N.

(** [utf8.Valid]: no position decodes to [RuneError] of width one. *)
Fixpoint valid_loop (fuel : nat) (p : list ascii) : bool :=
  match fuel, p with
  | _, [] => true
  | O, _ => false
  | S fuel', _ =>
      let '(r, size) := DecodeRune p in
      if ((r =? RuneError)%N && (size =? 1)%nat)%bool then false
      else valid_loop fuel' (skipn size p)
  end.

Definition ValidString (s : string) : bool := valid_loop (String.length s) (bytes s).

(** *** [encoding/json]: writing a string

    [appendString] with HTML escaping, as [json.Marshal] calls it. *)
Definition htmlSafe (b : N) : bool :=
  ((32 <=? b) && negb (b =? 34) && negb (b =? 92)
   && negb (b =? 60) && negb (b =? 62) && negb (b =? 38))%N%bool.

Definition hexN (n : N) : ascii := lowerhex (N.to_nat n).

Definition escape_ascii (b : N) : list ascii :=
  (if (b =? 92) || (b =? 34) then ["\"%char; Nbyte b]
   else if b =? 8 then bytes "\b"
   else if b =? 12 then bytes "\f"
   else if b =? 10 then bytes "\n"
   else if b =? 13 then bytes "\r"
   else if b =? 9 then bytes "\t"
   else bytes "\u00" ++ [hexN (b / 16); hexN (b mod 16)])%N%list.

Fixpoint appendString_loop (fuel : nat) (src : list ascii) : list ascii :=
  match fuel, src with
  | O, _ => []
  | _, [] => []
  | S fuel', b :: rest =>
      if (byteN b <? 128)%N then
        (if htmlSafe (byteN b) then [b] else escape_ascii (byteN b))
          ++ appendString_loop fuel' rest
      else
        let '(c, size) := DecodeRune src in
        if ((c =? RuneError)%N && (size =? 1)%nat)%bool then
          bytes "\ufffd" ++ appendString_loop fuel' rest
        else if ((c =? 8232) || (c =? 8233))%N then
          bytes "\u202" ++ [hexN (c mod 16)] ++ appendString_loop fuel' (skipn size src)
        else
          firstn size src ++ appendString_loop fuel' (skipn size src)
  end%list.

Definition appendString (src : string) : string :=
  String dquote (str (appendString_loop (String.length src) (bytes src)) ++ String dquote EmptyString).

(** *** [time]

    A [time.Time] is modelled by the date, the time of day and the zone
    offset that its RFC 3339 form shows; the offset is in minutes east of
    UTC.  The monotonic clock reading and the name of the zone, which the
    JSON form does not carry, are not part of the model. *)
Record Time := {
  Year : Z; Month : Z; Day : Z;
  Hour : Z; Minute : Z; Second : Z;
  Nanosecond : Z;
  Offset : Z }.

Definition zeroTime : Time :=
  {| Year := 1; Month := 1; Day := 1; Hour := 0; Minute := 0; Second := 0;
     Nanosecond := 0; Offset := 0 |}.

(** [t.IsZero]: the instant is January 1, year 1, 00:00:00 UTC, whatever
    the zone it is shown in. *)
Definition IsZero (t : Time) : bool :=
  (Second t =? 0) && (Nanosecond t =? 0) &&
  (if 0 <=? Offset t then
     (Year t =? 1) && (Month t =? 1) && (Day t =? 1)
     && (Hour t * 60 + Minute t =? Offset t)
   else
     (Year t =? 0) && (Month t =? 12) && (Day t =? 31)
     && (Hour t * 60 + Minute t =? 1440 + Offset t)).

Definition isLeap (y : Z) : bool :=
  (y mod 4 =? 0) && (negb (y mod 100 =? 0) || (y mod 400 =? 0)).

Definition daysIn (m y : Z) : Z :=
  if m =? 2 then (if isLeap y then 29 else 28)
  else if (m =? 4) || (m =? 6) || (m =? 9) || (m =? 11) then 30
  else 31.


Definition digit (d : Z) : ascii := Nbyte (Z.to_N (48 + d)).

(** [n] written with [w] decimal digits, the least significant last. *)
Fixpoint digits (w : nat) (n : Z) : list ascii :=
  match w with
  | O => []
  | S w' => digits w' (n / 10) ++ [digit (n mod 10)]
  end%list.

Fixpoint trim_zeros (r : list ascii) : list ascii :=
  match r with
  | c :: r' => if Ascii.eqb c "0" then trim_zeros r' else r
  | [] => []
  end.

(** The fraction of a second in the layout [.999999999]: nine digits,
    the trailing zeros removed, and nothing at all for zero. *)
Definition formatNano (ns : Z) : list ascii :=
  match rev (trim_zeros (rev (digits 9 ns))) with
  | [] => []
  | l => "."%char :: l
  end.

Definition formatZone (off : Z) : list ascii :=
  (if off =? 0 then ["Z"%char]
   else
     let a := Z.abs off in
     (if off <? 0 then "-"%char else "+"%char)
       :: digits 2 (a / 60) ++ ":"%char :: digits 2 (a mod 60))%list.

(** [t.appendFormatRFC3339] with nanoseconds, for a year of four digits. *)
Definition formatRFC3339 (t : Time) : string :=
  str (digits 4 (Year t) ++ "-"%char :: digits 2 (Month t) ++ "-"%char :: digits 2 (Day t)
       ++ "T"%char :: digits 2 (Hour t) ++ ":"%char :: digits 2 (Minute t)
       ++ ":"%char :: digits 2 (Second t) ++ formatNano (Nanosecond t)
       ++ formatZone (Offset t))%list.

(** [t.MarshalJSON]: the quoted RFC 3339 form, or an error when the year
    does not take four digits or the zone offset reaches 24 hours. *)
Definition Time_MarshalJSON (t : Time) : result string :=
  if (Year t <? 0) || (9999 <? Year t) then
    Err "Time.MarshalJSON: year outside of range [0,9999]"
  else if 24 <=? Z.abs (Offset t) / 60 then
    Err "Time.MarshalJSON: timezone hour outside of range [0,23]"
  else Ok (String dquote (formatRFC3339 t ++ String dquote EmptyString)).


(** *** [encoding/json]: reading

    [json.Unmarshal] first checks that the whole input is one JSON value
    (the scanner of the library), then stores the value into its target.
    [parse_value] is that scanner, keeping what it read as a [JValue]: a
    string keeps the bytes between its quotes, a number its literal. *)
Inductive JValue :=
| JNull
| JBool (b : bool)
| JNumber (lit : list ascii)
| JString (raw : list ascii)
| JArray (items : list JValue)
| JObject (members : list (list ascii * JValue)).

Definition isSpace (c : ascii) : bool :=
  (Ascii.eqb c " " || Ascii.eqb c (byte_of 9) || Ascii.eqb c (byte_of 13)
   || Ascii.eqb c (byte_of 10))%bool.

Fixpoint skip_ws (s : list ascii) : list ascii :=
  match s with
  | c :: r => if isSpace c then skip_ws r else s
  | [] => []
  end.

Definition isDigit (c : ascii) : bool := in_range 48 57 c.
Definition isHex (c : ascii) : bool :=
  (isDigit c || in_range 97 102 c || in_range 65 70 c)%bool.

Definition backslash : ascii := "\"%char.

Definition consumed (pre : list ascii) (r : option (list ascii * list ascii))
  : option (list ascii * list ascii) :=
  match r with
  | Some (raw, rest) => Some ((pre ++ raw)%list, rest)
  | None => None
  end.

(** A string literal, from the byte after its opening quote: the bytes up
    to the closing quote and what follows it. *)
Fixpoint scan_string (s : list ascii) : option (list ascii * list ascii) :=
  match s with
  | [] => None
  | c :: r =>
      if Ascii.eqb c dquote then Some ([], r)
      else if Ascii.eqb c backslash then
        match r with
        | [] => None
        | e :: r' =>
            if (Ascii.eqb e dquote || one_of "\/bfnrt" e)%bool then
              consumed [c; e] (scan_string r')
            else if Ascii.eqb e "u" then
              match r' with
              | h1 :: h2 :: h3 :: h4 :: r'' =>
                  if (isHex h1 && isHex h2 && isHex h3 && isHex h4)%bool then
                    consumed [c; e; h1; h2; h3; h4] (scan_string r'')
                  else None
              | _ => None
              end
            else None
        end
      else if (byteN c <? 32)%N then None
      else consumed [c] (scan_string r)
  end.

Fixpoint take_digits (s : list ascii) : list ascii * list ascii :=
  match s with
  | c :: r =>
      if isDigit c then let '(ds, rest) := take_digits r in (c :: ds, rest)
      else ([], s)
  | [] => ([], [])
  end.

(** A number literal: an optional minus sign, an integer part without a
    superfluous leading zero, an optional fraction, an optional exponent. *)
Definition scan_exponent (s : list ascii) : option (list ascii * list ascii) :=
  match s with
  | c :: r =>
      if (Ascii.eqb c "e" || Ascii.eqb c "E")%bool then
        let '(sign, r1) :=
          match r with
          | sg :: r1 => if (Ascii.eqb sg "+" || Ascii.eqb sg "-")%bool
                        then ([sg], r1) else ([], r)
          | [] => ([], r)
          end in
        match take_digits r1 with
        | ([], _) => None
        | (ds, rest) => Some ((c :: sign ++ ds)%list, rest)
        end
      else Some ([], s)
  | [] => Some ([], s)
  end.

Definition scan_fraction (s : list ascii) : option (list ascii * list ascii) :=
  match s with
  | c :: r =>
      if Ascii.eqb c "." then
        match take_digits r with
        | ([], _) => None
        | (ds, rest) => consumed (c :: ds) (scan_exponent rest)
        end
      else scan_exponent s
  | [] => Some ([], s)
  end.

Definition scan_unsigned (s : list ascii) : option (list ascii * list ascii) :=
  match s with
  | c :: r =>
      if Ascii.eqb c "0" then consumed [c] (scan_fraction r)
      else if isDigit c then
        let '(ds, rest) := take_digits r in consumed (c :: ds) (scan_fraction rest)
      else None
  | [] => None
  end.

Definition scan_number (s : list ascii) : option (list ascii * list ascii) :=
  match s with
  | c :: r => if Ascii.eqb c "-" then consumed [c] (scan_unsigned r) else scan_unsigned s
  | [] => None
  end.

Fixpoint strip_prefix (p s : list ascii) : option (list ascii) :=
  match p, s with
  | [], _ => Some s
  | a :: p', b :: s' => if Ascii.eqb a b then strip_prefix p' s' else None
  | _ :: _, [] => None
  end.

(** The scanner refuses more than [maxNestingDepth] arrays and objects
    inside one another. *)
Definition maxNestingDepth : nat := 10000.

(** [fuel] bounds the number of values and members read, [depth] the
    nesting still allowed. *)
Fixpoint parse_value (fuel depth : nat) (s : list ascii) {struct fuel}
  : option (JValue * list ascii) :=
  match fuel with
  | O => None
  | S fuel' =>
      match skip_ws s with
      | [] => None
      | c :: r =>
          if Ascii.eqb c dquote then
            match scan_string r with
            | Some (raw, rest) => Some (JString raw, rest)
            | None => None
            end
          else if Ascii.eqb c "{" then
            match depth with
            | O => None
            | S depth' =>
                match skip_ws r with
                | c' :: r' =>
                    if Ascii.eqb c' "}" then Some (JObject [], r')
                    else
                      match parse_members fuel' depth' r with
                      | Some (ms, rest) => Some (JObject ms, rest)
                      | None => None
                      end
                | [] => None
                end
            end
          else if Ascii.eqb c "[" then
            match depth with
            | O => None
            | S depth' =>
                match skip_ws r with
                | c' :: r' =>
                    if Ascii.eqb c' "]" then Some (JArray [], r')
                    else
                      match parse_items fuel' depth' r with
                      | Some (vs, rest) => Some (JArray vs, rest)
                      | None => None
                      end
                | [] => None
                end
            end
          else if Ascii.eqb c "t" then
            option_map (pair (JBool true)) (strip_prefix (bytes "rue") r)
          else if Ascii.eqb c "f" then
            option_map (pair (JBool false)) (strip_prefix (bytes "alse") r)
          else if Ascii.eqb c "n" then
            option_map (pair JNull) (strip_prefix (bytes "ull") r)
          else
            match scan_number (c :: r) with
            | Some (lit, rest) => Some (JNumber lit, rest)
            | None => None
            end
      end
  end
with parse_members (fuel depth : nat) (s : list ascii) {struct fuel}
  : option (list (list ascii * JValue) * list ascii) :=
  match fuel with
  | O => None
  | S fuel' =>
      match skip_ws s with
      | c :: r =>
          if Ascii.eqb c dquote then
            match scan_string r with
            | Some (key, r1) =>
                match skip_ws r1 with
                | c1 :: r2 =>
                    if Ascii.eqb c1 ":" then
                      match parse_value fuel' depth r2 with
                      | Some (v, r3) =>
                          match skip_ws r3 with
                          | c3 :: r4 =>
                              if Ascii.eqb c3 "," then
                                match parse_members fuel' depth r4 with
                                | Some (ms, rest) => Some ((key, v) :: ms, rest)
                                | None => None
                                end
                              else if Ascii.eqb c3 "}" then Some ([(key, v)], r4)
                              else None
                          | [] => None
                          end
                      | None => None
                      end
                    else None
                | [] => None
                end
            | None => None
            end
          else None
      | [] => None
      end
  end
with parse_items (fuel depth : nat) (s : list ascii) {struct fuel}
  : option (list JValue * list ascii) :=
  match fuel with
  | O => None
  | S fuel' =>
      match parse_value fuel' depth s with
      | Some (v, r1) =>
          match skip_ws r1 with
          | c :: r2 =>
              if Ascii.eqb c "," then
                match parse_items fuel' depth r2 with
                | Some (vs, rest) => Some (v :: vs, rest)
                | None => None
                end
              else if Ascii.eqb c "]" then Some ([v], r2)
              else None
          | [] => None
          end
      | None => None
      end
  end.

(** [checkValid] and the reading of the value: the input is one JSON
    value, with white space around it at most.  No value needs more steps
    than it has bytes. *)
Definition parse_json (data : list ascii) : option JValue :=
  match parse_value (S (List.length data)) maxNestingDepth data with
  | Some (v, rest) => match skip_ws rest with [] => Some v | _ => None end
  | None => None
  end.


(** [unquoteBytes], applied to the bytes between the quotes of a
    literal: the escapes are replaced and every byte sequence that is not
    UTF-8 is turned into the replacement character. *)
Definition hexval (c : ascii) : option N :=
  if isDigit c then Some (byteN c - 48)%N
  else if in_range 97 102 c then Some (byteN c - 87)%N
  else if in_range 65 70 c then Some (byteN c - 55)%N
  else None.

(** [getu4]: the number written by [\uXXXX] at the head of [s]. *)
Definition getu4 (s : list ascii) : option N :=
  match s with
  | b :: u :: h1 :: h2 :: h3 :: h4 :: _ =>
      if (Ascii.eqb b backslash && Ascii.eqb u "u")%bool then
        match hexval h1, hexval h2, hexval h3, hexval h4 with
        | Some a, Some b', Some c, Some d => Some (a * 4096 + b' * 256 + c * 16 + d)%N
        | _, _, _, _ => None
        end
      else None
  | _ => None
  end.

Definition IsSurrogate (r : N) : bool := ((55296 <=? r) && (r <? 57344))%N.

(** [utf16.DecodeRune]. *)
Definition utf16_DecodeRune (r1 r2 : N) : N :=
  (if (55296 <=? r1) && (r1 <? 56320) && (56320 <=? r2) && (r2 <? 57344)
   then (r1 - 55296) * 1024 + (r2 - 56320) + 65536
   else RuneError)%N.

Definition simple_escape (e : ascii) : option ascii :=
  if (Ascii.eqb e dquote || one_of "\/'" e)%bool then Some e
  else if Ascii.eqb e "b" then Some (byte_of 8)
  else if Ascii.eqb e "f" then Some (byte_of 12)
  else if Ascii.eqb e "n" then Some (byte_of 10)
  else if Ascii.eqb e "r" then Some (byte_of 13)
  else if Ascii.eqb e "t" then Some (byte_of 9)
  else None.

Fixpoint unquote_loop (fuel : nat) (s : list ascii) : option (list ascii) :=
  match fuel, s with
  | _, [] => Some []
  | O, _ => None
  | S fuel', c :: r =>
      if Ascii.eqb c backslash then
        match r with
        | [] => None
        | e :: r' =>
            if Ascii.eqb e "u" then
              match getu4 s with
              | None => None
              | Some rr =>
                  let after := skipn 6 s in
                  if IsSurrogate rr then
                    let dec :=
                      match getu4 after with
                      | Some rr1 => utf16_DecodeRune rr rr1
                      | None => RuneError
                      end in
                    if negb (dec =? RuneError)%N then
                      option_map (app (EncodeRune dec)) (unquote_loop fuel' (skipn 6 after))
                    else
                      option_map (app (EncodeRune RuneError)) (unquote_loop fuel' after)
                  else option_map (app (EncodeRune rr)) (unquote_loop fuel' after)
              end
            else
              match simple_escape e with
              | Some b => option_map (cons b) (unquote_loop fuel' r')
              | None => None
              end
        end
      else if (Ascii.eqb c dquote || (byteN c <? 32)%N)%bool then None
      else if (byteN c <? 128)%N then option_map (cons c) (unquote_loop fuel' r)
      else
        let '(rr, size) := DecodeRune s in
        option_map (app (EncodeRune rr)) (unquote_loop fuel' (skipn size s))
  end.

Definition unquote (raw : list ascii) : option (list ascii) :=
  unquote_loop (List.length raw) raw.

(** [strconv.ParseInt(s, 10, 64)] on a JSON number literal: the literal
    is an integer without fraction or exponent, and it fits 64 bits. *)
Definition ParseInt64 (lit : list ascii) : option Z :=
  match lit with
  | [] => None
  | _ =>
      match NilEmpty.int_of_string (str lit) with
      | Some d =>
          let z := Z.of_int d in
          if (- 9223372036854775808 <=? z) && (z <=? 9223372036854775807)
          then Some z else None
      | None => None
      end
  end.

(** [parseRFC3339] of package [time], which [Time.UnmarshalJSON] applies
    first to the bytes between the quotes. *)
Fixpoint parseUint (w : nat) (acc : Z) (s : list ascii) : option (Z * list ascii) :=
  match w with
  | O => Some (acc, s)
  | S w' =>
      match s with
      | c :: r =>
          if isDigit c then parseUint w' (acc * 10 + (Z.of_N (byteN c) - 48)) r
          else None
      | [] => None
      end
  end.

Definition expect (c : ascii) (s : list ascii) : option (list ascii) :=
  match s with
  | c' :: r => if Ascii.eqb c c' then Some r else None
  | [] => None
  end.

Definition within (lo hi x : Z) : bool := (lo <=? x) && (x <=? hi).

(** [parseNanoseconds]: at most nine digits count. *)
Fixpoint nanos_of (w : nat) (acc : Z) (ds : list ascii) : Z :=
  match w with
  | O => acc
  | S w' =>
      match ds with
      | c :: r => nanos_of w' (acc * 10 + (Z.of_N (byteN c) - 48)) r
      | [] => nanos_of w' (acc * 10) []
      end
  end.

Definition parse_fraction (s : list ascii) : Z * list ascii :=
  match s with
  | c :: r =>
      if Ascii.eqb c "." then
        match take_digits r with
        | ([], _) => (0, s)
        | (ds, rest) => (nanos_of 9 0 ds, rest)
        end
      else (0, s)
  | [] => (0, s)
  end.

Definition parse_zone (s : list ascii) : option Z :=
  match s with
  | [c] => if Ascii.eqb c "Z" then Some 0 else None
  | [sg; h1; h2; col; m1; m2] =>
      match parseUint 2 0 [h1; h2], parseUint 2 0 [m1; m2] with
      | Some (hr, _), Some (mm, _) =>
          if (within 0 23 hr && within 0 59 mm && Ascii.eqb col ":"
              && (Ascii.eqb sg "-" || Ascii.eqb sg "+"))%bool
          then Some (if Ascii.eqb sg "-" then - (hr * 60 + mm) else hr * 60 + mm)
          else None
      | _, _ => None
      end
  | _ => None
  end.

Definition option_bind {A B} (o : option A) (k : A -> option B) : option B :=
  match o with
  | Some a => k a
  | None => None
  end.

Definition parseRFC3339 (s : list ascii) : option Time :=
  option_bind (parseUint 4 0 s) (fun '(year, s) =>
  option_bind (expect "-" s) (fun s =>
  option_bind (parseUint 2 0 s) (fun '(month, s) =>
  option_bind (expect "-" s) (fun s =>
  option_bind (parseUint 2 0 s) (fun '(day, s) =>
  option_bind (expect "T" s) (fun s =>
  option_bind (parseUint 2 0 s) (fun '(hour, s) =>
  option_bind (expect ":" s) (fun s =>
  option_bind (parseUint 2 0 s) (fun '(min, s) =>
  option_bind (expect ":" s) (fun s =>
  option_bind (parseUint 2 0 s) (fun '(sec, s) =>
  if (within 0 9999 year && within 1 12 month && within 1 (daysIn month year) day
      && within 0 23 hour && within 0 59 min && within 0 59 sec)%bool
  then
    let '(nsec, s) := parse_fraction s in
    option_bind (parse_zone s) (fun off =>
    Some {| Year := year; Month := month; Day := day; Hour := hour;
            Minute := min; Second := sec; Nanosecond := nsec; Offset := off |})
  else None))))))))))).

(** [time.Parse] with the layout [RFC3339], that is
    [2006-01-02T15:04:05Z07:00].  The elements of the layout are read one
    after the other.  [getnum] reads a number of two digits, or of one
    digit where the element is not of fixed width, which is the case of
    the hour.  The fraction of the second, which the layout does not name,
    is read when it is there, after a period or a comma.  The offset of
    the zone may be of 24 hours and of 60 minutes.  The day is checked
    against the month at the end. *)
Definition getnum (s : list ascii) (fixed : bool) : option (Z * list ascii) :=
  match s with
  | c0 :: r =>
      if isDigit c0 then
        match r with
        | c1 :: r' =>
            if isDigit c1 then
              Some ((Z.of_N (byteN c0) - 48) * 10 + (Z.of_N (byteN c1) - 48), r')
            else if fixed then None
            else Some (Z.of_N (byteN c0) - 48, r)
        | [] => if fixed then None else Some (Z.of_N (byteN c0) - 48, r)
        end
      else None
  | [] => None
  end.

Definition commaOrPeriod (c : ascii) : bool := (Ascii.eqb c "." || Ascii.eqb c ",")%bool.

Definition Parse_fraction (s : list ascii) : Z * list ascii :=
  match s with
  | c :: r =>
      if commaOrPeriod c then
        match take_digits r with
        | ([], _) => (0, s)
        | (ds, rest) => (nanos_of 9 0 ds, rest)
        end
      else (0, s)
  | [] => (0, s)
  end.

Definition Parse_zone (s : list ascii) : option (Z * list ascii) :=
  match s with
  | [] => None
  | c :: r =>
      if Ascii.eqb c "Z" then Some (0, r)
      else
        match s with
        | sg :: h1 :: h2 :: col :: m1 :: m2 :: rest =>
            if Ascii.eqb col ":" then
              match getnum [h1; h2] true, getnum [m1; m2] true with
              | Some (hr, _), Some (mm, _) =>
                  if ((hr <=? 24) && (mm <=? 60))%bool then
                    if Ascii.eqb sg "+" then Some (hr * 60 + mm, rest)
                    else if Ascii.eqb sg "-" then Some (- (hr * 60 + mm), rest)
                    else None
                  else None
              | _, _ => None
              end
            else None
        | _ => None
        end
  end.

Definition Parse_RFC3339 (s : list ascii) : option Time :=
  option_bind (parseUint 4 0 s) (fun '(year, s) =>
  option_bind (expect "-" s) (fun s =>
  option_bind (getnum s true) (fun '(month, s) =>
  if negb (within 1 12 month) then None else
  option_bind (expect "-" s) (fun s =>
  option_bind (getnum s true) (fun '(day, s) =>
  option_bind (expect "T" s) (fun s =>
  option_bind (getnum s false) (fun '(hour, s) =>
  if negb (within 0 23 hour) then None else
  option_bind (expect ":" s) (fun s =>
  option_bind (getnum s true) (fun '(min, s) =>
  if negb (within 0 59 min) then None else
  option_bind (expect ":" s) (fun s =>
  option_bind (getnum s true) (fun '(sec, s) =>
  if negb (within 0 59 sec) then None else
  let '(nsec, s) := Parse_fraction s in
  option_bind (Parse_zone s) (fun '(off, s) =>
  match s with
  | _ :: _ => None                      (* extra text *)
  | [] =>
      if within 1 (daysIn month year) day then
        Some {| Year := year; Month := month; Day := day; Hour := hour;
                Minute := min; Second := sec; Nanosecond := nsec; Offset := off |}
      else None                         (* day out of range *)
  end)))))))))))).

(** [parseStrictRFC3339]: when [parseRFC3339] refuses the input, the
    answer is that of [Parse]; the stricter checks that follow in the
    library are switched off there. *)
Definition parseStrictRFC3339 (b : list ascii) : option Time :=
  match parseRFC3339 b with
  | Some t => Some t
  | None => Parse_RFC3339 b
  end.

(** [Time.UnmarshalJSON] on a JSON string: the bytes between the quotes
    are parsed as they are written. *)
Definition Time_UnmarshalJSON (raw : list ascii) : option Time := parseStrictRFC3339 raw.

(** The folded name under which [json] looks a key up when no field has
    exactly that name: ASCII letters in upper case; the two letters
    outside ASCII that fold to an ASCII letter (U+017F and U+212A) are
    mapped to it. *)
Fixpoint foldName (s : list ascii) : list ascii :=
  match s with
  | [] => []
  | c :: r =>
      if in_range 97 122 c then byte_of (code c - 32) :: foldName r
      else
        match s with
        | a :: b :: r2 =>
            if ((byteN a =? 197) && (byteN b =? 191))%N%bool then "S"%char :: foldName r2
            else
              match r2 with
              | d :: r3 =>
                  if ((byteN a =? 226) && (byteN b =? 132) && (byteN d =? 170))%N%bool
                  then "K"%char :: foldName r3
                  else c :: foldName r
              | [] => c :: foldName r
              end
        | _ => c :: foldName r
        end
  end.


(** *** Storing a JSON value into a Go value

    The field a key names: the one of exactly that name, or else the one
    of the same folded name. *)
Definition findField (fieldNames : list string) (key : list ascii) : option string :=
  match find (String.eqb (str key)) fieldNames with
  | Some f => Some f
  | None =>
      find (fun f => String.eqb (str (foldName key)) (str (foldName (bytes f))))
           fieldNames
  end.

(** A string takes a JSON string; [null] leaves it as it is; any other
    value is an error. *)
Definition storeString (v : JValue) (old : string) : option string :=
  match v with
  | JNull => Some old
  | JString raw => option_map str (unquote raw)
  | _ => None
  end.

Definition storeInt64 (v : JValue) (old : Z) : option Z :=
  match v with
  | JNull => Some old
  | JNumber lit => ParseInt64 lit
  | _ => None
  end.

Definition storeTime (v : JValue) (old : Time) : option Time :=
  match v with
  | JNull => Some old
  | JString raw => Time_UnmarshalJSON raw
  | _ => None
  end.

(** A struct takes an object, whose members are stored one after the
    other, a key that names no field being skipped; [null] leaves the
    struct as it is. *)
Fixpoint storeMembers {T} (fieldNames : list string)
    (storeField : T -> string -> JValue -> option T)
    (ms : list (list ascii * JValue)) (old : T) : option T :=
  match ms with
  | [] => Some old
  | (rawkey, v) :: ms' =>
      match unquote rawkey with
      | None => None
      | Some key =>
          match findField fieldNames key with
          | None => storeMembers fieldNames storeField ms' old
          | Some f =>
              match storeField old f v with
              | Some new => storeMembers fieldNames storeField ms' new
              | None => None
              end
          end
      end
  end.

Definition storeStruct {T} (fieldNames : list string)
    (storeField : T -> string -> JValue -> option T) (v : JValue) (old : T) : option T :=
  match v with
  | JNull => Some old
  | JObject ms => storeMembers fieldNames storeField ms old
  | _ => None
  end.

(** A slice takes an array: the element at each index is stored into the
    element the slice has there, or into a zero element when the slice is
    shorter, and the slice ends where the array ends; [null] empties it. *)
Fixpoint storeItems {T} (zero : T) (storeElem : JValue -> T -> option T)
    (items : list JValue) (old : list T) : option (list T) :=
  match items with
  | [] => Some []
  | v :: items' =>
      match storeElem v (hd zero old) with
      | Some x => option_map (cons x) (storeItems zero storeElem items' (tl old))
      | None => None
      end
  end.

Definition storeSlice {T} (zero : T) (storeElem : JValue -> T -> option T)
    (v : JValue) (old : list T) : option (list T) :=
  match v with
  | JNull => Some []
  | JArray items => storeItems zero storeElem items old
  | _ => None
  end.

(** *** Maps

    A [map[string]T] as the list of its keys with their values, each key
    once. *)
Definition map_set {T} (k : string) (v : T) (m : list (string * T)) : list (string * T) :=
  (k, v) :: filter (fun p => negb (String.eqb (fst p) k)) m.

Definition map_has {T} (k : string) (m : list (string * T)) : bool :=
  existsb (fun p => String.eqb (fst p) k) m.

(** A map with string keys takes an object: the value of each member is
    stored into a zero element, which is then put into the map under the
    key of the member; [null] empties the map. *)
Fixpoint storeMapMembers {T} (zero : T) (storeElem : JValue -> T -> option T)
    (ms : list (list ascii * JValue)) (old : list (string * T))
  : option (list (string * T)) :=
  match ms with
  | [] => Some old
  | (rawkey, v) :: ms' =>
      match unquote rawkey with
      | None => None
      | Some key =>
          match storeElem v zero with
          | Some x => storeMapMembers zero storeElem ms' (map_set (str key) x old)
          | None => None
          end
      end
  end.

Definition storeMap {T} (zero : T) (storeElem : JValue -> T -> option T)
    (v : JValue) (old : list (string * T)) : option (list (string * T)) :=
  match v with
  | JNull => Some []
  | JObject ms => storeMapMembers zero storeElem ms old
  | _ => None
  end.

(** [filepath.Join] of any number of elements: from the first element
    that is not empty on, the elements are joined with separators and the
    result is cleaned. *)
Fixpoint JoinElems (elem : list string) : string :=
  match elem with
  | [] => EmptyString
  | e :: rest =>
      match e with
      | EmptyString => JoinElems rest
      | _ => Clean (String.concat "/" elem)
      end
  end.

End Go.

Import Go.

(** ** [pkg/logger]: the upload log *)

Module Logger.

(** [UploadLogEntry] represents a single upload operation in the log. *)
Record UploadLogEntry := {
  Timestamp : Time;
  File : string;
  Path : string;
  Size : Z;
  Method : string;
  Account : string;
  Workspace : string;
  Status : string;
  URL : string;
  Error : string }.

Definition zeroEntry : UploadLogEntry :=
  {| Timestamp := zeroTime; File := EmptyString; Path := EmptyString; Size := 0;
     Method := EmptyString; Account := EmptyString; Workspace := EmptyString;
     Status := EmptyString; URL := EmptyString; Error := EmptyString |}.

(** *** [json.Marshal] and [json.Unmarshal] at type [UploadLogEntry] *)

Definition member (key : string) (value : string) : string :=
  String dquote (key ++ String dquote (String ":" value)).

(** A field tagged [omitempty] is left out when it is the empty string. *)
Definition omitempty (key : string) (v : string) : list string :=
  match v with
  | EmptyString => []
  | _ => [member key (appendString v)]
  end.

Definition Marshal (entry : UploadLogEntry) : result string :=
  match Time_MarshalJSON (Timestamp entry) with
  | Err msg =>
      Err ("json: error calling MarshalJSON for type time.Time: " ++ msg)
  | Ok ts =>
      Ok ("{" ++ String.concat ","
            ([member "timestamp" ts; member "file" (appendString (File entry))]
             ++ omitempty "path" (Path entry)
             ++ [member "size" (itoa (Size entry));
                 member "method" (appendString (Method entry));
                 member "account" (appendString (Account entry));
                 member "workspace" (appendString (Workspace entry));
                 member "status" (appendString (Status entry))]
             ++ omitempty "url" (URL entry)
             ++ omitempty "error" (Error entry))%list
          ++ "}")
  end.

Definition fieldNames : list string :=
  [ "timestamp"; "file"; "path"; "size"; "method"; "account"; "workspace";
    "status"; "url"; "error" ].

Definition storeField (e : UploadLogEntry) (f : string) (v : JValue)
  : option UploadLogEntry :=
  if String.eqb f "timestamp" then
    option_map (fun x => {| Timestamp := x; File := File e; Path := Path e; Size := Size e;
                            Method := Method e; Account := Account e; Workspace := Workspace e;
                            Status := Status e; URL := URL e; Error := Error e |})
               (storeTime v (Timestamp e))
  else if String.eqb f "file" then
    option_map (fun x => {| Timestamp := Timestamp e; File := x; Path := Path e; Size := Size e;
                            Method := Method e; Account := Account e; Workspace := Workspace e;
                            Status := Status e; URL := URL e; Error := Error e |})
               (storeString v (File e))
  else if String.eqb f "path" then
    option_map (fun x => {| Timestamp := Timestamp e; File := File e; Path := x; Size := Size e;
                            Method := Method e; Account := Account e; Workspace := Workspace e;
                            Status := Status e; URL := URL e; Error := Error e |})
               (storeString v (Path e))
  else if String.eqb f "size" then
    option_map (fun x => {| Timestamp := Timestamp e; File := File e; Path := Path e; Size := x;
                            Method := Method e; Account := Account e; Workspace := Workspace e;
                            Status := Status e; URL := URL e; Error := Error e |})
               (storeInt64 v (Size e))
  else if String.eqb f "method" then
    option_map (fun x => {| Timestamp := Timestamp e; File := File e; Path := Path e; Size := Size e;
                            Method := x; Account := Account e; Workspace := Workspace e;
                            Status := Status e; URL := URL e; Error := Error e |})
               (storeString v (Method e))
  else if String.eqb f "account" then
    option_map (fun x => {| Timestamp := Timestamp e; File := File e; Path := Path e; Size := Size e;
                            Method := Method e; Account := x; Workspace := Workspace e;
                            Status := Status e; URL := URL e; Error := Error e |})
               (storeString v (Account e))
  else if String.eqb f "workspace" then
    option_map (fun x => {| Timestamp := Timestamp e; File := File e; Path := Path e; Size := Size e;
                            Method := Method e; Account := Account e; Workspace := x;
                            Status := Status e; URL := URL e; Error := Error e |})
               (storeString v (Workspace e))
  else if String.eqb f "status" then
    option_map (fun x => {| Timestamp := Timestamp e; File := File e; Path := Path e; Size := Size e;
                            Method := Method e; Account := Account e; Workspace := Workspace e;
                            Status := x; URL := URL e; Error := Error e |})
               (storeString v (Status e))
  else if String.eqb f "url" then
    option_map (fun x => {| Timestamp := Timestamp e; File := File e; Path := Path e; Size := Size e;
                            Method := Method e; Account := Account e; Workspace := Workspace e;
                            Status := Status e; URL := x; Error := Error e |})
               (storeString v (URL e))
  else
    option_map (fun x => {| Timestamp := Timestamp e; File := File e; Path := Path e; Size := Size e;
                            Method := Method e; Account := Account e; Workspace := Workspace e;
                            Status := Status e; URL := URL e; Error := x |})
               (storeString v (Error e)).

(** [json.Unmarshal(data, &entry)] with [entry] the zero value; [None]
    when it returns an error. *)
Definition Unmarshal (data : list ascii) : option UploadLogEntry :=
  match parse_json data with
  | Some v => storeStruct fieldNames storeField v zeroEntry
  | None => None
  end.

(** *** The log file and the calls on it

    [LogFile] is the content of [uploads.jsonl] in the state directory,
    [None] while the file does not exist.  [Clock] counts the readings of
    the clock. *)
Record State := { LogFile : option string; Clock : nat }.

(** What the surroundings answer: the errors of the file calls, if any
    ([Write_err]: the write fails after some of the bytes), and the clock. *)
Record Disk := {
  StateFile_err : error;
  OpenFile_err : error;
  Write_err : option (nat * string);
  Open_err : error;
  time_Now : nat -> Time }.

Definition content (st : State) : string :=
  match LogFile st with
  | Some c => c
  | None => EmptyString
  end.

Definition newline : string := String (byte_of 10) EmptyString.

(** [LogUpload] appends an upload entry to the log file. *)
Definition LogUpload (d : Disk) (entry : UploadLogEntry) (st : State) : error * State :=
  match StateFile_err d with
  | Some msg => (Some msg, st)
  | None =>
      match OpenFile_err d with
      | Some msg => (Some msg, st)
      | None =>
          (* the file is opened with O_APPEND|O_CREATE *)
          let st := {| LogFile := Some (content st); Clock := Clock st |} in
          (* add timestamp if not present *)
          let '(entry, st) :=
            if IsZero (Timestamp entry) then
              ({| Timestamp := time_Now d (Clock st); File := File entry; Path := Path entry;
                  Size := Size entry; Method := Method entry; Account := Account entry;
                  Workspace := Workspace entry; Status := Status entry; URL := URL entry;
                  Error := Error entry |},
               {| LogFile := LogFile st; Clock := S (Clock st) |})
            else (entry, st) in
          match Marshal entry with
          | Err msg => (Some msg, st)
          | Ok data =>
              let line := data ++ newline in
              match Write_err d with
              | Some (n, msg) =>
                  (Some msg, {| LogFile := Some (content st ++ substring 0 n line);
                                Clock := Clock st |})
              | None =>
                  (None, {| LogFile := Some (content st ++ line); Clock := Clock st |})
              end
          end
      end
  end.

(** [bufio.Scanner] with [ScanLines] and its buffer of at most
    [MaxScanTokenSize] bytes: the lines of the input, a carriage return at
    the end of a line dropped; the scan stops with [ErrTooLong] once the
    buffer is full of bytes of one line without its end in sight.  [cur]
    is the line being read, reversed, and [n] its length. *)
Definition MaxScanTokenSize : N := 64 * 1024.
Definition ErrTooLong : string := "bufio.Scanner: token too long".

Definition dropCR (cur : list ascii) : list ascii :=
  match cur with
  | c :: r => if Ascii.eqb c (byte_of 13) then rev_append r [] else rev_append cur []
  | [] => []
  end.

Fixpoint scan (data cur : list ascii) (n : N) : list (list ascii) * error :=
  match data with
  | [] =>
      match cur with
      | [] => ([], None)
      | _ => ([dropCR cur], None)
      end
  | c :: r =>
      if Ascii.eqb c (byte_of 10) then
        let '(ls, e) := scan r [] 0%N in (dropCR cur :: ls, e)
      else if (MaxScanTokenSize <=? n + 1)%N then ([], Some ErrTooLong)
      else scan r (c :: cur) (n + 1)%N
  end.

(** The loop of [ReadLogs] over the lines: invalid lines are skipped. *)
Fixpoint entriesOf (lines : list (list ascii)) : list UploadLogEntry :=
  match lines with
  | [] => []
  | l :: ls =>
      match Unmarshal l with
      | Some entry => entry :: entriesOf ls
      | None => entriesOf ls
      end
  end.

(** [ReadLogs] reads all upload log entries from the log file. *)
Definition ReadLogs (d : Disk) (st : State) : list UploadLogEntry * error :=
  match LogFile st with
  | None => ([], None)                    (* no logs file exists yet *)
  | Some c =>
      match Open_err d with
      | Some msg => ([], Some msg)
      | None =>
          let '(lines, e) := scan (bytes c) [] 0%N in
          (entriesOf lines, e)
      end
  end.

(** [GetLogPath] returns the path to the log file: here the error of
    [xdg.StateFile], if any; the path itself is only ever printed. *)
Definition GetLogPath (d : Disk) : error := StateFile_err d.

(** [ClearLogs] removes the log file; [remove_err] is the error of
    [os.Remove], if any. *)
Definition ClearLogs (remove_err : error) (st : State) : error * State :=
  match LogFile st with
  | None => (None, st)                    (* file doesn't exist, nothing to clear *)
  | Some _ =>
      match remove_err with
      | Some msg => (Some msg, st)
      | None => (None, {| LogFile := None; Clock := Clock st |})
      end
  end.

End Logger.

(** ** [pkg/client]: validation *)

Module Client.

(** [MaxFileSize] is the maximum file size allowed (5MB). *)
Definition MaxFileSize : Z := 5 * 1024 * 1024.

(** What [os.FileInfo] tells the program. *)
Record FileInfo := { Size : Z; IsDir : bool }.

(** The outcome of [os.Stat]: the file information, or an error which
    [os.IsNotExist] recognises or not. *)
Inductive StatResult :=
| StatOk (info : FileInfo)
| StatErr (isNotExist : bool) (msg : string).

(** [ValidExtensions], a [map[string]bool]; a key that is absent reads as
    [false]. *)
Definition ValidExtensionsTable : list (string * bool) :=
  [ (".jpg", true); (".jpeg", true); (".png", true); (".gif", true);
    (".svg", true); (".webp", true);
    (".bmp", true); (".pdf", true); (".txt", true); (".json", true);
    (".css", true); (".js", true); (".xml", true) ].

Fixpoint map_lookup (m : list (string * bool)) (k : string) : bool :=
  match m with
  | [] => false
  | (k', v) :: m' => if String.eqb k k' then v else map_lookup m' k
  end.

Definition ValidExtensions (ext : string) : bool :=
  map_lookup ValidExtensionsTable ext.

(** [GetMIMEType] returns the MIME type for a given file extension. *)
Definition GetMIMEType (ext : string) : string :=
  let e := ToLower ext in
  if (String.eqb e ".jpg" || String.eqb e ".jpeg")%bool then "image/jpeg"
  else if String.eqb e ".png" then "image/png"
  else if String.eqb e ".gif" then "image/gif"
  else if String.eqb e ".webp" then "image/webp"
  else if String.eqb e ".svg" then "image/svg+xml"
  else if String.eqb e ".bmp" then "image/bmp"
  else if String.eqb e ".pdf" then "application/pdf"
  else if String.eqb e ".txt" then "text/plain"
  else if String.eqb e ".json" then "application/json"
  else if String.eqb e ".xml" then "application/xml"
  else if String.eqb e ".css" then "text/css"
  else if String.eqb e ".js" then "application/javascript"
  else "application/octet-stream".

Definition unsupported_hint : string :=
  " (images: jpg, jpeg, png, gif, svg, webp, bmp; docs: pdf, txt, json, xml; web: css, js)".

(** [ValidateFile]; [stat] is [os.Stat] on the file system of the call. *)
Definition ValidateFile (stat : string -> StatResult) (filePath : string) : error :=
  match stat filePath with
  | StatErr true _ => Some ("file does not exist: " ++ filePath)
  | StatErr false msg => Some ("failed to access file: " ++ msg)
  | StatOk fileInfo =>
      if IsDir fileInfo then
        Some ("path is a directory, not a file: " ++ filePath)
      else if Size fileInfo >? MaxFileSize then
        Some ("file size (" ++ itoa (Size fileInfo)
              ++ " bytes) exceeds maximum allowed size ("
              ++ itoa MaxFileSize ++ " bytes / 5MB)")
      else if Size fileInfo =? 0 then
        Some ("file is empty: " ++ filePath)
      else
        let ext := ToLower (Ext filePath) in
        if negb (ValidExtensions ext) then
          Some ("unsupported file type: " ++ ext ++ unsupported_hint)
        else None
  end.


(** *** The surroundings of an upload *)

(** A file opened by [os.Open]: what [file.Stat] returns and what reading
    the file to its end gives. *)
Record OpenedFile := { file_Stat : result FileInfo; file_Read : result string }.

(** One part of a multipart body. *)
Record Part := { PartHeader : list (string * string); PartData : string }.

Record Request := {
  ReqMethod : string;
  ReqURL : string;
  ReqHeader : list (string * string);
  ReqBody : list Part }.

Record Response := { StatusCode : Z; RespBody : string }.

(** [httpClient.Do] followed by [io.ReadAll] of the body. *)
Inductive RoundTrip :=
| DoError (msg : string)
| ReadError (msg : string)
| Received (resp : Response).

(** The calls that write to the body in memory. *)
Inductive BufferCall :=
| WriteField (name : string)
| CreatePart
| CopyTo
| CloseWriter
| MarshalValue (what : string).

(** What the surroundings answer to the calls of an upload.
    [regexp_FindSubmatch p b] is the match of the pattern [p] in [b] with
    its groups, [[]] when there is none; [json_error b] is the text of the
    error of [json.Unmarshal] on the bytes [b] it refuses. *)
Record Env := {
  os_Stat : string -> StatResult;
  os_Open : string -> result OpenedFile;
  http_NewRequest : string -> string -> error;
  http_Do : Request -> RoundTrip;
  buffer_err : BufferCall -> error;
  regexp_FindSubmatch : string -> string -> list string;
  json_error : string -> string;
  disk : Logger.Disk }.

(** [UploadResult] represents the result of a file upload operation. *)
Record UploadResult := {
  FileName : string;
  FileURL : string;
  Success : bool;
  Error : error }.

Definition newResult (filePath : string) : UploadResult :=
  {| FileName := Base filePath; FileURL := EmptyString; Success := false; Error := None |}.

(** [result.Error = err; return result, result.Error] *)
Definition failed (result : UploadResult) (msg : string) : UploadResult * error :=
  ({| FileName := FileName result; FileURL := FileURL result;
      Success := Success result; Error := Some msg |}, Some msg).

(** [result.FileURL = fileURL; result.Success = true; return result, nil] *)
Definition succeeded (result : UploadResult) (fileURL : string) : UploadResult * error :=
  ({| FileName := FileName result; FileURL := fileURL;
      Success := true; Error := Error result |}, None).

(** [Authenticator] handles authentication using the VTEX CLI token. *)
Record Authenticator := { token : string }.

Definition AddAuthHeaders (a : Authenticator) (h : list (string * string))
  : list (string * string) :=
  (h ++ [("VtexIdclientAutCookie", token a)])%list.

Definition sessionExpired : string :=
  "your VTEX session has expired. Please run 'vtex login' and try again".

Definition is2xx (status : Z) : bool := negb ((status <? 200) || (status >=? 300)).

Definition quoted (s : string) : string := String dquote (s ++ String dquote EmptyString).

Definition fileLogEntry (now : Time) (filePath : string) (size : Z)
    (method account workspace status url err : string) : Logger.UploadLogEntry :=
  {| Logger.Timestamp := now; Logger.File := Base filePath; Logger.Path := filePath;
     Logger.Size := size; Logger.Method := method; Logger.Account := account;
     Logger.Workspace := workspace; Logger.Status := status;
     Logger.URL := url; Logger.Error := err |}.

(** [logger.LogUpload(logger.UploadLogEntry{Timestamp: time.Now(), ...})]:
    the clock is read, the entry appended, the error of the append
    dropped. *)
Definition logAttempt (env : Env) (filePath : string) (size : Z)
    (method account workspace status url err : string) (st : Logger.State)
  : Logger.State :=
  let now := Logger.time_Now (disk env) (Logger.Clock st) in
  let st := {| Logger.LogFile := Logger.LogFile st; Logger.Clock := S (Logger.Clock st) |} in
  snd (Logger.LogUpload (disk env)
         (fileLogEntry now filePath size method account workspace status url err) st).

(** *** The CMS FilePicker client *)

(** [FilePickerUploadResponse] represents the response from FilePicker
    upload. *)
Record FilePickerUploadResponse := { FileNameInserted : string; Mensagem : string }.

Definition storeFilePickerField (r : FilePickerUploadResponse) (f : string) (v : JValue)
  : option FilePickerUploadResponse :=
  if String.eqb f "fileNameInserted" then
    option_map (fun x => {| FileNameInserted := x; Mensagem := Mensagem r |})
               (storeString v (FileNameInserted r))
  else
    option_map (fun x => {| FileNameInserted := FileNameInserted r; Mensagem := x |})
               (storeString v (Mensagem r)).

Definition UnmarshalFilePicker (data : string) : option FilePickerUploadResponse :=
  match parse_json (bytes data) with
  | Some v =>
      storeStruct ["fileNameInserted"; "mensagem"] storeFilePickerField v
        {| FileNameInserted := EmptyString; Mensagem := EmptyString |}
  | None => None
  end.

(** [CMSFilePickerClient]; its HTTP client is part of the surroundings,
    and the request token, which each upload fetches before it uses it, is
    passed from [getRequestToken] to its use. *)
Record CMSFilePickerClient := {
  account : string;
  workspace : string;
  authenticator : Authenticator;
  verbose : bool }.

Definition NewCMSFilePickerClient (account workspace : string)
    (authenticator : Authenticator) (verbose : bool) : CMSFilePickerClient :=
  {| account := account; workspace := workspace;
     authenticator := authenticator; verbose := verbose |}.

Definition tokenPattern1 : string :=
  "id=" ++ quoted "fileUploadRequestToken" ++ "\s+value=" ++ quoted ("([^" ++ String dquote "]+)").
Definition tokenPattern2 : string :=
  "value=" ++ quoted ("([^" ++ String dquote "]+)") ++ "\s+id=" ++ quoted "fileUploadRequestToken".
Definition tokenPattern3 : string :=
  "fileUploadRequestToken[^>]*value=" ++ quoted ("([^" ++ String dquote "]+)").

(** [getRequestToken] fetches the requestToken from the CMS admin page. *)
Definition getRequestToken (env : Env) (c : CMSFilePickerClient) : result string :=
  let url := "https://" ++ account c
             ++ ".vtexcommercestable.com.br/admin/a/PortalManagement/AddFile?fileType=images" in
  match http_NewRequest env "POST" url with
  | Some msg => Err ("failed to create request: " ++ msg)
  | None =>
      let req := {| ReqMethod := "POST"; ReqURL := url;
                    ReqHeader := AddAuthHeaders (authenticator c) []; ReqBody := [] |} in
      match http_Do env req with
      | DoError msg => Err ("request failed: " ++ msg)
      | ReadError msg => Err ("failed to read response: " ++ msg)
      | Received resp =>
          let status := StatusCode resp in
          let body := RespBody resp in
          if (status <? 200) || (status >=? 300) then
            if (status =? 401) || (status =? 403) then
              Err ("authentication failed (HTTP " ++ itoa status ++ "): " ++ sessionExpired)
            else if status =? 302 then
              Err ("authentication failed (redirect): " ++ sessionExpired)
            else
              Err ("failed to fetch upload page with status " ++ itoa status ++ ": " ++ body)
          else
            let matches := regexp_FindSubmatch env tokenPattern1 body in
            let matches :=
              if (List.length matches <? 2)%nat
              then regexp_FindSubmatch env tokenPattern2 body else matches in
            let matches :=
              if (List.length matches <? 2)%nat
              then regexp_FindSubmatch env tokenPattern3 body else matches in
            if (List.length matches <? 2)%nat then
              Err ("authentication failed: could not obtain upload token. "
                   ++ "Your VTEX session may have expired. Please run 'vtex login' and try again")
            else Ok (nth 1 matches EmptyString)
      end
  end.

Definition multipartContentType : string := "multipart/form-data".

(** The request that [uploadFilePicker] builds. *)
Definition filePickerEndpoint (c : CMSFilePickerClient) : string :=
  "https://" ++ account c ++ ".vtexcommercestable.com.br/admin/a/FilePicker/UploadFile".

Definition filePickerRequest (c : CMSFilePickerClient) (body : list Part)
    (contentType : string) : Request :=
  {| ReqMethod := "POST"; ReqURL := filePickerEndpoint c;
     ReqHeader :=
       AddAuthHeaders (authenticator c)
         [("Content-Type", contentType); ("Accept", "*/*");
          ("X-Requested-With", "XMLHttpRequest")];
     ReqBody := body |}.

(** [uploadFilePicker] performs the FilePicker upload request. *)
Definition uploadFilePicker (env : Env) (c : CMSFilePickerClient)
    (body : list Part) (contentType fileName : string) : result string :=
  let url := filePickerEndpoint c in
  match http_NewRequest env "POST" url with
  | Some msg => Err ("failed to create request: " ++ msg)
  | None =>
      match http_Do env (filePickerRequest c body contentType) with
      | DoError msg => Err ("request failed: " ++ msg)
      | ReadError msg => Err ("failed to read response: " ++ msg)
      | Received resp =>
          let status := StatusCode resp in
          let respBody := RespBody resp in
          if (status <? 200) || (status >=? 300) then
            if (status =? 401) || (status =? 403) then
              Err ("authentication failed (HTTP " ++ itoa status ++ "): " ++ sessionExpired)
            else
              Err ("upload failed with status " ++ itoa status ++ ": " ++ respBody)
          else
            match UnmarshalFilePicker respBody with
            | None =>
                Err ("failed to parse response: " ++ json_error env respBody
                     ++ " (body: " ++ respBody ++ ")")
            | Some uploadResp =>
                match FileNameInserted uploadResp with
                | EmptyString => Err ("upload failed: " ++ Mensagem uploadResp)
                | inserted =>
                    let encodedFileName := PathEscape inserted in
                    Ok ("https://" ++ account c ++ ".vtexassets.com/arquivos/"
                        ++ encodedFileName)
                end
            end
      end
  end.

Definition fieldPart (name value : string) : Part :=
  {| PartHeader := [("Content-Disposition", "form-data; name=" ++ quoted name)];
     PartData := value |}.

Definition filePart (name fileName mimeType data : string) : Part :=
  {| PartHeader :=
       [("Content-Disposition",
         "form-data; name=" ++ quoted name ++ "; filename=" ++ quoted fileName);
        ("Content-Type", mimeType)];
     PartData := data |}.

(** [UploadFile] uploads a single file using CMS FilePicker.

    [CMS_prepare] is the first part of the function, up to
    [writer.Close()]: the file information and the body of the request, or
    the error with which the function returns before it sends anything. *)
Definition CMS_prepare (env : Env) (c : CMSFilePickerClient) (filePath : string)
  : result (FileInfo * list Part) :=
  (* validate file *)
  match ValidateFile (os_Stat env) filePath with
  | Some err => Err err
  | None =>
  (* ALWAYS get a fresh requestToken before each upload *)
  match getRequestToken env c with
  | Err err => Err ("failed to get requestToken: " ++ err)
  | Ok requestToken =>
  match os_Open env filePath with
  | Err err => Err ("failed to open file: " ++ err)
  | Ok file =>
  match file_Stat file with
  | Err err => Err ("failed to get file info: " ++ err)
  | Ok fileInfo =>
  let fileName := Base filePath in
  match buffer_err env (WriteField "requestToken") with
  | Some err => Err ("failed to write requestToken field: " ++ err)
  | None =>
  let ext := Ext filePath in
  let mimeType := GetMIMEType ext in
  match buffer_err env CreatePart with
  | Some err => Err ("failed to create form file part: " ++ err)
  | None =>
  match
    match file_Read file with
    | Err err => Err err
    | Ok data =>
        match buffer_err env CopyTo with
        | Some err => Err err
        | None => Ok data
        end
    end
  with
  | Err err => Err ("failed to copy file content: " ++ err)
  | Ok data =>
  match buffer_err env CloseWriter with
  | Some err => Err ("failed to close multipart writer: " ++ err)
  | None =>
      Ok (fileInfo, [fieldPart "requestToken" requestToken;
                     filePart "FileData" fileName mimeType data])
  end end end end end end end end.

Definition CMS_UploadFile (env : Env) (c : CMSFilePickerClient)
    (filePath : string) (showProgress : bool) (st : Logger.State)
  : (UploadResult * error) * Logger.State :=
  let result := newResult filePath in
  match CMS_prepare env c filePath with
  | Err err => (failed result err, st)
  | Ok (fileInfo, body) =>
      (* upload via FilePicker *)
      match uploadFilePicker env c body multipartContentType (Base filePath) with
      | Err err =>
          (failed result err,
           logAttempt env filePath (Size fileInfo) "cms" (account c) (workspace c)
             "failed" EmptyString err st)
      | Ok fileURL =>
          (succeeded result fileURL,
           logAttempt env filePath (Size fileInfo) "cms" (account c) (workspace c)
             "success" fileURL EmptyString st)
      end
  end.

(** *** The GraphQL client *)

(** [GraphQLUploadResult] represents the result of a GraphQL file upload. *)
Record UploadFileData := { GqlFileURL : string; MimeType : string; Encoding : string }.
Record GraphQLError := { Message : string; ErrPath : list string }.
Record GraphQLUploadResult := { Data_UploadFile : UploadFileData; Errors : list GraphQLError }.

Definition storeUploadFileField (d : UploadFileData) (f : string) (v : JValue)
  : option UploadFileData :=
  if String.eqb f "fileUrl" then
    option_map (fun x => {| GqlFileURL := x; MimeType := MimeType d; Encoding := Encoding d |})
               (storeString v (GqlFileURL d))
  else if String.eqb f "mimetype" then
    option_map (fun x => {| GqlFileURL := GqlFileURL d; MimeType := x; Encoding := Encoding d |})
               (storeString v (MimeType d))
  else
    option_map (fun x => {| GqlFileURL := GqlFileURL d; MimeType := MimeType d; Encoding := x |})
               (storeString v (Encoding d)).

(** The struct [Data], whose one field is the struct [UploadFile]. *)
Definition storeDataField (d : UploadFileData) (f : string) (v : JValue)
  : option UploadFileData :=
  storeStruct ["fileUrl"; "mimetype"; "encoding"] storeUploadFileField v d.

Definition storeErrorField (e : GraphQLError) (f : string) (v : JValue)
  : option GraphQLError :=
  if String.eqb f "message" then
    option_map (fun x => {| Message := x; ErrPath := ErrPath e |})
               (storeString v (Message e))
  else
    option_map (fun x => {| Message := Message e; ErrPath := x |})
               (storeSlice EmptyString storeString v (ErrPath e)).

Definition zeroGraphQLError : GraphQLError := {| Message := EmptyString; ErrPath := [] |}.

Definition storeResultField (r : GraphQLUploadResult) (f : string) (v : JValue)
  : option GraphQLUploadResult :=
  if String.eqb f "data" then
    option_map (fun x => {| Data_UploadFile := x; Errors := Errors r |})
               (storeStruct ["uploadFile"] storeDataField v (Data_UploadFile r))
  else
    option_map (fun x => {| Data_UploadFile := Data_UploadFile r; Errors := x |})
               (storeSlice zeroGraphQLError
                  (storeStruct ["message"; "path"] storeErrorField) v (Errors r)).

Definition UnmarshalGraphQL (data : string) : option GraphQLUploadResult :=
  match parse_json (bytes data) with
  | Some v =>
      storeStruct ["data"; "errors"] storeResultField v
        {| Data_UploadFile :=
             {| GqlFileURL := EmptyString; MimeType := EmptyString; Encoding := EmptyString |};
           Errors := [] |}
  | None => None
  end.

Record GraphQLClient := {
  gql_account : string;
  gql_workspace : string;
  gql_authenticator : Authenticator;
  gql_verbose : bool }.

Definition NewGraphQLClient (account workspace : string)
    (authenticator : Authenticator) (verbose : bool) : GraphQLClient :=
  {| gql_account := account; gql_workspace := workspace;
     gql_authenticator := authenticator; gql_verbose := verbose |}.

Definition nl : string := String (byte_of 10) EmptyString.
Definition tab : string := String (byte_of 9) EmptyString.

Definition uploadMutation : string :=
  "mutation uploadFile($file: Upload!, $bucket: String) {" ++ nl
  ++ tab ++ tab ++ tab ++ "uploadFile(file: $file, bucket: $bucket) {" ++ nl
  ++ tab ++ tab ++ tab ++ tab ++ "fileUrl" ++ nl
  ++ tab ++ tab ++ tab ++ tab ++ "mimetype" ++ nl
  ++ tab ++ tab ++ tab ++ tab ++ "encoding" ++ nl
  ++ tab ++ tab ++ tab ++ "}" ++ nl
  ++ tab ++ tab ++ "}".

(** [json.Marshal(operations)]: the keys of a map are written in order. *)
Definition operationsJSON : string :=
  "{" ++ quoted "query" ++ ":" ++ appendString uploadMutation ++ ","
  ++ quoted "variables" ++ ":{" ++ quoted "bucket" ++ ":" ++ quoted "images" ++ ","
  ++ quoted "file" ++ ":null}}".

Definition mapJSON : string :=
  "{" ++ quoted "0" ++ ":[" ++ quoted "variables.file" ++ "]}".

(** The request that [uploadGraphQL] builds. *)
Definition graphQLEndpoint (c : GraphQLClient) : string :=
  "https://" ++ gql_account c ++ ".myvtex.com/_v/private/graphql/v1".

Definition graphQLRequest (c : GraphQLClient) (body : list Part)
    (contentType : string) : Request :=
  {| ReqMethod := "POST"; ReqURL := graphQLEndpoint c;
     ReqHeader :=
       AddAuthHeaders (gql_authenticator c)
         [("Content-Type", contentType); ("Accept", "application/json")];
     ReqBody := body |}.

(** [uploadGraphQL] performs the GraphQL upload request. *)
Definition uploadGraphQL (env : Env) (c : GraphQLClient)
    (body : list Part) (contentType : string) : result string :=
  let url := graphQLEndpoint c in
  match http_NewRequest env "POST" url with
  | Some msg => Err ("failed to create request: " ++ msg)
  | None =>
      match http_Do env (graphQLRequest c body contentType) with
      | DoError msg => Err ("request failed: " ++ msg)
      | ReadError msg => Err ("failed to read response: " ++ msg)
      | Received resp =>
          let status := StatusCode resp in
          let respBody := RespBody resp in
          if (status <? 200) || (status >=? 300) then
            if (status =? 401) || (status =? 403) then
              Err ("authentication failed (HTTP " ++ itoa status ++ "): " ++ sessionExpired)
            else
              Err ("upload failed with status " ++ itoa status ++ ": " ++ respBody)
          else
            match UnmarshalGraphQL respBody with
            | None => Err ("failed to parse GraphQL response: " ++ json_error env respBody)
            | Some gqlResult =>
                match Errors gqlResult with
                | e :: _ => Err ("GraphQL error: " ++ Message e)
                | [] =>
                    match GqlFileURL (Data_UploadFile gqlResult) with
                    | EmptyString => Err "no fileUrl in response"
                    | fileURL => Ok fileURL
                    end
                end
            end
      end
  end.

(** [UploadFile] uploads a single file using GraphQL mutation;
    [GraphQL_prepare] is its first part, up to [writer.Close()]. *)
Definition GraphQL_prepare (env : Env) (c : GraphQLClient) (filePath : string)
  : result (FileInfo * list Part) :=
  match ValidateFile (os_Stat env) filePath with
  | Some err => Err err
  | None =>
  match os_Open env filePath with
  | Err err => Err ("failed to open file: " ++ err)
  | Ok file =>
  match file_Stat file with
  | Err err => Err ("failed to get file info: " ++ err)
  | Ok fileInfo =>
  match buffer_err env (MarshalValue "operations") with
  | Some err => Err ("failed to marshal operations: " ++ err)
  | None =>
  match buffer_err env (WriteField "operations") with
  | Some err => Err ("failed to write operations field: " ++ err)
  | None =>
  match buffer_err env (MarshalValue "map") with
  | Some err => Err ("failed to marshal map: " ++ err)
  | None =>
  match buffer_err env (WriteField "map") with
  | Some err => Err ("failed to write map field: " ++ err)
  | None =>
  let ext := Ext filePath in
  let mimeType := GetMIMEType ext in
  match buffer_err env CreatePart with
  | Some err => Err ("failed to create form file: " ++ err)
  | None =>
  match
    match file_Read file with
    | Err err => Err err
    | Ok data =>
        match buffer_err env CopyTo with
        | Some err => Err err
        | None => Ok data
        end
    end
  with
  | Err err => Err ("failed to copy file content: " ++ err)
  | Ok data =>
  match buffer_err env CloseWriter with
  | Some err => Err ("failed to close multipart writer: " ++ err)
  | None =>
      Ok (fileInfo, [fieldPart "operations" operationsJSON; fieldPart "map" mapJSON;
                     filePart "0" (Base filePath) mimeType data])
  end end end end end end end end end end.

Definition GraphQL_UploadFile (env : Env) (c : GraphQLClient)
    (filePath : string) (showProgress : bool) (st : Logger.State)
  : (UploadResult * error) * Logger.State :=
  let result := newResult filePath in
  match GraphQL_prepare env c filePath with
  | Err err => (failed result err, st)
  | Ok (fileInfo, body) =>
      (* upload with GraphQL *)
      match uploadGraphQL env c body multipartContentType with
      | Err err =>
          (failed result err,
           logAttempt env filePath (Size fileInfo) "graphql" (gql_account c)
             (gql_workspace c) "failed" EmptyString err st)
      | Ok fileURL =>
          (succeeded result fileURL,
           logAttempt env filePath (Size fileInfo) "graphql" (gql_account c)
             (gql_workspace c) "success" fileURL EmptyString st)
      end
  end.

(** *** [pkg/auth] *)

(** [NewAuthenticator] creates a new authenticator with VTEX CLI token. *)
Definition NewAuthenticator (token : string) : Authenticator := {| token := token |}.

(** [GetMethodName] returns a human-readable name for the authentication
    method. *)
Definition GetMethodName (a : Authenticator) : string := "VTEX CLI Token".

(** *** [CheckFileExists] *)

(** [escapeQuotes] of [mime/multipart], which [WriteField] applies to the
    name of the field. *)
Fixpoint escapeQuotes (s : string) : string :=
  match s with
  | EmptyString => EmptyString
  | String c rest =>
      if (Ascii.eqb c backslash || Ascii.eqb c dquote)%bool
      then String backslash (String c (escapeQuotes rest))
      else String c (escapeQuotes rest)
  end.

(** [json.Unmarshal(respBody, &result)] with [result] a nil
    [map[string]string]. *)
Definition UnmarshalStringMap (data : string) : option (list (string * string)) :=
  match parse_json (bytes data) with
  | Some v => storeMap EmptyString storeString v []
  | None => None
  end.

Definition fileExistsEndpoint (c : CMSFilePickerClient) : string :=
  "https://" ++ account c
  ++ ".vtexcommercestable.com.br/admin/a/FilePicker/FileExists?changedFileName=".

(** The request that [CheckFileExists] builds. *)
Definition fileExistsRequest (c : CMSFilePickerClient) (fileName : string) : Request :=
  {| ReqMethod := "POST"; ReqURL := fileExistsEndpoint c;
     ReqHeader :=
       AddAuthHeaders (authenticator c)
         [("Content-Type", multipartContentType); ("Accept", "*/*")];
     ReqBody := [fieldPart (escapeQuotes fileName) fileName] |}.

(** [CheckFileExists] verifies if a file already exists in VTEX
    FilePicker. *)
Definition CheckFileExists (env : Env) (c : CMSFilePickerClient) (fileName : string)
  : bool * error :=
  match buffer_err env (WriteField fileName) with
  | Some err => (false, Some ("failed to write field: " ++ err))
  | None =>
  match buffer_err env CloseWriter with
  | Some err => (false, Some ("failed to close writer: " ++ err))
  | None =>
  match http_NewRequest env "POST" (fileExistsEndpoint c) with
  | Some err => (false, Some ("failed to create request: " ++ err))
  | None =>
  match http_Do env (fileExistsRequest c fileName) with
  | DoError msg => (false, Some ("request failed: " ++ msg))
  | ReadError msg => (false, Some ("failed to read response: " ++ msg))
  | Received resp =>
      let respBody := RespBody resp in
      match UnmarshalStringMap respBody with
      | None => (false, Some ("failed to parse response: " ++ json_error env respBody))
      | Some result =>
          (* file exists if the map contains the filename as key *)
          (map_has fileName result, None)
      end
  end end end end.

End Client.

Import Client.

(** ** [pkg/vtexcli]: the session of the VTEX CLI *)

Module Vtexcli.

(** [SessionData] represents VTEX CLI session data from session.json. *)
Record SessionData := {
  data_Account : string;
  data_Login : string;
  data_Token : string;
  data_LastAccount : string }.

(** [WorkspaceData] represents VTEX CLI workspace data from
    workspace.json. *)
Record WorkspaceData := { CurrentWorkspace : string; LastWorkspace : string }.

(** [VTEXSession] represents a complete VTEX CLI session. *)
Record VTEXSession := {
  Account : string;
  Login : string;
  Token : string;
  Workspace : string }.

(** What the surroundings answer to the calls of [LoadSession];
    [json_error b] is the text of the error of [json.Unmarshal] on the
    bytes [b] it refuses. *)
Record Files := {
  os_UserHomeDir : result string;
  os_Stat : string -> StatResult;
  os_ReadFile : string -> result string;
  json_error : string -> string }.

Definition storeSessionField (d : SessionData) (f : string) (v : JValue)
  : option SessionData :=
  if String.eqb f "account" then
    option_map (fun x => {| data_Account := x; data_Login := data_Login d;
                            data_Token := data_Token d;
                            data_LastAccount := data_LastAccount d |})
               (storeString v (data_Account d))
  else if String.eqb f "login" then
    option_map (fun x => {| data_Account := data_Account d; data_Login := x;
                            data_Token := data_Token d;
                            data_LastAccount := data_LastAccount d |})
               (storeString v (data_Login d))
  else if String.eqb f "token" then
    option_map (fun x => {| data_Account := data_Account d; data_Login := data_Login d;
                            data_Token := x;
                            data_LastAccount := data_LastAccount d |})
               (storeString v (data_Token d))
  else
    option_map (fun x => {| data_Account := data_Account d; data_Login := data_Login d;
                            data_Token := data_Token d;
                            data_LastAccount := x |})
               (storeString v (data_LastAccount d)).

Definition UnmarshalSession (data : string) : option SessionData :=
  match parse_json (bytes data) with
  | Some v =>
      storeStruct ["account"; "login"; "token"; "lastAccount"] storeSessionField v
        {| data_Account := EmptyString; data_Login := EmptyString;
           data_Token := EmptyString; data_LastAccount := EmptyString |}
  | None => None
  end.

Definition storeWorkspaceField (d : WorkspaceData) (f : string) (v : JValue)
  : option WorkspaceData :=
  if String.eqb f "currentWorkspace" then
    option_map (fun x => {| CurrentWorkspace := x; LastWorkspace := LastWorkspace d |})
               (storeString v (CurrentWorkspace d))
  else
    option_map (fun x => {| CurrentWorkspace := CurrentWorkspace d; LastWorkspace := x |})
               (storeString v (LastWorkspace d)).

Definition UnmarshalWorkspace (data : string) : option WorkspaceData :=
  match parse_json (bytes data) with
  | Some v =>
      storeStruct ["currentWorkspace"; "lastWorkspace"] storeWorkspaceField v
        {| CurrentWorkspace := EmptyString; LastWorkspace := EmptyString |}
  | None => None
  end.

(** [getVTEXSessionPath] returns the path to VTEX CLI session directory. *)
Definition getVTEXSessionPath (fs : Files) : result string :=
  match os_UserHomeDir fs with
  | Err msg => Err ("failed to get home directory: " ++ msg)
  | Ok homeDir => Ok (JoinElems [homeDir; ".vtex"; "session"])
  end.

(** [LoadSession] loads the current VTEX CLI session. *)
Definition LoadSession (fs : Files) : result VTEXSession :=
  match getVTEXSessionPath fs with
  | Err msg => Err msg
  | Ok sessionPath =>
  (* check if session directory exists *)
  match os_Stat fs sessionPath with
  | StatErr true _ => Err "no VTEX session found. Please run 'vtex login' first"
  | _ =>
  let sessionFile := JoinElems [sessionPath; "session.json"] in
  match os_ReadFile fs sessionFile with
  | Err msg =>
      Err ("failed to read session file: " ++ msg ++ ". Please run 'vtex login' first")
  | Ok sessionBytes =>
  match UnmarshalSession sessionBytes with
  | None => Err ("failed to parse session file: " ++ json_error fs sessionBytes)
  | Some sessionData =>
  let workspaceFile := JoinElems [sessionPath; "workspace.json"] in
  match os_ReadFile fs workspaceFile with
  | Err msg =>
      Err ("failed to read workspace file: " ++ msg ++ ". Please run 'vtex login' first")
  | Ok workspaceBytes =>
  match UnmarshalWorkspace workspaceBytes with
  | None => Err ("failed to parse workspace file: " ++ json_error fs workspaceBytes)
  | Some workspaceData =>
      (* validate required fields *)
      if String.eqb (data_Account sessionData) EmptyString then
        Err "no account found in session. Please run 'vtex login' first"
      else if String.eqb (data_Token sessionData) EmptyString then
        Err "no token found in session. Please run 'vtex login' first"
      else if String.eqb (CurrentWorkspace workspaceData) EmptyString then
        Err "no workspace found in session. Please run 'vtex use <workspace>' first"
      else
        Ok {| Account := data_Account sessionData;
              Login := data_Login sessionData;
              Token := data_Token sessionData;
              Workspace := CurrentWorkspace workspaceData |}
  end end end end end end.

(** [ValidateToken] performs basic validation on the authentication
    token. *)
Definition ValidateToken (s : VTEXSession) : error :=
  if String.eqb (Token s) EmptyString then Some "no authentication token found"
  else if (String.length (Token s) <? 10)%nat then
    Some "authentication token appears to be invalid (too short)"
  else None.

End Vtexcli.

(** ** [cmd/batch.go]: discovery and the worker pool *)

Module Batch.

(** *** Discovery

    What [filepath.Walk] meets below a path, which it inspects with
    [os.Lstat] and so without following a symbolic link: a file (or
    anything else that is not a directory), or a directory with what
    [readDirNames] lists in it, in the order in which it lists it, or the
    error with which it refuses to list it, or an entry that its directory
    lists and that [os.Lstat] fails on. *)
Inductive Node :=
| FileNode (name : string)
| DirNode (name : string) (readErr : error) (entries : list Node)
| LostNode (name : string) (lstatErr : string).

Definition Name (n : Node) : string :=
  match n with
  | FileNode name => name
  | DirNode name _ _ => name
  | LostNode name _ => name
  end.

(** An entry of the list that [os.ReadDir] returns. *)
Record DirEntry := { EntryName : string; EntryIsDir : bool }.

(** What the two searches find at the path [directory]: [os.ReadDir], which
    opens the directory and follows a symbolic link to do so, its entries
    or an error; [filepath.Walk] the node that [os.Lstat] shows there, or
    the error of [os.Lstat]. *)
Record Directory := {
  os_ReadDir : result (list DirEntry);
  os_Lstat : result Node }.

(** The function that [findImageFiles] passes to [filepath.Walk], on a
    path that could be inspected. *)
Definition visit (path : string) (isDir : bool) (files : list string) : list string :=
  if negb isDir then
    let ext := Ext path in
    if ValidExtensions ext then (files ++ [path])%list else files
  else files.

(** [walk] of [path/filepath]: the function is called on the node, with
    the error of reading it when it is a directory that cannot be read,
    and then the entries are walked in order, the function being called
    with the error of [os.Lstat] on an entry that cannot be inspected.
    The function of [findImageFiles] returns every error it is given,
    which ends the walk. *)
Fixpoint walk (path : string) (n : Node) (files : list string) {struct n}
  : result (list string) :=
  match n with
  | FileNode _ => Ok (visit path false files)
  | LostNode _ msg => Err msg
  | DirNode _ (Some msg) _ => Err msg
  | DirNode _ None entries =>
      (fix walkEntries (es : list Node) (files : list string) {struct es}
         : result (list string) :=
         match es with
         | [] => Ok files
         | e :: es' =>
             match walk (Join path (Name e)) e files with
             | Ok files' => walkEntries es' files'
             | Err msg => Err msg
             end
         end) entries (visit path true files)
  end.

(** [findImageFiles]; [root] is what the file system shows at
    [directory]. *)
Definition findImageFiles (root : Directory) (directory : string) (recursive : bool)
  : result (list string) :=
  if recursive then
    match os_Lstat root with
    | Err msg => Err msg
    | Ok n => walk directory n []
    end
  else
    match os_ReadDir root with
    | Err msg => Err msg
    | Ok entries =>
        Ok (fold_left
              (fun files entry =>
                 if negb (EntryIsDir entry) then
                   let ext := Ext (EntryName entry) in
                   if ValidExtensions ext
                   then (files ++ [Join directory (EntryName entry)])%list
                   else files
                 else files)
              entries [])
    end.

(** *** The worker pool

    [uploadFilesWithConcurrency] as a transition system: the main
    goroutine and the workers take their steps in any order.  The upload
    of one file by a worker is one step; the appends to [results] are
    under the mutex, hence steps of their own. *)

(** Where a worker is: before a receive from [fileChan], with a file
    path, with the result of its upload, or after [wg.Done]. *)
Inductive Worker :=
| Receiving
| Holding (filePath : string)
| Uploaded (result : UploadResult)
| Exited.

(** Where the main goroutine is: starting workers ([started] of them so
    far), sending the files, waiting for the workers, or returned. *)
Inductive Main :=
| Starting (started : nat)
| Sending (pending : list string)
| Waiting
| Returned.

Record Pool := {
  main : Main;
  workers : list Worker;
  fileChan : list string;      (* the buffer of the channel *)
  closed : bool;
  results : list UploadResult;
  state : Logger.State }.

(** The arguments of the call. *)
Record Call := {
  c_env : Env;
  c_account : string;
  c_workspace : string;
  c_authenticator : Authenticator;
  c_files : list string;
  c_concurrency : Z;
  c_method : string;
  c_verbose : bool }.

(** The [uploadFunc] of a worker. *)
Definition uploadFunc (a : Call) (filePath : string) (st : Logger.State)
  : (UploadResult * error) * Logger.State :=
  if String.eqb (c_method a) "cms" then
    CMS_UploadFile (c_env a)
      (NewCMSFilePickerClient (c_account a) (c_workspace a) (c_authenticator a) (c_verbose a))
      filePath false st
  else
    GraphQL_UploadFile (c_env a)
      (NewGraphQLClient (c_account a) (c_workspace a) (c_authenticator a) (c_verbose a))
      filePath false st.

Definition initial (a : Call) (st : Logger.State) : Pool :=
  {| main := Starting 0; workers := []; fileChan := []; closed := false;
     results := []; state := st |}.

Definition setWorker (p : Pool) (i : nat) (w : Worker) : list Worker :=
  firstn i (workers p) ++ w :: skipn (S i) (workers p).

Inductive step (a : Call) : Pool -> Pool -> Prop :=
(* for i := 0; i < concurrency; i++ { wg.Add(1); go func ... } *)
| step_start p k :
    main p = Starting k -> (Z.of_nat k < c_concurrency a) ->
    step a p {| main := Starting (S k); workers := workers p ++ [Receiving];
                fileChan := fileChan p; closed := closed p;
                results := results p; state := state p |}
| step_started p k :
    main p = Starting k -> ~ (Z.of_nat k < c_concurrency a) ->
    step a p {| main := Sending (c_files a); workers := workers p;
                fileChan := fileChan p; closed := closed p;
                results := results p; state := state p |}
(* fileChan <- file; the channel has room for every file *)
| step_send p file pending :
    main p = Sending (file :: pending) ->
    step a p {| main := Sending pending; workers := workers p;
                fileChan := fileChan p ++ [file]; closed := closed p;
                results := results p; state := state p |}
(* close(fileChan) *)
| step_close p :
    main p = Sending [] ->
    step a p {| main := Waiting; workers := workers p;
                fileChan := fileChan p; closed := true;
                results := results p; state := state p |}
(* wg.Wait(); return results *)
| step_return p :
    main p = Waiting -> Forall (eq Exited) (workers p) ->
    step a p {| main := Returned; workers := workers p;
                fileChan := fileChan p; closed := closed p;
                results := results p; state := state p |}
(* for filePath := range fileChan *)
| step_receive p i filePath rest :
    nth_error (workers p) i = Some Receiving -> fileChan p = filePath :: rest ->
    step a p {| main := main p; workers := setWorker p i (Holding filePath);
                fileChan := rest; closed := closed p;
                results := results p; state := state p |}
| step_exit p i :
    nth_error (workers p) i = Some Receiving -> fileChan p = [] -> closed p = true ->
    step a p {| main := main p; workers := setWorker p i Exited;
                fileChan := fileChan p; closed := closed p;
                results := results p; state := state p |}
(* result, err := uploadFunc(filePath, false) *)
| step_upload p i filePath :
    nth_error (workers p) i = Some (Holding filePath) ->
    step a p {| main := main p;
                workers := setWorker p i (Uploaded (fst (fst (uploadFunc a filePath (state p)))));
                fileChan := fileChan p; closed := closed p;
                results := results p;
                state := snd (uploadFunc a filePath (state p)) |}
(* resultsMutex.Lock(); results = append(results, result); resultsMutex.Unlock() *)
| step_append p i result :
    nth_error (workers p) i = Some (Uploaded result) ->
    step a p {| main := main p; workers := setWorker p i Receiving;
                fileChan := fileChan p; closed := closed p;
                results := results p ++ [result]; state := state p |}.

(** The pools that the call can reach. *)
Inductive reachable (a : Call) (st : Logger.State) : Pool -> Prop :=
| reach_initial : reachable a st (initial a st)
| reach_step p q : reachable a st p -> step a p q -> reachable a st q.

(** *** The summary

    [printBatchSummary]: what it counts and what it lists, which is what
    it prints. *)
Record BatchSummary := {
  totalFiles : Z;
  successCount : Z;
  failureCount : Z;
  failedUploads : list (string * error) }.

Definition printBatchSummary (results : list UploadResult) : BatchSummary :=
  let '(successCount, failureCount) :=
    fold_left
      (fun '(s, f) result => if Success result then (s + 1, f) else (s, f + 1))
      results (0, 0) in
  {| totalFiles := Z.of_nat (List.length results);
     successCount := successCount;
     failureCount := failureCount;
     failedUploads :=
       if 0 <? failureCount then
         fold_left
           (fun l result =>
              if negb (Success result) then (l ++ [(FileName result, Error result)])%list
              else l)
           results []
       else [] |}.

(** *** The command

    The flags of the command. *)
Record Flags := {
  concurrency : Z;
  recursive : bool;
  batchMethod : string;
  batchSkipConfirm : bool;
  verbose : bool }.

(** What the command shows and asks before it uploads. *)
Inductive Event :=
| NoImageFiles (directory : string)
| CheckWarning (fileName msg : string)
| BatchInfo (session : Vtexcli.VTEXSession) (method directory : string)
            (filesFound totalSize workers : Z)
| FileLine (i : Z) (name : string) (size : Z)
| MoreFiles (n : Z)
| OverwriteWarning (n : Z)
| ExistingLine (name : string)
| MoreExisting (n : Z)
| Asked (prompt : string) (answer : bool)
| Cancelled.

(** How the first part of [runBatch] ends: it returns, it panics, or it
    goes on to [uploadFilesWithConcurrency] with the arguments [call]. *)
Inductive Plan :=
| Return (err : error)
| Panic
| Run (call : Call).

(** An addition of [int64]. *)
Definition add64 (x y : Z) : Z :=
  (x + y + 9223372036854775808) mod 18446744073709551616 - 9223372036854775808.

(** The sizes of the files that [os.Stat] finds, added up. *)
Definition totalSize (stat : string -> StatResult) (files : list string) : Z :=
  fold_left
    (fun total f =>
       match stat f with
       | StatOk info => add64 total (Size info)
       | StatErr _ _ => total
       end)
    files 0.

(** The check of the files that exist already. *)
Definition existingFiles (env : Env) (cmsClient : CMSFilePickerClient) (verbose : bool)
    (files : list string) : list string * list Event :=
  fold_left
    (fun '(existing, events) f =>
       let fileName := Base f in
       let '(exists_, err) := CheckFileExists env cmsClient fileName in
       let events :=
         match err with
         | Some msg => if verbose then (events ++ [CheckWarning fileName msg])%list else events
         | None => events
         end in
       (if exists_ then (existing ++ [fileName])%list else existing, events))
    files ([], []).

(** The list of at most ten files.  [info, _ := os.Stat(f)] leaves [info]
    nil when the call fails, and [info.Size()] panics then: [false]. *)
Fixpoint fileLines (stat : string -> StatResult) (i n : Z) (files : list string)
  : list Event * bool :=
  match files with
  | [] => ([], true)
  | f :: rest =>
      if 10 <=? i then ([MoreFiles (n - 10)], true)
      else
        match stat f with
        | StatOk info =>
            let '(events, ok) := fileLines stat (i + 1) n rest in
            (FileLine (i + 1) (Base f) (Size info) :: events, ok)
        | StatErr _ _ => ([], false)
        end
  end.

Fixpoint existingLines (i n : Z) (existing : list string) : list Event :=
  match existing with
  | [] => []
  | f :: rest =>
      if 5 <=? i then [MoreExisting (n - 5)]
      else ExistingLine f :: existingLines (i + 1) n rest
  end.

Definition batchMethodRequired : string :=
  "--method flag is required (must be 'graphql' or 'cms')".

(** [runBatch], up to the call of [uploadFilesWithConcurrency]; [root] is
    what the file system shows at the directory, [askConfirmation] the
    answer of the user. *)
Definition runBatch (fs : Vtexcli.Files) (env : Env) (root : Directory)
    (askConfirmation : string -> bool) (f : Flags) (directory : string)
  : Plan * list Event :=
  (* validate method is specified *)
  if String.eqb (batchMethod f) EmptyString then (Return (Some batchMethodRequired), [])
  (* validate method value *)
  else if (negb (String.eqb (batchMethod f) "graphql")
           && negb (String.eqb (batchMethod f) "cms"))%bool then
    (Return (Some ("invalid method: " ++ batchMethod f
                   ++ " (must be 'graphql' or 'cms')")), [])
  else
  (* load VTEX CLI session *)
  match Vtexcli.LoadSession fs with
  | Err err => (Return (Some err), [])
  | Ok session =>
  (* validate token before proceeding *)
  match Vtexcli.ValidateToken session with
  | Some err =>
      (Return (Some ("authentication failed: " ++ err
                     ++ ". Please run 'vtex login' and try again")), [])
  | None =>
  (* find all image files *)
  match findImageFiles root directory (recursive f) with
  | Err err => (Return (Some ("failed to find files: " ++ err)), [])
  | Ok files =>
  if (List.length files =? 0)%nat then (Return None, [NoImageFiles directory])
  else
  (* calculate total size *)
  let total := totalSize (os_Stat env) files in
  (* create authenticator (needed for both checking and uploading) *)
  let authenticator := NewAuthenticator (Vtexcli.Token session) in
  (* check which files already exist (only for CMS method) *)
  let '(existing, events) :=
    if String.eqb (batchMethod f) "cms" then
      existingFiles env
        (NewCMSFilePickerClient (Vtexcli.Account session) (Vtexcli.Workspace session)
           authenticator (verbose f))
        (verbose f) files
    else ([], []) in
  (* print upload info *)
  let events :=
    (events ++ [BatchInfo session (batchMethod f) directory
                  (Z.of_nat (List.length files)) total (concurrency f)])%list in
  (* show file list (max 10 files) *)
  let '(lines, ok) := fileLines (os_Stat env) 0 (Z.of_nat (List.length files)) files in
  let events := (events ++ lines)%list in
  if negb ok then (Panic, events)
  else
  (* show warning if files already exist *)
  let n := Z.of_nat (List.length existing) in
  let events :=
    if 0 <? n then (events ++ OverwriteWarning n :: existingLines 0 n existing)%list
    else events in
  let call :=
    {| c_env := env;
       c_account := Vtexcli.Account session;
       c_workspace := Vtexcli.Workspace session;
       c_authenticator := authenticator;
       c_files := files;
       c_concurrency := concurrency f;
       c_method := batchMethod f;
       c_verbose := verbose f |} in
  (* ask for confirmation unless --yes flag is set *)
  if negb (batchSkipConfirm f) then
    let promptMsg :=
      if 0 <? n then itoa n ++ " file(s) will be overwritten. Continue?"
      else "Proceed with upload?" in
    if negb (askConfirmation promptMsg) then
      (Return None, events ++ [Asked promptMsg false; Cancelled])%list
    else (Run call, events ++ [Asked promptMsg true])%list
  else (Run call, events)
  end end end.

End Batch.

(** ** [cmd/logs.go]: the history of the uploads *)

Module Logs.

(** The flags of the command. *)
Record Flags := {
  logsLimit : Z;
  logsStatus : string;
  logsMethod : string;
  logsClear : bool }.

Definition filterEntries (entries : list Logger.UploadLogEntry) (status method : string)
  : list Logger.UploadLogEntry :=
  fold_left
    (fun filtered entry =>
       (* filter by status *)
       if (negb (String.eqb status EmptyString)
           && negb (String.eqb (Logger.Status entry) status))%bool then filtered
       (* filter by method *)
       else if (negb (String.eqb method EmptyString)
                && negb (String.eqb (Logger.Method entry) method))%bool then filtered
       else (filtered ++ [entry])%list)
    entries [].

(** [printLogsSummary]: the numbers it counts, which are the ones it
    prints. *)
Record Summary := {
  total : Z;
  successCount : Z;
  failedCount : Z;
  cmsCount : Z;
  graphqlCount : Z }.

Definition printLogsSummary (entries : list Logger.UploadLogEntry) : Summary :=
  fold_left
    (fun s entry =>
       let '(successCount, failedCount) :=
         if String.eqb (Logger.Status entry) "success"
         then (successCount s + 1, failedCount s)
         else (successCount s, failedCount s + 1) in
       let '(cmsCount, graphqlCount) :=
         if String.eqb (Logger.Method entry) "cms" then (cmsCount s + 1, graphqlCount s)
         else if String.eqb (Logger.Method entry) "graphql"
         then (cmsCount s, graphqlCount s + 1)
         else (cmsCount s, graphqlCount s) in
       {| total := total s; successCount := successCount; failedCount := failedCount;
          cmsCount := cmsCount; graphqlCount := graphqlCount |})
    entries
    {| total := Z.of_nat (List.length entries); successCount := 0; failedCount := 0;
       cmsCount := 0; graphqlCount := 0 |}.

(** What the command shows. *)
Inductive Shown :=
| NoLogs                                   (* No upload logs found. *)
| NoMatch (totalEntries : Z)               (* No entries match the specified filters. *)
| Listing (displayEntries : list Logger.UploadLogEntry)
          (totalEntries : Z) (filtered : bool) (summary : Summary)
| NothingToClear                           (* No logs to clear. *)
| Asked (totalEntries : Z) (answer : bool) (* the warning and the question *)
| Cleared.                                 (* Logs cleared successfully! *)

(** [clearLogsWithConfirmation]; [askConfirmation] is the answer of the
    user to the question. *)
Definition clearLogsWithConfirmation (d : Logger.Disk) (remove_err : error)
    (askConfirmation : string -> bool) (st : Logger.State)
  : (error * list Shown) * Logger.State :=
  (* read current logs to show count *)
  match Logger.ReadLogs d st with
  | (_, Some err) => ((Some ("failed to read logs: " ++ err), []), st)
  | (entries, None) =>
      if (List.length entries =? 0)%nat then ((None, [NothingToClear]), st)
      else
        let total := Z.of_nat (List.length entries) in
        if negb (askConfirmation "Are you sure you want to clear all logs?") then
          ((None, [Asked total false]), st)
        else
          match Logger.ClearLogs remove_err st with
          | (Some err, st') =>
              ((Some ("failed to clear logs: " ++ err), [Asked total true]), st')
          | (None, st') => ((None, [Asked total true; Cleared]), st')
          end
  end.

Definition runLogs (d : Logger.Disk) (remove_err : error)
    (askConfirmation : string -> bool) (f : Flags) (st : Logger.State)
  : (error * list Shown) * Logger.State :=
  (* handle --clear flag *)
  if logsClear f then clearLogsWithConfirmation d remove_err askConfirmation st
  else
    match Logger.GetLogPath d with
    | Some err => ((Some ("failed to get log path: " ++ err), []), st)
    | None =>
        (* read all logs *)
        match Logger.ReadLogs d st with
        | (_, Some err) => ((Some ("failed to read logs: " ++ err), []), st)
        | (entries, None) =>
            if (List.length entries =? 0)%nat then ((None, [NoLogs]), st)
            else
              (* apply filters *)
              let filteredEntries := filterEntries entries (logsStatus f) (logsMethod f) in
              if (List.length filteredEntries =? 0)%nat then
                ((None, [NoMatch (Z.of_nat (List.length entries))]), st)
              else
                (* apply limit (show most recent entries) *)
                let n := Z.of_nat (List.length filteredEntries) in
                let displayEntries :=
                  if ((0 <? logsLimit f) && (logsLimit f <? n))%bool
                  then skipn (Z.to_nat (n - logsLimit f)) filteredEntries
                  else filteredEntries in
                ((None,
                  [Listing displayEntries (Z.of_nat (List.length entries))
                     (negb (String.eqb (logsStatus f) EmptyString)
                      || negb (String.eqb (logsMethod f) EmptyString))%bool
                     (printLogsSummary filteredEntries)]), st)
        end
    end.

End Logs.

(** ** [cmd/upload.go]: the upload of one file *)

Module Upload.

(** The flags of the command. *)
Record Flags := { uploadMethod : string; skipConfirm : bool; verbose : bool }.

(** What the command shows and asks. *)
Inductive Event :=
| CheckWarning (msg : string)             (* Could not check if file exists *)
| UploadInfo (session : Vtexcli.VTEXSession) (method fileName : string)
             (size : Z) (destURL : string)
| OverwriteWarning                        (* File already exists and will be OVERWRITTEN! *)
| Asked (prompt : string) (answer : bool)
| Cancelled                               (* Upload cancelled. *)
| UploadFailed (msg : string)
| UploadSuccessful (fileURL : string).

Definition methodRequired : string :=
  "--method flag is required (must be 'graphql' or 'cms')".

(** The call of [UploadFile] at the end of [runUpload] and what is made
    of its result. *)
Definition upload (env : Env) (f : Flags) (session : Vtexcli.VTEXSession)
    (authenticator : Authenticator) (filePath : string)
    (events : list Event) (st : Logger.State)
  : (error * list Event) * Logger.State :=
  let '((result, err), st') :=
    if String.eqb (uploadMethod f) "cms" then
      CMS_UploadFile env
        (NewCMSFilePickerClient (Vtexcli.Account session) (Vtexcli.Workspace session)
           authenticator (verbose f))
        filePath true st
    else
      GraphQL_UploadFile env
        (NewGraphQLClient (Vtexcli.Account session) (Vtexcli.Workspace session)
           authenticator (verbose f))
        filePath true st in
  match err with
  | Some msg => ((Some msg, events ++ [UploadFailed msg])%list, st')
  | None => ((None, events ++ [UploadSuccessful (FileURL result)])%list, st')
  end.

Definition runUpload (fs : Vtexcli.Files) (env : Env) (askConfirmation : string -> bool)
    (f : Flags) (filePath : string) (st : Logger.State)
  : (error * list Event) * Logger.State :=
  (* validate method is specified *)
  if String.eqb (uploadMethod f) EmptyString then ((Some methodRequired, []), st)
  (* validate method value *)
  else if (negb (String.eqb (uploadMethod f) "graphql")
           && negb (String.eqb (uploadMethod f) "cms"))%bool then
    ((Some ("invalid method: " ++ uploadMethod f ++ " (must be 'graphql' or 'cms')"), []), st)
  else
  (* load VTEX CLI session *)
  match Vtexcli.LoadSession fs with
  | Err err => ((Some err, []), st)
  | Ok session =>
  (* validate token before proceeding *)
  match Vtexcli.ValidateToken session with
  | Some err =>
      ((Some ("authentication failed: " ++ err
              ++ ". Please run 'vtex login' and try again"), []), st)
  | None =>
  let authenticator := NewAuthenticator (Vtexcli.Token session) in
  (* get file info for display *)
  match os_Stat env filePath with
  | StatErr _ err => ((Some ("failed to access file: " ++ err), []), st)
  | StatOk fileInfo =>
  (* build destination URL *)
  let fileName := Base filePath in
  let destURL :=
    if String.eqb (uploadMethod f) "cms" then
      "https://" ++ Vtexcli.Account session ++ ".vtexassets.com/arquivos/"
      ++ PathEscape fileName
    else "https://" ++ Vtexcli.Account session ++ ".vtexassets.com/assets/.../[generated]" in
  (* check if file exists (only for CMS method) *)
  let '(fileExists, events) :=
    if String.eqb (uploadMethod f) "cms" then
      let cmsClient :=
        NewCMSFilePickerClient (Vtexcli.Account session) (Vtexcli.Workspace session)
          authenticator (verbose f) in
      match CheckFileExists env cmsClient fileName with
      | (exists_, Some err) => (exists_, if verbose f then [CheckWarning err] else [])
      | (exists_, None) => (exists_, [])
      end
    else (false, []) in
  let events :=
    (events ++ [UploadInfo session (uploadMethod f) fileName (Size fileInfo) destURL]
     ++ (if fileExists then [OverwriteWarning] else []))%list in
  (* ask for confirmation unless --yes flag is set *)
  if negb (skipConfirm f) then
    let promptMsg := if fileExists then "File exists. Overwrite?" else "Proceed with upload?" in
    if negb (askConfirmation promptMsg) then
      ((None, events ++ [Asked promptMsg false; Cancelled])%list, st)
    else upload env f session authenticator filePath (events ++ [Asked promptMsg true])%list st
  else upload env f session authenticator filePath events st
  end end end.

End Upload.


(** * What the properties speak of *)

(** ** Validation *)





(** ** Uploads *)

(** The surroundings with another log disk. *)
Definition withDisk (env : Env) (d : Logger.Disk) : Env :=
  {| os_Stat := os_Stat env; os_Open := os_Open env;
     http_NewRequest := http_NewRequest env; http_Do := http_Do env;
     buffer_err := buffer_err env; regexp_FindSubmatch := regexp_FindSubmatch env;
     json_error := json_error env; disk := d |}.

(** The state after a reading of the clock. *)
Definition tick (st : Logger.State) : Logger.State :=
  {| Logger.LogFile := Logger.LogFile st; Logger.Clock := S (Logger.Clock st) |}.

(** What every call of [UploadFile] on [filePath] returns. *)
Definition result_invariant (filePath : string) (out : UploadResult * error) : Prop :=
  FileName (fst out) = Base filePath
  /\ (snd out = None <-> Success (fst out) = true)
  /\ (Success (fst out) = true ->
        FileURL (fst out) <> EmptyString /\ Error (fst out) = None)
  /\ (Success (fst out) = false ->
        Error (fst out) <> None /\ Error (fst out) = snd out).

(** The log [st'] is the log [st] with one more line, an entry of the
    given status. *)
Definition records_one_entry (st st' : Logger.State) (status : string) : Prop :=
  exists entry data,
    Logger.Status entry = status
    /\ Logger.Marshal entry = Ok data
    /\ Logger.LogFile st' = Some (Logger.content st ++ data ++ Logger.newline).

(** The entry that an upload of [filePath] by the method [method] hands to
    [LogUpload] describes the result [r]. *)
Definition entry_describes (entry : Logger.UploadLogEntry) (method account workspace : string)
    (filePath : string) (info : FileInfo) (now : Time) (r : UploadResult) : Prop :=
  Logger.Timestamp entry = now
  /\ Logger.File entry = FileName r
  /\ Logger.Path entry = filePath
  /\ Logger.Size entry = Size info
  /\ Logger.Method entry = method
  /\ Logger.Account entry = account
  /\ Logger.Workspace entry = workspace
  /\ Logger.Status entry = (if Success r then "success" else "failed")
  /\ Logger.URL entry = FileURL r
  /\ Error r = (if Success r then None else Some (Logger.Error entry)).

(** *** A session for the examples: the account [acme], whose server
    answers every upload with the given response. *)
Definition acme_time (n : nat) : Time :=
  {| Year := 2025; Month := 10; Day := 23; Hour := 9; Minute := 5;
     Second := Z.of_nat n mod 60; Nanosecond := 120000000; Offset := -180 |}.

Definition acme_disk : Logger.Disk :=
  {| Logger.StateFile_err := None; Logger.OpenFile_err := None;
     Logger.Write_err := None; Logger.Open_err := None;
     Logger.time_Now := acme_time |}.

Definition tokenPage : string :=
  "<input type=hidden id=" ++ quoted "fileUploadRequestToken"
  ++ " value=" ++ quoted "t0k3n" ++ " />".

Definition isSuffixOf (suffix s : string) : bool :=
  let n := String.length suffix in
  String.eqb (substring (String.length s - n) n s) suffix.

(** The server: the token page, and [upload] for any other request. *)
Definition acme_server (upload : RoundTrip) (req : Request) : RoundTrip :=
  if isSuffixOf "AddFile?fileType=images" (ReqURL req)
  then Client.Received {| StatusCode := 200; RespBody := tokenPage |}
  else upload.

(** The file system: the listed files, each of 10 KB. *)
Definition acme_stat (files : list string) (path : string) : StatResult :=
  if existsb (String.eqb path) files
  then StatOk {| Size := 10240; IsDir := false |}
  else StatErr true ("stat " ++ path ++ ": no such file or directory").

Definition acme_open (files : list string) (path : string) : result OpenedFile :=
  if existsb (String.eqb path) files
  then Ok {| file_Stat := Ok {| Size := 10240; IsDir := false |};
             file_Read := Ok "(image data)" |}
  else Err ("open " ++ path ++ ": no such file or directory").

Definition acme_env (files : list string) (upload : RoundTrip) : Env :=
  {| os_Stat := acme_stat files;
     os_Open := acme_open files;
     http_NewRequest := fun _ _ => None;
     http_Do := acme_server upload;
     buffer_err := fun _ => None;
     regexp_FindSubmatch := fun _ body =>
       if String.eqb body tokenPage
       then ["id=" ++ quoted "fileUploadRequestToken" ++ " value=" ++ quoted "t0k3n"; "t0k3n"]
       else [];
     json_error := fun _ => "invalid character";
     disk := acme_disk |}.

Definition acme_auth : Authenticator := {| token := "eyJhbGciOi" |}.
Definition acme_cms : CMSFilePickerClient := NewCMSFilePickerClient "acme" "master" acme_auth false.
Definition acme_gql : GraphQLClient := NewGraphQLClient "acme" "master" acme_auth false.

Definition emptyLog : Logger.State := {| Logger.LogFile := None; Logger.Clock := 0 |}.

(** The answer of the FilePicker to an upload that it stored as [name]. *)
Definition inserted (name : string) : RoundTrip :=
  Client.Received
    {| StatusCode := 200;
       RespBody := "{" ++ quoted "fileNameInserted" ++ ":" ++ quoted name ++ ","
                   ++ quoted "mensagem" ++ ":" ++ quoted "Arquivo inserido" ++ "}" |}.

Definition status_only (status : Z) (body : string) : RoundTrip :=
  Client.Received {| StatusCode := status; RespBody := body |}.

(** ** Discovery *)

(** The directory [images]: two pictures, one of them with its extension
    in upper case, and a directory below. *)
Definition images : Batch.Directory :=
  {| Batch.os_ReadDir :=
       Ok [ {| Batch.EntryName := "LOGO.PNG"; Batch.EntryIsDir := false |};
            {| Batch.EntryName := "banner.jpg"; Batch.EntryIsDir := false |};
            {| Batch.EntryName := "notes.md"; Batch.EntryIsDir := false |};
            {| Batch.EntryName := "old"; Batch.EntryIsDir := true |} ];
     Batch.os_Lstat :=
       Ok (Batch.DirNode "images" None
             [ Batch.FileNode "LOGO.PNG"; Batch.FileNode "banner.jpg";
               Batch.FileNode "notes.md";
               Batch.DirNode "old" None [Batch.FileNode "x.GIF"; Batch.FileNode "y.gif"] ]) |}.

(** The entry that [LogUpload] writes: stamped with the time of the clock
    when it comes without a time. *)
Definition stamped (d : Logger.Disk) (st : Logger.State) (e : Logger.UploadLogEntry)
  : Logger.UploadLogEntry :=
  if IsZero (Logger.Timestamp e) then
    {| Logger.Timestamp := Logger.time_Now d (Logger.Clock st);
       Logger.File := Logger.File e; Logger.Path := Logger.Path e;
       Logger.Size := Logger.Size e; Logger.Method := Logger.Method e;
       Logger.Account := Logger.Account e; Logger.Workspace := Logger.Workspace e;
       Logger.Status := Logger.Status e; Logger.URL := Logger.URL e;
       Logger.Error := Logger.Error e |}
  else e.

(** Every byte of the string is one that [PathEscape] leaves as it is. *)
Definition unreserved (s : string) : Prop :=
  Forall (fun c => shouldEscape c = false) (bytes s).

(** ** The worker pool *)

(** The files that the main goroutine has still to send. *)
Definition pending (a : Batch.Call) (m : Batch.Main) : list string :=
  match m with
  | Batch.Starting _ => Batch.c_files a
  | Batch.Sending l => l
  | Batch.Waiting | Batch.Returned => []
  end.

(** The name under which a worker's file will appear in the results. *)
Definition worker_names (w : Batch.Worker) : list string :=
  match w with
  | Batch.Holding filePath => [Base filePath]
  | Batch.Uploaded r => [FileName r]
  | Batch.Receiving | Batch.Exited => []
  end.

(** The names of all the files of the call, wherever they are in the pool. *)
Definition names (a : Batch.Call) (p : Batch.Pool) : list string :=
  (map Base (pending a (Batch.main p)) ++ map Base (Batch.fileChan p)
   ++ flat_map worker_names (Batch.workers p) ++ map FileName (Batch.results p))%list.

(** A result is the outcome of the upload of one of the files. *)
Definition outcome (a : Batch.Call) (r : UploadResult) : Prop :=
  exists filePath st,
    In filePath (Batch.c_files a) /\ r = fst (fst (Batch.uploadFunc a filePath st)).

Definition worker_ok (a : Batch.Call) (w : Batch.Worker) : Prop :=
  match w with
  | Batch.Holding filePath => In filePath (Batch.c_files a)
  | Batch.Uploaded r => outcome a r
  | Batch.Receiving | Batch.Exited => True
  end.

(** What holds of every pool that a call reaches. *)
Record invariant (a : Batch.Call) (p : Batch.Pool) : Prop := {
  inv_names :
    forall x, count_occ string_dec (names a p) x
              = count_occ string_dec (map Base (Batch.c_files a)) x;
  inv_closed :
    Batch.closed p = true <-> (Batch.main p = Batch.Waiting \/ Batch.main p = Batch.Returned);
  inv_exited :
    In Batch.Exited (Batch.workers p) -> Batch.fileChan p = [] /\ Batch.closed p = true;
  inv_started :
    match Batch.main p with
    | Batch.Starting k => List.length (Batch.workers p) = k
    | _ => ~ (Z.of_nat (List.length (Batch.workers p)) < Batch.c_concurrency a)
    end;
  inv_returned :
    Batch.main p = Batch.Returned -> Forall (eq Batch.Exited) (Batch.workers p);
  inv_files :
    forall f, In f (pending a (Batch.main p) ++ Batch.fileChan p)%list -> In f (Batch.c_files a);
  inv_workers : Forall (worker_ok a) (Batch.workers p);
  inv_results : Forall (outcome a) (Batch.results p) }.

(** A measure that every step lowers. *)
Definition worker_weight (w : Batch.Worker) : nat :=
  match w with
  | Batch.Exited => 0
  | Batch.Receiving => 1
  | Batch.Uploaded _ => 2
  | Batch.Holding _ => 3
  end.

Definition main_weight (a : Batch.Call) (m : Batch.Main) : nat :=
  match m with
  | Batch.Returned => 0
  | Batch.Waiting => 1
  | Batch.Sending l => 2 + 4 * List.length l
  | Batch.Starting k =>
      3 + 4 * List.length (Batch.c_files a) + 2 * (Z.to_nat (Batch.c_concurrency a) - k)
  end%nat.

Definition weight (a : Batch.Call) (p : Batch.Pool) : nat :=
  (main_weight a (Batch.main p)
   + list_sum (map worker_weight (Batch.workers p))
   + 3 * List.length (Batch.fileChan p))%nat.

(** A batch of three files, the second of which does not exist. *)
Definition acme_batch (concurrency : Z) : Batch.Call :=
  {| Batch.c_env := acme_env ["a.png"; "c.png"] (inserted "a.png");
     Batch.c_account := "acme"; Batch.c_workspace := "master";
     Batch.c_authenticator := acme_auth;
     Batch.c_files := ["a.png"; "b.png"; "c.png"];
     Batch.c_concurrency := concurrency;
     Batch.c_method := "cms"; Batch.c_verbose := false |}.

(** ** The log *)

Fixpoint replicate (n : nat) (c : ascii) : string :=
  match n with
  | O => EmptyString
  | S n' => String c (replicate n' c)
  end.

(** An error page of 64 KiB. *)
Definition errorPage : string := replicate 65536 "x".

(** The log after two uploads of [a.png]: the first is answered with the
    status 500 and the error page, the second is accepted. *)
Definition log_after_refusal : Logger.State :=
  snd (CMS_UploadFile (acme_env ["a.png"] (status_only 500 errorPage)) acme_cms
         "a.png" false emptyLog).

Definition log_after_success : Logger.State :=
  snd (CMS_UploadFile (acme_env ["a.png"] (inserted "a.png")) acme_cms
         "a.png" false log_after_refusal).

(** The lines of a log file the way the specification reads them: split at
    the line feeds, whatever their length. *)
Fixpoint lines (data cur : list ascii) : list (list ascii) :=
  match data with
  | [] => match cur with [] => [] | _ => [Logger.dropCR cur] end
  | c :: r =>
      if Ascii.eqb c (byte_of 10) then Logger.dropCR cur :: lines r []
      else lines r (c :: cur)
  end.

(** A log of three lines, the second of which is cut short. *)
Definition line_ok (file : string) : string :=
  "{" ++ quoted "timestamp" ++ ":" ++ quoted "2025-10-23T09:05:07Z" ++ ","
  ++ quoted "file" ++ ":" ++ quoted file ++ "," ++ quoted "size" ++ ":10240,"
  ++ quoted "method" ++ ":" ++ quoted "cms" ++ "," ++ quoted "status" ++ ":"
  ++ quoted "success" ++ "}".

Definition corrupted_log : Logger.State :=
  {| Logger.LogFile :=
       Some (line_ok "a.png" ++ Logger.newline
             ++ "{" ++ quoted "timestamp" ++ ":" ++ quoted "2025-10" ++ Logger.newline
             ++ line_ok "b.png" ++ Logger.newline);
     Logger.Clock := 0 |}.

(** ** What the log can hold *)

Local Close Scope string_scope.

Local Open Scope N_scope.

(** A sequence of two to four bytes that [DecodeRune] accepts. *)
Definition multibyte (chunk : list ascii) (c : N) : Prop :=
  EncodeRune c = chunk
  /\ Forall (fun b => 128 <= byteN b) chunk
  /\ (2 <= List.length chunk <= 4)%nat
  /\ forall tail, DecodeRune (chunk ++ tail) = (c, List.length chunk).

(** Chunks that the scanner of string literals reads through. *)
Definition scannable (X : list ascii) : Prop :=
  forall s, scan_string (X ++ s) = consumed X (scan_string s).

Definition ascii_chunk (b : ascii) : list ascii :=
  if htmlSafe (byteN b) then [b] else escape_ascii (byteN b).

Local Close Scope N_scope.

(** Bytes that a string literal holds as they are. *)
Definition plain (c : ascii) : Prop :=
  Ascii.eqb c dquote = false /\ Ascii.eqb c backslash = false /\ (byteN c <? 32)%N = false.

Definition zone_head (c : ascii) : Prop :=
  isDigit c = false /\ Ascii.eqb c "." = false /\ plain c.


(** What follows the value of a member of an object. *)
Definition number_end (c : ascii) : Prop := c = ","%char \/ c = "}"%char.

(** A member of a JSON object as [Marshal] writes it: the key, the text of
    the value and the value that the text stands for. *)
Definition Member : Type := (string * list ascii * JValue)%type.

Definition member_text (m : Member) : list ascii :=
  let '(key, txt, _) := m in (dquote :: bytes key ++ dquote :: ":"%char :: txt)%list.

Definition member_value (m : Member) : list ascii * JValue :=
  let '(key, _, v) := m in (bytes key, v).

Fixpoint render (ms : list Member) : list ascii :=
  match ms with
  | [] => []
  | [m] => member_text m
  | m :: ms' => (member_text m ++ ","%char :: render ms')%list
  end.

Definition quote_body (s : string) : list ascii :=
  appendString_loop (String.length s) (bytes s).

Definition string_member (key s : string) : Member :=
  (key, (dquote :: quote_body s ++ [dquote])%list, JString (quote_body s)).

Definition optional_member (key s : string) : list Member :=
  match s with
  | EmptyString => []
  | _ => [string_member key s]
  end.

Definition time_member (key : string) (t : Time) : Member :=
  (key, (dquote :: bytes (formatRFC3339 t) ++ [dquote])%list, JString (bytes (formatRFC3339 t))).

Definition int_member (key : string) (z : Z) : Member :=
  (key, bytes (itoa z), JNumber (bytes (itoa z))).

Definition entry_members (e : Logger.UploadLogEntry) : list Member :=
  ([time_member "timestamp" (Logger.Timestamp e); string_member "file" (Logger.File e)]
   ++ optional_member "path" (Logger.Path e)
   ++ [int_member "size" (Logger.Size e);
       string_member "method" (Logger.Method e);
       string_member "account" (Logger.Account e);
       string_member "workspace" (Logger.Workspace e);
       string_member "status" (Logger.Status e)]
   ++ optional_member "url" (Logger.URL e)
   ++ optional_member "error" (Logger.Error e))%list.

(** Bytes that are no control characters. *)
Definition printable (c : ascii) : Prop := (byteN c <? 32)%N = false.

(** What makes a member read back: its key is plain, its text is read as
    its value before a comma or a closing brace, and is printable. *)
Definition parses (m : Member) : Prop :=
  let '(key, txt, v) := m in
  Forall plain (bytes key)
  /\ Forall printable txt
  /\ forall fuel depth c rest,
       number_end c ->
       parse_value (S fuel) depth (txt ++ c :: rest) = Some (v, c :: rest).


Definition member_string (m : Member) : string := str (member_text m).

(** A log made of whole lines that the scanner can hold. *)
Definition log_complete (st : Logger.State) : Prop :=
  snd (Logger.scan (bytes (Logger.content st)) [] 0%N) = None
  /\ (Logger.content st = EmptyString
      \/ exists pre, Logger.content st = (pre ++ Logger.newline)%string).


(** An entry for a file whose name is written in Latin-1. *)
Definition latin1_entry : Logger.UploadLogEntry :=
  {| Logger.Timestamp := acme_time 0;
     Logger.File := (str [ "c"%char; "a"%char; "f"%char; Nbyte 233 ] ++ ".png")%string;
     Logger.Path := ("/srv/" ++ str [ "c"%char; "a"%char; "f"%char; Nbyte 233 ] ++ ".png")%string;
     Logger.Size := 10240; Logger.Method := "cms"; Logger.Account := "acme";
     Logger.Workspace := "master"; Logger.Status := "success";
     Logger.URL := "https://acme.vtexassets.com/arquivos/caf%E9.png";
     Logger.Error := EmptyString |}.

(** A log of one line, and an entry without a time stamp. *)
Definition one_line_log : Logger.State :=
  {| Logger.LogFile := Some (line_ok "a.png" ++ Logger.newline)%string; Logger.Clock := 1 |}.


(** The scanner stands at the start of a line when its input [old] is
    used up. *)
Definition complete (old cur : list ascii) : Prop :=
  (old = [] /\ cur = []) \/ exists pre, old = (pre ++ [byte_of 10])%list.

(** ** More of the program *)

(** *** The log as a history *)




(** A line without line feed and carriage return. *)
Definition one_line (l : list ascii) : Prop :=
  Forall (fun c => Ascii.eqb c (byte_of 10) = false /\ Ascii.eqb c (byte_of 13) = false) l.

(** The log file with the given content. *)
Definition logOf (c : string) (clock : nat) : Logger.State :=
  {| Logger.LogFile := Some c; Logger.Clock := clock |}.



(** A line whose time stamp has an hour of one digit and a comma before
    the fraction of the second.  [LogUpload] writes no such line, yet
    [json.Unmarshal] reads it, by the general parser of package [time]. *)
Definition loose_line : string :=
  ("{" ++ Logger.member "timestamp" (quoted "2025-10-23T9:05:00,5-03:00")
   ++ "," ++ Logger.member "file" (quoted "a.png") ++ "}")%string.

(** *** The command [logs] *)

(** The entries that the filters [status] and [method] let through; an
    empty filter lets every entry through. *)
Definition selected (status method : string) (e : Logger.UploadLogEntry) : bool :=
  (String.eqb status EmptyString || String.eqb (Logger.Status e) status)
  && (String.eqb method EmptyString || String.eqb (Logger.Method e) method).

(** The number of the entries with a property. *)
Definition count (p : Logger.UploadLogEntry -> bool) (es : list Logger.UploadLogEntry) : Z :=
  Z.of_nat (List.length (filter p es)).

Definition clearQuestion : string := "Are you sure you want to clear all logs?".

(** *** The requests of the FilePicker *)

Definition octetStream : string := "application/octet-stream".

(** The page of the admin from which [getRequestToken] takes the token,
    and the request for it. *)
Definition tokenPageURL (c : CMSFilePickerClient) : string :=
  ("https://" ++ account c
   ++ ".vtexcommercestable.com.br/admin/a/PortalManagement/AddFile?fileType=images")%string.

Definition tokenPageRequest (c : CMSFilePickerClient) : Request :=
  {| ReqMethod := "POST"; ReqURL := tokenPageURL c;
     ReqHeader := AddAuthHeaders (authenticator c) []; ReqBody := [] |}.

(** What [getRequestToken] makes of a status outside 200..299. *)
Definition tokenPageError (resp : Response) : string :=
  if (StatusCode resp =? 401) || (StatusCode resp =? 403) then
    ("authentication failed (HTTP " ++ itoa (StatusCode resp) ++ "): " ++ sessionExpired)%string
  else if StatusCode resp =? 302 then
    ("authentication failed (redirect): " ++ sessionExpired)%string
  else
    ("failed to fetch upload page with status " ++ itoa (StatusCode resp) ++ ": "
     ++ RespBody resp)%string.

(** The account [acme] when its session has expired: every request is
    answered with a redirection to the login page. *)
Definition expired_env : Env :=
  {| os_Stat := acme_stat ["a.png"%string];
     os_Open := acme_open ["a.png"%string];
     http_NewRequest := fun _ _ => None;
     http_Do := fun _ => status_only 302 EmptyString;
     buffer_err := fun _ => None;
     regexp_FindSubmatch := fun _ _ => [];
     json_error := fun _ => "invalid character"%string;
     disk := acme_disk |}.

(** The value of a hexadecimal digit in upper case. *)
Definition unhex (c : ascii) : nat :=
  if in_range 48 57 c then (code c - 48)%nat else (code c - 55)%nat.

(** The bytes that a path segment of a URL is made of once it is escaped:
    letters, digits, the marks that [PathEscape] leaves as they are, and
    the per cent sign of the escapes. *)
Definition url_safe (c : ascii) : bool :=
  (is_alnum c || one_of "-_.~$&+=:@%" c)%bool.

(** The address under which the FilePicker publishes the files of an
    account. *)
Definition arquivos (c : CMSFilePickerClient) : string :=
  ("https://" ++ account c ++ ".vtexassets.com/arquivos/")%string.

(** A byte of a name that JSON writes as it is: ASCII, no control byte,
    no double quote and no backslash. *)
Definition simple (c : ascii) : Prop := plain c /\ (byteN c <? 128)%N = true.

(** The JSON object whose members are the given strings, in that
    order. *)
Definition json_object (kvs : list (string * string)) : string :=
  str ("{"%char :: render (map (fun kv => string_member (fst kv) (snd kv)) kvs)
         ++ ["}"%char]).

(** Names and values that the object above carries as they are. *)
Definition json_strings (kvs : list (string * string)) : Prop :=
  kvs <> []
  /\ Forall (fun kv => Forall simple (bytes (fst kv)) /\ ValidString (snd kv) = true) kvs.

(** A server that answers every request with the status 500 and a JSON
    object that has [logo.png] among its names. *)
Definition listing_env : Env :=
  acme_env []
    (status_only 500
       (json_object [("banner.jpg", "banner.jpg"); ("logo.png", "logo.png")]%string)).

(** *** Pools of no worker and of one worker *)

(** The uploads of the files of a list, one after the other. *)
Fixpoint uploadAll (a : Batch.Call) (files : list string) (st : Logger.State)
  : list UploadResult * Logger.State :=
  match files with
  | [] => ([], st)
  | f :: rest =>
      let '(rs, st') := uploadAll a rest (snd (Batch.uploadFunc a f st)) in
      (fst (fst (Batch.uploadFunc a f st)) :: rs, st')
  end.

(** In a pool of one worker: the files that are still to be uploaded, in
    the order in which they will be, and the results of the uploads made. *)
Definition todo (a : Batch.Call) (p : Batch.Pool) : list string :=
  (match Batch.workers p with
   | [Batch.Holding f] => [f]
   | _ => []
   end ++ Batch.fileChan p ++ pending a (Batch.main p))%list.

Definition made (p : Batch.Pool) : list UploadResult :=
  (Batch.results p ++ match Batch.workers p with
                      | [Batch.Uploaded r] => [r]
                      | _ => []
                      end)%list.

(** What holds of every pool of one worker: the uploads made and the
    uploads to make are together the uploads of all the files in their
    order. *)
Definition sequential (a : Batch.Call) (st0 : Logger.State) (p : Batch.Pool) : Prop :=
  (List.length (Batch.workers p) <= 1)%nat
  /\ uploadAll a (Batch.c_files a) st0
     = ((made p ++ fst (uploadAll a (todo a p) (Batch.state p)))%list,
        snd (uploadAll a (todo a p) (Batch.state p))).

(** *** The summary of a batch *)

(** The results that are failures. *)
Definition failures (results : list UploadResult) : list UploadResult :=
  filter (fun r => negb (Success r)) results.

(** *** The search for the files *)

(** A tree all of whose directories can be read and all of whose entries
    can be inspected. *)
Fixpoint readable (n : Batch.Node) : bool :=
  match n with
  | Batch.FileNode _ => true
  | Batch.LostNode _ _ => false
  | Batch.DirNode _ (Some _) _ => false
  | Batch.DirNode _ None entries => forallb readable entries
  end.

(** The walk of the entries of a directory, which is the inner loop of
    [walk]. *)
Definition walkEntries (path : string)
  : list Batch.Node -> list string -> result (list string) :=
  fix walkEntries (es : list Batch.Node) (files : list string) {struct es}
    : result (list string) :=
    match es with
    | [] => Ok files
    | e :: es' =>
        match Batch.walk (Join path (Batch.Name e)) e files with
        | Ok files' => walkEntries es' files'
        | Err msg => Err msg
        end
    end.

(** The names that the entries of a directory can have. *)
Definition entry_name (name : string) : Prop :=
  name <> EmptyString /\ name <> "."%string /\ name <> ".."%string
  /\ Forall (fun c => IsPathSeparator c = false) (bytes name).

(** The entries that [findImageFiles] takes: what is no directory and has
    one of the valid extensions, as it is written. *)
Definition isImage (e : Batch.DirEntry) : bool :=
  negb (Batch.EntryIsDir e) && ValidExtensions (Ext (Batch.EntryName e)).

(** The two views of one directory that does not change agree: the entry
    that [os.ReadDir] returns has the name of the entry that
    [filepath.Walk] meets, and it is a directory exactly when [os.Lstat]
    shows one; of an entry that [os.Lstat] fails on nothing more is
    known. *)
Definition lists (d : Batch.DirEntry) (e : Batch.Node) : Prop :=
  Batch.EntryName d = Batch.Name e
  /\ match e with
     | Batch.FileNode _ => Batch.EntryIsDir d = false
     | Batch.DirNode _ _ _ => Batch.EntryIsDir d = true
     | Batch.LostNode _ _ => True
     end.

(** What the file system shows at a directory that [os.Lstat] finds to
    be a directory, not a link to one, with the entries [es], and that
    [os.ReadDir] lists as [listing]. *)
Definition directoryOf (name : string) (listing : list Batch.DirEntry) (es : list Batch.Node)
  : Batch.Directory :=
  {| Batch.os_ReadDir := Ok listing; Batch.os_Lstat := Ok (Batch.DirNode name None es) |}.

(** A directory that may be listed and not searched: [os.ReadDir] returns
    its entry, and [os.Lstat] fails on it. *)
Definition locked : Batch.Directory :=
  {| Batch.os_ReadDir := Ok [ {| Batch.EntryName := "a.png"; Batch.EntryIsDir := false |} ];
     Batch.os_Lstat :=
       Ok (Batch.DirNode "locked" None
             [Batch.LostNode "a.png" "lstat locked/a.png: permission denied"]) |}.

(** A symbolic link to a directory: [os.ReadDir] follows it, and
    [os.Lstat] shows what is no directory. *)
Definition linked : Batch.Directory :=
  {| Batch.os_ReadDir := Ok [ {| Batch.EntryName := "a.png"; Batch.EntryIsDir := false |} ];
     Batch.os_Lstat := Ok (Batch.FileNode "link") |}.

(** *** The session and the command [upload] *)

(** The home of a developer who is logged in to the account [acme]. *)
Definition acme_files : Vtexcli.Files :=
  {| Vtexcli.os_UserHomeDir := Ok "/home/dev"%string;
     Vtexcli.os_Stat := fun _ => StatOk {| Size := 4096; IsDir := true |};
     Vtexcli.os_ReadFile := fun path =>
       (if String.eqb path "/home/dev/.vtex/session/session.json" then
          Ok ("{" ++ quoted "account" ++ ":" ++ quoted "acme" ++ ","
              ++ quoted "login" ++ ":" ++ quoted "dev@acme.com" ++ ","
              ++ quoted "token" ++ ":" ++ quoted "eyJhbGciOi" ++ "}")
        else if String.eqb path "/home/dev/.vtex/session/workspace.json" then
          Ok ("{" ++ quoted "currentWorkspace" ++ ":" ++ quoted "master" ++ ","
              ++ quoted "lastWorkspace" ++ ":" ++ quoted "dev" ++ "}")
        else Err ("open " ++ path ++ ": no such file or directory"))%string;
     Vtexcli.json_error := fun _ => "unexpected end of JSON input"%string |}.

Definition acme_session : Vtexcli.VTEXSession :=
  {| Vtexcli.Account := "acme"; Vtexcli.Login := "dev@acme.com";
     Vtexcli.Token := "eyJhbGciOi"; Vtexcli.Workspace := "master" |}.

(** An upload was attempted: the command has shown its outcome. *)
Definition attempted (events : list Upload.Event) : Prop :=
  exists e, In e events
            /\ ((exists msg, e = Upload.UploadFailed msg)
                \/ (exists url, e = Upload.UploadSuccessful url)).

(** The client of the FilePicker that [runUpload] makes for a session. *)
Definition cmsClientOf (session : Vtexcli.VTEXSession) (verbose : bool)
  : CMSFilePickerClient :=
  NewCMSFilePickerClient (Vtexcli.Account session) (Vtexcli.Workspace session)
    (NewAuthenticator (Vtexcli.Token session)) verbose.

(** The call of [UploadFile] that [runUpload] makes for a session. *)
Definition uploadOf (env : Env) (f : Upload.Flags) (session : Vtexcli.VTEXSession)
    (filePath : string) (st : Logger.State) : (UploadResult * error) * Logger.State :=
  if String.eqb (Upload.uploadMethod f) "cms" then
    CMS_UploadFile env (cmsClientOf session (Upload.verbose f)) filePath true st
  else
    GraphQL_UploadFile env
      (NewGraphQLClient (Vtexcli.Account session) (Vtexcli.Workspace session)
         (NewAuthenticator (Vtexcli.Token session)) (Upload.verbose f))
      filePath true st.

(** The question that [runUpload] asks. *)
Definition questionOf (env : Env) (f : Upload.Flags) (session : Vtexcli.VTEXSession)
    (filePath : string) : string :=
  if (String.eqb (Upload.uploadMethod f) "cms"
      && fst (CheckFileExists env (cmsClientOf session (Upload.verbose f)) (Base filePath)))%bool
  then "File exists. Overwrite?"%string
  else "Proceed with upload?"%string.

(** The checks that [runUpload] makes before it turns to the file on the
    server: the method is one of the two, there is a session, its token
    is long enough, the file can be inspected. *)
Definition ready (fs : Vtexcli.Files) (env : Env) (f : Upload.Flags) (filePath : string)
    (session : Vtexcli.VTEXSession) (info : FileInfo) : Prop :=
  (Upload.uploadMethod f = "cms"%string \/ Upload.uploadMethod f = "graphql"%string)
  /\ Vtexcli.LoadSession fs = Ok session
  /\ Vtexcli.ValidateToken session = None
  /\ os_Stat env filePath = StatOk info.

(** The address that [runUpload] announces. *)
Definition destinationOf (f : Upload.Flags) (session : Vtexcli.VTEXSession)
    (filePath : string) : string :=
  if String.eqb (Upload.uploadMethod f) "cms" then
    ("https://" ++ Vtexcli.Account session ++ ".vtexassets.com/arquivos/"
     ++ PathEscape (Base filePath))%string
  else
    ("https://" ++ Vtexcli.Account session ++ ".vtexassets.com/assets/.../[generated]")%string.

(** What [runUpload] shows before it asks. *)
Definition shownFirst (env : Env) (f : Upload.Flags) (session : Vtexcli.VTEXSession)
    (info : FileInfo) (filePath : string) : list Upload.Event :=
  let check :=
    if String.eqb (Upload.uploadMethod f) "cms"
    then CheckFileExists env (cmsClientOf session (Upload.verbose f)) (Base filePath)
    else (false, None) in
  ((match snd check with
    | Some err => if Upload.verbose f then [Upload.CheckWarning err] else []
    | None => []
    end)
   ++ [Upload.UploadInfo session (Upload.uploadMethod f) (Base filePath) (Size info)
         (destinationOf f session filePath)]
   ++ (if fst check then [Upload.OverwriteWarning] else []))%list.

Definition is_outcome (e : Upload.Event) : bool :=
  match e with
  | Upload.UploadFailed _ | Upload.UploadSuccessful _ => true
  | _ => false
  end.

(** *** The command [batch] *)

(** The checks that [runBatch] makes before it looks at the files it has
    found: the method is one of the two, there is a session, its token is
    long enough, and the search returns files. *)
Definition found (fs : Vtexcli.Files) (root : Batch.Directory) (f : Batch.Flags)
    (directory : string) (session : Vtexcli.VTEXSession) (files : list string) : Prop :=
  (Batch.batchMethod f = "cms"%string \/ Batch.batchMethod f = "graphql"%string)
  /\ Vtexcli.LoadSession fs = Ok session
  /\ Vtexcli.ValidateToken session = None
  /\ Batch.findImageFiles root directory (Batch.recursive f) = Ok files
  /\ files <> [].

(** One of the first ten files cannot be inspected. *)
Definition vanished (stat : string -> StatResult) (files : list string) : Prop :=
  exists i p, (i < 10)%nat /\ nth_error files i = Some p
              /\ forall info, stat p <> StatOk info.

(** The arguments with which [runBatch] calls
    [uploadFilesWithConcurrency]. *)
Definition callOf (env : Env) (f : Batch.Flags) (session : Vtexcli.VTEXSession)
    (files : list string) : Batch.Call :=
  {| Batch.c_env := env;
     Batch.c_account := Vtexcli.Account session;
     Batch.c_workspace := Vtexcli.Workspace session;
     Batch.c_authenticator := NewAuthenticator (Vtexcli.Token session);
     Batch.c_files := files;
     Batch.c_concurrency := Batch.concurrency f;
     Batch.c_method := Batch.batchMethod f;
     Batch.c_verbose := Batch.verbose f |}.

(** A directory listing that is out of date: [gone.png] is listed and is
    no longer there. *)
Definition stale_images : Batch.Directory :=
  {| Batch.os_ReadDir :=
       Ok [ {| Batch.EntryName := "a.png"; Batch.EntryIsDir := false |};
            {| Batch.EntryName := "gone.png"; Batch.EntryIsDir := false |} ];
     Batch.os_Lstat :=
       Ok (Batch.DirNode "images" None [Batch.FileNode "a.png"; Batch.FileNode "gone.png"]) |}.

Definition batch_flags (method : string) (yes : bool) (workers : Z) : Batch.Flags :=
  {| Batch.concurrency := workers; Batch.recursive := false; Batch.batchMethod := method;
     Batch.batchSkipConfirm := yes; Batch.verbose := false |}.

Local Open Scope string_scope.
Local Open Scope Z_scope.

(** * Properties *)

(** ** Validation *)

Section Validation.

Variable stat : string -> StatResult.
Variable filePath : string.



End Validation.



(** ** Discovery *)

(** C3: [findImageFiles] looks the extension up as it is written, so that a
    file named [LOGO.PNG] is left out, in either mode, although its
    lower-cased extension is supported and [ValidateFile] accepts the
    file. *)
Theorem findImageFiles_skips_upper_case :
  Batch.findImageFiles images "images" false = Ok ["images/banner.jpg"]
  /\ Batch.findImageFiles images "images" true
     = Ok ["images/banner.jpg"; "images/old/y.gif"]
  /\ ValidExtensions (ToLower (Ext "images/LOGO.PNG")) = true
  /\ ValidateFile (acme_stat ["images/LOGO.PNG"]) "images/LOGO.PNG" = None.
Proof.
  repeat split; reflexivity.
Qed.

(** ** The result of an upload *)

Lemma uploadFilePicker_ok :
  forall env c body contentType fileName url,
    uploadFilePicker env c body contentType fileName = Ok url ->
    exists resp ins,
      http_Do env (filePickerRequest c body contentType) = Client.Received resp
      /\ is2xx (StatusCode resp) = true
      /\ UnmarshalFilePicker (RespBody resp) = Some ins
      /\ FileNameInserted ins <> EmptyString
      /\ url = "https://" ++ account c ++ ".vtexassets.com/arquivos/"
               ++ PathEscape (FileNameInserted ins).
Proof.
  intros env c body contentType fileName url H.
  unfold uploadFilePicker in H. cbv zeta in H.
  destruct (http_NewRequest env "POST" (filePickerEndpoint c)); [discriminate H|].
  destruct (http_Do env (filePickerRequest c body contentType)) as [m | m | resp];
    try discriminate H.
  unfold is2xx.
  destruct ((StatusCode resp <? 200) || (StatusCode resp >=? 300)) eqn:Hst.
  { destruct ((StatusCode resp =? 401) || (StatusCode resp =? 403)); discriminate H. }
  destruct (UnmarshalFilePicker (RespBody resp)) as [ins|] eqn:Hins; [|discriminate H].
  exists resp, ins.
  destruct (FileNameInserted ins) as [|ch name] eqn:Hname; [discriminate H|].
  inversion H; subst url. unfold is2xx. rewrite Hst.
  repeat split; try reflexivity; try assumption. discriminate.
Qed.

Lemma uploadGraphQL_ok :
  forall env c body contentType url,
    uploadGraphQL env c body contentType = Ok url -> url <> EmptyString.
Proof.
  intros env c body contentType url H.
  unfold uploadGraphQL in H. cbv zeta in H.
  destruct (http_NewRequest env "POST" (graphQLEndpoint c)); [discriminate H|].
  destruct (http_Do env (graphQLRequest c body contentType)) as [m | m | resp];
    try discriminate H.
  destruct ((StatusCode resp <? 200) || (StatusCode resp >=? 300)).
  { destruct ((StatusCode resp =? 401) || (StatusCode resp =? 403)); discriminate H. }
  destruct (UnmarshalGraphQL (RespBody resp)) as [g|]; [|discriminate H].
  destruct (Errors g); [|discriminate H].
  destruct (GqlFileURL (Data_UploadFile g)); [discriminate H|].
  inversion H. discriminate.
Qed.

Lemma failed_invariant :
  forall filePath msg, result_invariant filePath (failed (newResult filePath) msg).
Proof.
  intros filePath msg. unfold result_invariant, failed, newResult; simpl.
  split; [reflexivity|]. split; [split; intros Hx; discriminate Hx|].
  split; [intros Hx; discriminate Hx | intros _; split; [discriminate | reflexivity]].
Qed.

Lemma succeeded_invariant :
  forall filePath url,
    url <> EmptyString -> result_invariant filePath (succeeded (newResult filePath) url).
Proof.
  intros filePath url Hurl. unfold result_invariant, succeeded, newResult; simpl.
  split; [reflexivity|]. split; [split; reflexivity|].
  split; [intros _; split; [exact Hurl | reflexivity] | intros Hx; discriminate Hx].
Qed.

Lemma CMS_UploadFile_invariant :
  forall env cms filePath showProgress st,
    result_invariant filePath (fst (CMS_UploadFile env cms filePath showProgress st)).
Proof.
  intros. unfold CMS_UploadFile. cbv zeta.
  destruct (CMS_prepare env cms filePath) as [[info body] | msg]; simpl.
  - destruct (uploadFilePicker env cms body multipartContentType (Base filePath))
      as [url | msg] eqn:Hup; simpl.
    + apply succeeded_invariant.
      apply uploadFilePicker_ok in Hup.
      destruct Hup as (resp & ins & _ & _ & _ & _ & ->). discriminate.
    + apply failed_invariant.
  - apply failed_invariant.
Qed.

Lemma GraphQL_UploadFile_invariant :
  forall env gql filePath showProgress st,
    result_invariant filePath (fst (GraphQL_UploadFile env gql filePath showProgress st)).
Proof.
  intros. unfold GraphQL_UploadFile. cbv zeta.
  destruct (GraphQL_prepare env gql filePath) as [[info body] | msg]; simpl.
  - destruct (uploadGraphQL env gql body multipartContentType) as [url | msg] eqn:Hup; simpl.
    + apply succeeded_invariant. eapply uploadGraphQL_ok; eassumption.
    + apply failed_invariant.
  - apply failed_invariant.
Qed.

(** C10: whatever the surroundings, [UploadFile] of either client returns a
    result named after the base name of the path; its error is [nil]
    exactly when the result is a success; a success has a URL and no error,
    a failure has the error that is returned. *)
Theorem UploadFile_result :
  forall env cms gql filePath showProgress st,
    result_invariant filePath (fst (CMS_UploadFile env cms filePath showProgress st))
    /\ result_invariant filePath (fst (GraphQL_UploadFile env gql filePath showProgress st)).
Proof.
  intros. split.
  - apply CMS_UploadFile_invariant.
  - apply GraphQL_UploadFile_invariant.
Qed.

(** ** The upload and the log *)

Lemma CMS_prepare_withDisk :
  forall env d c filePath, CMS_prepare (withDisk env d) c filePath = CMS_prepare env c filePath.
Proof. reflexivity. Qed.

Lemma GraphQL_prepare_withDisk :
  forall env d c filePath,
    GraphQL_prepare (withDisk env d) c filePath = GraphQL_prepare env c filePath.
Proof. reflexivity. Qed.

(** C5: the result and the error that [UploadFile] returns do not depend on
    the log: not on its content, not on the clock, not on whether the
    append succeeds.  With any two log disks and any two states of the log
    the same call returns the same. *)
Theorem UploadFile_result_independent_of_log :
  forall env d1 d2 cms gql filePath showProgress st1 st2,
    fst (CMS_UploadFile (withDisk env d1) cms filePath showProgress st1)
    = fst (CMS_UploadFile (withDisk env d2) cms filePath showProgress st2)
    /\ fst (GraphQL_UploadFile (withDisk env d1) gql filePath showProgress st1)
       = fst (GraphQL_UploadFile (withDisk env d2) gql filePath showProgress st2).
Proof.
  intros. split.
  - unfold CMS_UploadFile. cbv zeta. rewrite !CMS_prepare_withDisk.
    destruct (CMS_prepare env cms filePath) as [[info body] | msg]; [|reflexivity].
    change (uploadFilePicker (withDisk env d1)) with (uploadFilePicker env).
    change (uploadFilePicker (withDisk env d2)) with (uploadFilePicker env).
    destruct (uploadFilePicker env cms body multipartContentType (Base filePath));
      reflexivity.
  - unfold GraphQL_UploadFile. cbv zeta. rewrite !GraphQL_prepare_withDisk.
    destruct (GraphQL_prepare env gql filePath) as [[info body] | msg]; [|reflexivity].
    change (uploadGraphQL (withDisk env d1)) with (uploadGraphQL env).
    change (uploadGraphQL (withDisk env d2)) with (uploadGraphQL env).
    destruct (uploadGraphQL env gql body multipartContentType); reflexivity.
Qed.

Lemma LogUpload_ok :
  forall d entry st,
    fst (Logger.LogUpload d entry st) = None ->
    exists data,
      Logger.Marshal (stamped d st entry) = Ok data
      /\ Logger.LogFile (snd (Logger.LogUpload d entry st))
         = Some (Logger.content st ++ data ++ Logger.newline).
Proof.
  intros d entry st H. unfold Logger.LogUpload in *. unfold stamped.
  destruct (Logger.StateFile_err d); [discriminate H|].
  destruct (Logger.OpenFile_err d); [discriminate H|].
  destruct (IsZero (Logger.Timestamp entry));
    cbv beta iota zeta delta [Logger.Clock Logger.LogFile Logger.content] in *.
  - match goal with
    | |- context [Logger.Marshal ?e] => destruct (Logger.Marshal e) as [data | msg]
    end; [|discriminate H].
    destruct (Logger.Write_err d) as [[n msg]|]; [discriminate H|].
    exists data. split; reflexivity.
  - destruct (Logger.Marshal entry) as [data | msg]; [|discriminate H].
    destruct (Logger.Write_err d) as [[n msg]|]; [discriminate H|].
    exists data. split; reflexivity.
Qed.

(** C4, as stated, fails: an upload of a file that does not exist ends in
    failure and leaves the log as it was. *)
Lemma CMS_UploadFile_missing_file_unlogged :
  let out := CMS_UploadFile (acme_env [] (inserted "missing.png")) acme_cms
               "missing.png" false emptyLog in
  Success (fst (fst out)) = false
  /\ snd out = emptyLog
  /\ ~ records_one_entry emptyLog (snd out) "failed".
Proof.
  cbv zeta. split; [reflexivity|]. split; [reflexivity|].
  intros (entry & data & _ & _ & H). discriminate H.
Qed.

(** C4 (amended): a call of the CMS [UploadFile] that gets as far as sending
    the upload hands one entry to [LogUpload] before it returns, be the
    upload accepted or refused: the entry carries the time of the call, the
    file, the method, the account and the workspace, the status of the
    result and its URL or its error; when the append succeeds the log file
    has gained this entry as one line.  A call that fails before (at the
    validation, the request token, the opening or the reading of the file,
    the writing of the form) returns without logging. *)
Theorem CMS_UploadFile_log :
  forall env c filePath showProgress st,
    let out := CMS_UploadFile env c filePath showProgress st in
    match CMS_prepare env c filePath with
    | Err msg => out = (failed (newResult filePath) msg, st)
    | Ok (info, _) =>
        exists entry,
          entry_describes entry "cms" (account c) (workspace c) filePath info
            (Logger.time_Now (disk env) (Logger.Clock st)) (fst (fst out))
          /\ snd out = snd (Logger.LogUpload (disk env) entry (tick st))
          /\ (fst (Logger.LogUpload (disk env) entry (tick st)) = None ->
              records_one_entry st (snd out)
                (if Success (fst (fst out)) then "success" else "failed"))
    end.
Proof.
  intros env c filePath showProgress st. cbv zeta.
  unfold CMS_UploadFile. cbv zeta.
  destruct (CMS_prepare env c filePath) as [[info body] | msg]; [|reflexivity].
  destruct (uploadFilePicker env c body multipartContentType (Base filePath))
    as [url | msg]; simpl; unfold logAttempt; cbv zeta.
  - match goal with
    | |- context [Logger.LogUpload _ ?e _] => exists e
    end.
    split; [repeat split|]. split; [reflexivity|].
    intros Hok. apply LogUpload_ok in Hok. destruct Hok as (data & Hm & Hf).
    eexists; exists data. split; [|split; [exact Hm | exact Hf]].
    unfold stamped. destruct (IsZero _); reflexivity.
  - match goal with
    | |- context [Logger.LogUpload _ ?e _] => exists e
    end.
    split; [repeat split|]. split; [reflexivity|].
    intros Hok. apply LogUpload_ok in Hok. destruct Hok as (data & Hm & Hf).
    eexists; exists data. split; [|split; [exact Hm | exact Hf]].
    unfold stamped. destruct (IsZero _); reflexivity.
Qed.

(** ** The URL of an upload by the FilePicker *)

Lemma PathEscape_app :
  forall a b, PathEscape (a ++ b) = PathEscape a ++ PathEscape b.
Proof.
  induction a as [|c a IH]; intros b; simpl; [reflexivity|].
  rewrite IH. destruct (shouldEscape c); reflexivity.
Qed.

Lemma PathEscape_unreserved :
  forall s, unreserved s -> PathEscape s = s.
Proof.
  unfold unreserved. induction s as [|c s IH]; simpl; intros H; [reflexivity|].
  inversion H as [|c' l Hc Hl]; subst. rewrite Hc, IH by assumption. reflexivity.
Qed.

(** C6: the URL of a successful upload by the FilePicker is
    [https://{account}.vtexassets.com/arquivos/] followed by the inserted
    file name of the response, path-escaped.  A space of the name becomes
    [%20]; a name made of letters, digits and [-_.~] only is kept as it
    is, [logo.png] for one. *)
Theorem CMS_UploadFile_url :
  forall env c filePath showProgress st,
    Success (fst (fst (CMS_UploadFile env c filePath showProgress st))) = true ->
    (exists body resp ins,
       http_Do env (filePickerRequest c body multipartContentType) = Client.Received resp
       /\ UnmarshalFilePicker (RespBody resp) = Some ins
       /\ FileNameInserted ins <> EmptyString
       /\ FileURL (fst (fst (CMS_UploadFile env c filePath showProgress st)))
          = "https://" ++ account c ++ ".vtexassets.com/arquivos/"
            ++ PathEscape (FileNameInserted ins))
    /\ (forall a b, PathEscape (a ++ " " ++ b) = PathEscape a ++ "%20" ++ PathEscape b)
    /\ (forall s, unreserved s -> PathEscape s = s)
    /\ PathEscape "my file.jpg" = "my%20file.jpg"
    /\ PathEscape "logo.png" = "logo.png".
Proof.
  intros env c filePath showProgress st Hs.
  split; [|split; [|split; [|split]]].
  - unfold CMS_UploadFile in *. cbv zeta in *.
    destruct (CMS_prepare env c filePath) as [[info body] | msg]; [|discriminate Hs].
    destruct (uploadFilePicker env c body multipartContentType (Base filePath))
      as [url | msg] eqn:Hup; [|discriminate Hs].
    apply uploadFilePicker_ok in Hup.
    destruct Hup as (resp & ins & Hdo & _ & Hins & Hne & ->).
    exists body, resp, ins. repeat split; assumption.
  - intros a b. rewrite PathEscape_app. reflexivity.
  - exact PathEscape_unreserved.
  - reflexivity.
  - reflexivity.
Qed.

Lemma CMS_UploadFile_url_witness :
  Success (fst (fst (CMS_UploadFile (acme_env ["photos/my file.jpg"] (inserted "my file.jpg"))
                       acme_cms "photos/my file.jpg" false emptyLog))) = true
  /\ (exists body resp ins,
        http_Do (acme_env ["photos/my file.jpg"] (inserted "my file.jpg"))
          (filePickerRequest acme_cms body multipartContentType) = Client.Received resp
        /\ UnmarshalFilePicker (RespBody resp) = Some ins
        /\ FileNameInserted ins <> EmptyString
        /\ FileURL (fst (fst (CMS_UploadFile
                                (acme_env ["photos/my file.jpg"] (inserted "my file.jpg"))
                                acme_cms "photos/my file.jpg" false emptyLog)))
           = "https://" ++ account acme_cms ++ ".vtexassets.com/arquivos/"
             ++ PathEscape (FileNameInserted ins)).
Proof.
  split; [reflexivity|].
  exact (proj1 (CMS_UploadFile_url
                  (acme_env ["photos/my file.jpg"] (inserted "my file.jpg"))
                  acme_cms "photos/my file.jpg" false emptyLog eq_refl)).
Defined.

(** The whole of the scenario: the upload of [photos/my file.jpg]. *)
Example upload_of_my_file :
  fst (CMS_UploadFile (acme_env ["photos/my file.jpg"] (inserted "my file.jpg"))
         acme_cms "photos/my file.jpg" false emptyLog)
  = ({| FileName := "my file.jpg";
        FileURL := "https://acme.vtexassets.com/arquivos/my%20file.jpg";
        Success := true; Error := None |}, None).
Proof. reflexivity. Qed.

(** ** The status of the response *)

(** C7: when the upload request of either client is answered with the status
    401 or 403, the error says that the authentication failed and that the
    session has expired; with any other status outside 200..299, the error
    says that the upload failed and gives the status and the body of the
    response. *)
Theorem upload_status_errors :
  forall env cms gql body contentType fileName resp,
    (http_NewRequest env "POST" (filePickerEndpoint cms) = None ->
     http_Do env (filePickerRequest cms body contentType) = Client.Received resp ->
     ((StatusCode resp = 401 \/ StatusCode resp = 403) ->
        uploadFilePicker env cms body contentType fileName
        = Err ("authentication failed (HTTP " ++ itoa (StatusCode resp) ++ "): "
               ++ sessionExpired))
     /\ ((StatusCode resp < 200 \/ 300 <= StatusCode resp) ->
         StatusCode resp <> 401 -> StatusCode resp <> 403 ->
        uploadFilePicker env cms body contentType fileName
        = Err ("upload failed with status " ++ itoa (StatusCode resp) ++ ": "
               ++ RespBody resp)))
    /\ (http_NewRequest env "POST" (graphQLEndpoint gql) = None ->
        http_Do env (graphQLRequest gql body contentType) = Client.Received resp ->
        ((StatusCode resp = 401 \/ StatusCode resp = 403) ->
           uploadGraphQL env gql body contentType
           = Err ("authentication failed (HTTP " ++ itoa (StatusCode resp) ++ "): "
                  ++ sessionExpired))
        /\ ((StatusCode resp < 200 \/ 300 <= StatusCode resp) ->
            StatusCode resp <> 401 -> StatusCode resp <> 403 ->
           uploadGraphQL env gql body contentType
           = Err ("upload failed with status " ++ itoa (StatusCode resp) ++ ": "
                  ++ RespBody resp))).
Proof.
  intros env cms gql body contentType fileName resp.
  split; intros Hreq Hdo; split.
  - intros Hst. unfold uploadFilePicker. cbv zeta. rewrite Hreq, Hdo.
    destruct Hst as [-> | ->]; reflexivity.
  - intros Hout H401 H403. unfold uploadFilePicker. cbv zeta. rewrite Hreq, Hdo.
    replace ((StatusCode resp <? 200) || (StatusCode resp >=? 300)) with true
      by (symmetry; apply orb_true_iff;
          destruct Hout; [left; apply Z.ltb_lt | right; apply Z.geb_le]; lia).
    replace ((StatusCode resp =? 401) || (StatusCode resp =? 403)) with false
      by (symmetry; apply orb_false_iff; split; apply Z.eqb_neq; assumption).
    reflexivity.
  - intros Hst. unfold uploadGraphQL. cbv zeta. rewrite Hreq, Hdo.
    destruct Hst as [-> | ->]; reflexivity.
  - intros Hout H401 H403. unfold uploadGraphQL. cbv zeta. rewrite Hreq, Hdo.
    replace ((StatusCode resp <? 200) || (StatusCode resp >=? 300)) with true
      by (symmetry; apply orb_true_iff;
          destruct Hout; [left; apply Z.ltb_lt | right; apply Z.geb_le]; lia).
    replace ((StatusCode resp =? 401) || (StatusCode resp =? 403)) with false
      by (symmetry; apply orb_false_iff; split; apply Z.eqb_neq; assumption).
    reflexivity.
Qed.

(** ** The worker pool *)

Section Pool.

Import Batch.

Variable a : Call.
Variable st0 : Logger.State.

Lemma uploadFunc_name :
  forall filePath st, FileName (fst (fst (uploadFunc a filePath st))) = Base filePath.
Proof.
  intros filePath st. unfold uploadFunc.
  destruct (String.eqb (c_method a) "cms").
  - apply CMS_UploadFile_invariant.
  - apply GraphQL_UploadFile_invariant.
Qed.

Lemma worker_at :
  forall (ws : list Worker) i w,
    nth_error ws i = Some w ->
    exists l1 l2, ws = (l1 ++ w :: l2)%list
                  /\ forall w', (firstn i ws ++ w' :: skipn (S i) ws = l1 ++ w' :: l2)%list.
Proof.
  intros ws i w H. apply nth_error_split in H. destruct H as (l1 & l2 & -> & <-).
  exists l1, l2. split; [reflexivity|]. intros w'.
  clear. induction l1 as [|x l1 IH]; simpl; [reflexivity|].
  f_equal. exact IH.
Qed.

Lemma all_exited_or_not :
  forall ws : list Worker,
    Forall (eq Exited) ws
    \/ exists i w, nth_error ws i = Some w /\ w <> Exited.
Proof.
  induction ws as [|w ws IH]; [left; constructor|].
  destruct w; try (right; exists 0%nat; eexists; split; [reflexivity | discriminate]).
  destruct IH as [IH | (i & w & Hi & Hw)].
  - left. constructor; [reflexivity | assumption].
  - right. exists (S i), w. split; assumption.
Qed.

Ltac count_names :=
  unfold names; simpl;
  repeat rewrite ?map_app, ?flat_map_app, ?count_occ_app; simpl;
  repeat rewrite ?map_app, ?flat_map_app, ?count_occ_app; simpl.

Ltac names_step Hn :=
  let x := fresh "x" in
  intros x; specialize (Hn x); revert Hn; unfold names; simpl;
  repeat match goal with
         | H : main _ = _ |- _ => rewrite H
         | H : fileChan _ = _ |- _ => rewrite H
         | H : workers _ = _ |- _ => rewrite H
         end;
  count_names;
  rewrite ?uploadFunc_name;
  repeat match goal with
         | |- context [string_dec ?u ?v] => destruct (string_dec u v)
         end; lia.

Lemma initial_invariant : invariant a (initial a st0).
Proof.
  constructor; simpl.
  - intros x. count_names. lia.
  - split; [discriminate | intros [H | H]; discriminate H].
  - intros [].
  - reflexivity.
  - discriminate.
  - intros f. rewrite app_nil_r. auto.
  - constructor.
  - constructor.
Qed.

Lemma step_invariant :
  forall p q, invariant a p -> step a p q -> invariant a q.
Proof.
  intros p q [Hn Hc He Hs Hr Hf Hw Hres] Hstep.
  destruct Hstep as
    [p k Hm Hlt | p k Hm Hge | p file rest Hm | p Hm | p Hm Hall
     | p i filePath rest Hi Hch | p i Hi Hch Hcl | p i filePath Hi | p i result Hi].
  - (* a worker is started *)
    rewrite Hm in *. constructor; simpl.
    + names_step Hn.
    + rewrite Hc. split; intros [H | H]; discriminate H.
    + intros Hin. apply in_app_or in Hin. destruct Hin as [Hin | [Hin | []]].
      * auto.
      * discriminate Hin.
    + rewrite length_app. simpl. lia.
    + discriminate.
    + exact Hf.
    + apply Forall_app. split; [assumption | repeat constructor].
    + assumption.
  - (* all the workers are started *)
    rewrite Hm in *. constructor; simpl.
    + names_step Hn.
    + rewrite Hc. split; intros [H | H]; discriminate H.
    + exact He.
    + subst k. exact Hge.
    + discriminate.
    + exact Hf.
    + assumption.
    + assumption.
  - (* a file is sent *)
    rewrite Hm in *. constructor; simpl.
    + names_step Hn.
    + rewrite Hc. split; intros [H | H]; discriminate H.
    + intros Hin. apply He in Hin. destruct Hin as [_ Hcl].
      apply Hc in Hcl. destruct Hcl as [H | H]; discriminate H.
    + exact Hs.
    + discriminate.
    + intros f Hin. apply Hf. simpl.
      apply in_app_or in Hin. destruct Hin as [Hin | Hin].
      * right. apply in_or_app. left. exact Hin.
      * apply in_app_or in Hin. destruct Hin as [Hin | [-> | []]].
        -- right. apply in_or_app. right. exact Hin.
        -- left. reflexivity.
    + assumption.
    + assumption.
  - (* the channel is closed *)
    rewrite Hm in *. constructor; simpl.
    + names_step Hn.
    + split; auto.
    + intros Hin. apply He in Hin. destruct Hin as [Hch _]. auto.
    + exact Hs.
    + discriminate.
    + exact Hf.
    + assumption.
    + assumption.
  - (* the call returns *)
    rewrite Hm in *. constructor; simpl.
    + names_step Hn.
    + rewrite Hc. split; auto.
    + exact He.
    + exact Hs.
    + intros _. exact Hall.
    + exact Hf.
    + assumption.
    + assumption.
  - (* a worker receives a file *)
    destruct (worker_at _ _ Hi) as (l1 & l2 & Hws & Hset).
    unfold setWorker. rewrite Hset. clear Hset.
    rewrite Hch in *. rewrite Hws in *.
    constructor; simpl.
    + names_step Hn.
    + exact Hc.
    + intros Hin. destruct He as [He _].
      { apply in_or_app. apply in_app_or in Hin.
        destruct Hin as [Hin | [Hin | Hin]]; [left; assumption | discriminate Hin |].
        right. right. assumption. }
      discriminate He.
    + rewrite length_app in *. simpl in *. exact Hs.
    + intros Hret. specialize (Hr Hret).
      apply Forall_app in Hr. destruct Hr as [_ Hr]. inversion Hr. discriminate.
    + intros f Hin. apply Hf. apply in_or_app. apply in_app_or in Hin.
      destruct Hin as [Hin | Hin]; [left; assumption | right; right; assumption].
    + apply Forall_app in Hw. destruct Hw as [Hw1 Hw2]. inversion Hw2; subst.
      apply Forall_app. split; [assumption|]. constructor; [|assumption].
      simpl. apply Hf. apply in_or_app. right. left. reflexivity.
    + assumption.
  - (* a worker exits *)
    destruct (worker_at _ _ Hi) as (l1 & l2 & Hws & Hset).
    unfold setWorker. rewrite Hset. clear Hset.
    rewrite Hws in *.
    constructor; simpl.
    + names_step Hn.
    + exact Hc.
    + intros _. split; assumption.
    + rewrite length_app in *. simpl in *. exact Hs.
    + intros Hret. specialize (Hr Hret).
      apply Forall_app in Hr. destruct Hr as [_ Hr]. inversion Hr. discriminate.
    + exact Hf.
    + apply Forall_app in Hw. destruct Hw as [Hw1 Hw2]. inversion Hw2; subst.
      apply Forall_app. split; [assumption|]. constructor; [exact I | assumption].
    + assumption.
  - (* a worker uploads its file *)
    destruct (worker_at _ _ Hi) as (l1 & l2 & Hws & Hset).
    unfold setWorker. rewrite Hset. clear Hset.
    rewrite Hws in *.
    constructor; simpl.
    + names_step Hn.
    + exact Hc.
    + intros Hin. apply He. apply in_or_app. apply in_app_or in Hin.
      destruct Hin as [Hin | [Hin | Hin]]; [left; assumption | discriminate Hin |].
      right. right. assumption.
    + rewrite length_app in *. simpl in *. exact Hs.
    + intros Hret. specialize (Hr Hret).
      apply Forall_app in Hr. destruct Hr as [_ Hr]. inversion Hr. discriminate.
    + exact Hf.
    + apply Forall_app in Hw. destruct Hw as [Hw1 Hw2]. inversion Hw2; subst.
      apply Forall_app. split; [assumption|]. constructor; [|assumption].
      simpl in *. exists filePath, (state p). split; [assumption | reflexivity].
    + assumption.
  - (* a worker appends its result *)
    destruct (worker_at _ _ Hi) as (l1 & l2 & Hws & Hset).
    unfold setWorker. rewrite Hset. clear Hset.
    rewrite Hws in *.
    constructor; simpl.
    + names_step Hn.
    + exact Hc.
    + intros Hin. apply He. apply in_or_app. apply in_app_or in Hin.
      destruct Hin as [Hin | [Hin | Hin]]; [left; assumption | discriminate Hin |].
      right. right. assumption.
    + rewrite length_app in *. simpl in *. exact Hs.
    + intros Hret. specialize (Hr Hret).
      apply Forall_app in Hr. destruct Hr as [_ Hr]. inversion Hr. discriminate.
    + exact Hf.
    + apply Forall_app in Hw. destruct Hw as [Hw1 Hw2]. inversion Hw2; subst.
      apply Forall_app. split; [assumption|]. constructor; [exact I | assumption].
    + apply Forall_app in Hw. destruct Hw as [Hw1 Hw2]. inversion Hw2; subst.
      apply Forall_app. split; [assumption|]. constructor; [assumption | constructor].
Qed.

Lemma reachable_invariant : forall p, reachable a st0 p -> invariant a p.
Proof.
  induction 1 as [|p q Hp IH Hstep].
  - apply initial_invariant.
  - eapply step_invariant; eassumption.
Qed.

End Pool.

Section PoolRuns.

Import Batch.

Variable a : Call.
Variable st0 : Logger.State.

Lemma step_weight : forall p q, step a p q -> (weight a q < weight a p)%nat.
Proof.
  intros p q Hstep. unfold weight.
  destruct Hstep as
    [p k Hm Hlt | p k Hm Hge | p file rest Hm | p Hm | p Hm Hall
     | p i filePath rest Hi Hch | p i Hi Hch Hcl | p i filePath Hi | p i result Hi];
    simpl;
    try (destruct (worker_at _ _ Hi) as (l1 & l2 & Hws & Hset);
         unfold setWorker; rewrite Hset; clear Hset; rewrite Hws; clear Hws);
    repeat match goal with
           | H : main _ = _ |- _ => rewrite H
           | H : fileChan _ = _ |- _ => rewrite H
           end;
    rewrite ?map_app, ?list_sum_app, ?length_app; simpl; lia.
Qed.

Lemma progress :
  forall p, invariant a p -> main p <> Returned -> exists q, step a p q.
Proof.
  intros p Hinv Hmain.
  destruct (main p) as [k | [|file rest] | |] eqn:Hm.
  - destruct (Z_lt_dec (Z.of_nat k) (c_concurrency a)).
    + eexists. eapply step_start; eassumption.
    + eexists. eapply step_started; eassumption.
  - eexists. apply step_close. assumption.
  - eexists. eapply step_send. eassumption.
  - destruct (all_exited_or_not (workers p)) as [Hall | (i & w & Hi & Hw)].
    + eexists. apply step_return; assumption.
    + destruct w as [|filePath|result|].
      * destruct (fileChan p) as [|filePath rest] eqn:Hch.
        -- eexists. eapply step_exit; try eassumption.
           apply (inv_closed Hinv). left. assumption.
        -- eexists. eapply step_receive; eassumption.
      * eexists. eapply step_upload. eassumption.
      * eexists. eapply step_append. eassumption.
      * contradiction Hw. reflexivity.
  - contradiction Hmain. reflexivity.
Qed.

Lemma runs_return :
  forall n p,
    (weight a p <= n)%nat -> reachable a st0 p ->
    exists q, reachable a st0 q /\ main q = Returned.
Proof.
  induction n as [|n IH]; intros p Hw Hp.
  - destruct (main p) eqn:Hm;
      try (exists p; split; [assumption | assumption]);
      unfold weight in Hw; rewrite Hm in Hw; simpl in Hw; lia.
  - destruct (main p) eqn:Hm;
      try (exists p; split; [assumption | assumption]);
      (destruct (progress (reachable_invariant Hp)) as [q Hq];
       [rewrite Hm; discriminate|];
       apply (IH q);
       [pose proof (step_weight Hq); lia | eapply reach_step; eassumption]).
Qed.

Lemma exited_names :
  forall ws : list Worker, Forall (eq Exited) ws -> flat_map worker_names ws = [].
Proof.
  induction 1 as [|w ws <- _ IH]; simpl; [reflexivity | exact IH].
Qed.

Lemma returned_names :
  1 <= c_concurrency a ->
  forall p, invariant a p -> main p = Returned ->
            names a p = map FileName (results p).
Proof.
  intros HW p Hinv Hm. unfold names. rewrite Hm. simpl.
  pose proof (inv_returned Hinv Hm) as Hall.
  rewrite (exited_names Hall). simpl.
  pose proof (inv_started Hinv) as Hs. rewrite Hm in Hs.
  destruct (workers p) as [|w ws] eqn:Hws; [simpl in Hs; lia|].
  inversion Hall as [|w' ws' Hw Hrest]; subst w' ws'.
  destruct (inv_exited Hinv) as [Hch _].
  { rewrite Hws. left. symmetry. exact Hw. }
  rewrite Hch. reflexivity.
Qed.

End PoolRuns.

(** C1: with at least one worker, [uploadFilesWithConcurrency] returns, in
    whatever order the goroutines take their steps, and what it returns is
    one result for each file: as many results as files, their file names the
    base names of the paths (each as often as among the paths, so that the
    two sets of names are equal), each result the outcome of the upload of
    one of the files.  That holds whatever the uploads answer: no failure
    of one keeps another from being made and recorded. *)
Theorem uploadFilesWithConcurrency_results :
  forall (a : Batch.Call) (st : Logger.State),
    1 <= Batch.c_concurrency a ->
    (* the call can always go on until it returns, and it returns *)
    (forall p, Batch.reachable a st p -> Batch.main p <> Batch.Returned ->
               exists q, Batch.step a p q)
    /\ (forall p q, Batch.step a p q -> (weight a q < weight a p)%nat)
    /\ (exists p, Batch.reachable a st p /\ Batch.main p = Batch.Returned)
    (* what it returns *)
    /\ (forall p, Batch.reachable a st p -> Batch.main p = Batch.Returned ->
          List.length (Batch.results p) = List.length (Batch.c_files a)
          /\ Permutation (map FileName (Batch.results p)) (map Base (Batch.c_files a))
          /\ (forall name, In name (map FileName (Batch.results p))
                           <-> In name (map Base (Batch.c_files a)))
          /\ Forall (outcome a) (Batch.results p)).
Proof.
  intros a st HW.
  split; [|split; [|split]].
  - intros p Hp. apply progress. eapply reachable_invariant; eassumption.
  - apply step_weight.
  - apply (runs_return (n := weight a (Batch.initial a st)) (p := Batch.initial a st)).
    + apply Nat.le_refl.
    + constructor.
  - intros p Hp Hm.
    pose proof (reachable_invariant Hp) as Hinv.
    assert (Hperm : Permutation (map FileName (Batch.results p))
                                (map Base (Batch.c_files a))).
    { apply (Permutation_count_occ string_dec). intros x.
      rewrite <- (returned_names HW Hinv Hm). apply (inv_names Hinv). }
    split; [|split; [exact Hperm | split]].
    + apply Permutation_length in Hperm. rewrite !length_map in Hperm. exact Hperm.
    + intros name. split; apply Permutation_in; [|symmetry]; exact Hperm.
    + apply (inv_results Hinv).
Qed.

Lemma uploadFilesWithConcurrency_results_witness :
  1 <= Batch.c_concurrency (acme_batch 2)
  /\ exists p, Batch.reachable (acme_batch 2) emptyLog p /\ Batch.main p = Batch.Returned.
Proof.
  split; [simpl; lia|].
  apply (uploadFilesWithConcurrency_results (acme_batch 2) emptyLog). simpl. lia.
Defined.

(** ** Reading the log *)

(** C8: a line of 64 KiB or more stops [ReadLogs].  After an upload that the
    server refuses with an error page of 64 KiB and a second upload that it
    accepts, the log has two lines, each of them a well-formed entry, and
    [ReadLogs] returns none of them, with the error of the scanner. *)
Theorem ReadLogs_stops_at_long_line :
  map (fun l => N.of_nat (List.length l))
      (lines (bytes (Logger.content log_after_success)) [])
  = [65736%N; 210%N]
  /\ List.length (Logger.entriesOf (lines (bytes (Logger.content log_after_success)) []))
     = 2%nat
  /\ Logger.ReadLogs acme_disk log_after_success = ([], Some Logger.ErrTooLong).
Proof.
  split; [|split].
  - vm_compute. reflexivity.
  - vm_compute. reflexivity.
  - vm_compute. reflexivity.
Qed.

(** What [ReadLogs] does when no line is too long for the scanner: it
    returns the entries of the lines that are well-formed, in the order of
    the file. *)
Lemma scan_lines :
  forall data cur n ls,
    Logger.scan data cur n = (ls, None) -> ls = lines data cur.
Proof.
  induction data as [|c r IH]; intros cur n ls H; simpl in *.
  - destruct cur; inversion H; reflexivity.
  - destruct (Ascii.eqb c (byte_of 10)).
    + destruct (Logger.scan r [] 0%N) as [ls' e] eqn:Hr.
      inversion H; subst. f_equal. eapply IH. exact Hr.
    + destruct (Logger.MaxScanTokenSize <=? n + 1)%N; [discriminate H|].
      eapply IH. exact H.
Qed.

Lemma ReadLogs_entries :
  forall d st entries,
    Logger.ReadLogs d st = (entries, None) ->
    entries = Logger.entriesOf (lines (bytes (Logger.content st)) []).
Proof.
  intros d st entries H. unfold Logger.ReadLogs, Logger.content in *.
  destruct (Logger.LogFile st) as [c|].
  - destruct (Logger.Open_err d); [discriminate H|].
    destruct (Logger.scan (bytes c) [] 0%N) as [ls e] eqn:Hs.
    inversion H; subst. apply scan_lines in Hs. subst ls. reflexivity.
  - inversion H. reflexivity.
Qed.

(** A file with a malformed line between two well-formed ones gives two
    entries; no file gives none, and no error. *)
Lemma ReadLogs_skips_malformed_line :
  exists e1 e2,
    Logger.ReadLogs acme_disk corrupted_log = ([e1; e2], None)
    /\ Logger.File e1 = "a.png" /\ Logger.File e2 = "b.png".
Proof.
  eexists. eexists. split; [vm_compute; reflexivity|]. split; reflexivity.
Qed.

Lemma ReadLogs_without_file :
  forall d clock,
    Logger.ReadLogs d {| Logger.LogFile := None; Logger.Clock := clock |} = ([], None).
Proof. reflexivity. Qed.

(** ** The properties at work on the examples *)


Lemma upload_status_errors_witness :
  uploadFilePicker (acme_env ["a.png"] (status_only 403 "Forbidden")) acme_cms []
    multipartContentType "a.png"
  = Err ("authentication failed (HTTP 403): " ++ sessionExpired)
  /\ uploadGraphQL (acme_env ["a.png"] (status_only 502 "Bad Gateway")) acme_gql []
       multipartContentType
     = Err "upload failed with status 502: Bad Gateway".
Proof.
  split.
  - apply (proj1 (proj1 (upload_status_errors
                           (acme_env ["a.png"] (status_only 403 "Forbidden"))
                           acme_cms acme_gql [] multipartContentType "a.png"
                           {| StatusCode := 403; RespBody := "Forbidden" |})
                        eq_refl eq_refl)).
    right. reflexivity.
  - apply (proj2 (proj2 (upload_status_errors
                           (acme_env ["a.png"] (status_only 502 "Bad Gateway"))
                           acme_cms acme_gql [] multipartContentType "a.png"
                           {| StatusCode := 502; RespBody := "Bad Gateway" |})
                        eq_refl eq_refl)).
    + right. simpl. lia.
    + simpl. lia.
    + simpl. lia.
Defined.

(** ** The log gives back what was written *)

Local Close Scope string_scope.

Local Open Scope N_scope.

Lemma Nbyte_byteN : forall c, Nbyte (byteN c) = c.
Proof. intros c. apply ascii_N_embedding. Qed.

Lemma byteN_lt : forall c, byteN c < 256.
Proof. intros c. apply N_ascii_bounded. Qed.

Lemma byteN_Nbyte : forall n, n < 256 -> byteN (Nbyte n) = n.
Proof. intros n H. apply N_ascii_embedding. exact H. Qed.

Ltac Zify.zify_post_hook ::= Z.to_euclidean_division_equations.

Ltac ncases :=
  repeat match goal with
         | |- context [(?a <? ?b)%N] => destruct (N.ltb_spec a b)
         | |- context [(?a <=? ?b)%N] => destruct (N.leb_spec a b)
         | |- context [(?a =? ?b)%N] => destruct (N.eqb_spec a b)
         | H : context [(?a <? ?b)%N] |- _ => destruct (N.ltb_spec a b)
         | H : context [(?a <=? ?b)%N] |- _ => destruct (N.leb_spec a b)
         | H : context [(?a =? ?b)%N] |- _ => destruct (N.eqb_spec a b)
         end.

Lemma first_cases :
  forall b0 sz lo hi,
    first b0 = Some (sz, lo, hi) ->
    (sz = 2%nat /\ 194 <= b0 < 224 /\ lo = 128 /\ hi = 191)
    \/ (sz = 3%nat /\ b0 = 224 /\ lo = 160 /\ hi = 191)
    \/ (sz = 3%nat /\ b0 = 237 /\ lo = 128 /\ hi = 159)
    \/ (sz = 3%nat /\ 225 <= b0 < 240 /\ b0 <> 237 /\ lo = 128 /\ hi = 191)
    \/ (sz = 4%nat /\ b0 = 240 /\ lo = 144 /\ hi = 191)
    \/ (sz = 4%nat /\ 241 <= b0 < 244 /\ lo = 128 /\ hi = 191)
    \/ (sz = 4%nat /\ b0 = 244 /\ lo = 128 /\ hi = 143).
Proof.
  intros b0 sz lo hi H. unfold first in H.
  ncases; inversion H; subst; lia.
Qed.

Lemma DecodeRune_multibyte :
  forall p c size,
    DecodeRune p = (c, size) ->
    (c =? RuneError) && (size =? 1)%nat = false ->
    (exists p0 rest, p = p0 :: rest /\ 128 <= byteN p0) ->
    exists chunk tail, p = (chunk ++ tail)%list /\ List.length chunk = size /\ multibyte chunk c.
Proof.
  intros p c size Hd Hv (p0 & rest & -> & Hp0).
  unfold DecodeRune in Hd.
  destruct (N.ltb_spec (byteN p0) 128) as [Hlt | _]; [lia|].
  destruct (first (byteN p0)) as [[[sz lo] hi]|] eqn:Hf.
  2:{ inversion Hd; subst. discriminate Hv. }
  destruct rest as [|p1 rest]; [inversion Hd; subst; discriminate Hv|].
  destruct (N.leb_spec lo (byteN p1)) as [Hlo | Hlo]; simpl in Hd;
    [|inversion Hd; subst; discriminate Hv].
  destruct (N.leb_spec (byteN p1) hi) as [Hhi | Hhi]; simpl in Hd;
    [|inversion Hd; subst; discriminate Hv].
  pose proof (byteN_lt p0) as B0. pose proof (byteN_lt p1) as B1.
  apply first_cases in Hf.
  destruct Hf as [(-> & Hb & -> & ->) | Hf].
  { (* two bytes *)
    simpl in Hd. inversion Hd; subst c size. clear Hd.
    exists [p0; p1], rest. split; [reflexivity|]. split; [reflexivity|].
    assert (He : EncodeRune ((byteN p0 - 192) * 64 + (byteN p1 - 128)) = [p0; p1]).
    { unfold EncodeRune.
      destruct (N.leb_spec ((byteN p0 - 192) * 64 + (byteN p1 - 128)) 127); [lia|].
      destruct (N.leb_spec ((byteN p0 - 192) * 64 + (byteN p1 - 128)) 2047); [|lia].
      replace (192 + ((byteN p0 - 192) * 64 + (byteN p1 - 128)) / 64) with (byteN p0) by lia.
      replace (128 + ((byteN p0 - 192) * 64 + (byteN p1 - 128)) mod 64) with (byteN p1) by lia.
      rewrite !Nbyte_byteN. reflexivity. }
    split; [exact He|]. split; [repeat constructor; lia|]. split; [simpl; lia|].
    intros tail. simpl.
    destruct (N.ltb_spec (byteN p0) 128); [lia|].
    unfold first. ncases; try lia; reflexivity. }
  destruct rest as [|p2 rest].
  { destruct Hf as [H|[H|[H|[H|[H|H]]]]]; destruct H as (-> & _);
      simpl in Hd; inversion Hd; subst; discriminate Hv. }
  pose proof (byteN_lt p2) as B2.
  assert (Hsz : (sz <=? 2)%nat = false).
  { destruct Hf as [H|[H|[H|[H|[H|H]]]]]; destruct H as (-> & _); reflexivity. }
  rewrite Hsz in Hd. unfold is_cont in Hd.
  destruct (N.leb_spec 128 (byteN p2)) as [H2lo | H2lo]; simpl in Hd;
    [|inversion Hd; subst; discriminate Hv].
  destruct (N.leb_spec (byteN p2) 191) as [H2hi | H2hi]; simpl in Hd;
    [|inversion Hd; subst; discriminate Hv].
  assert (H3 : (sz = 3%nat /\ ((byteN p0 = 224 /\ 160 <= byteN p1 <= 191)
                              \/ (byteN p0 = 237 /\ 128 <= byteN p1 <= 159)
                              \/ (225 <= byteN p0 < 240 /\ byteN p0 <> 237
                                  /\ 128 <= byteN p1 <= 191)))
               \/ (sz = 4%nat /\ ((byteN p0 = 240 /\ 144 <= byteN p1 <= 191)
                                 \/ (241 <= byteN p0 < 244 /\ 128 <= byteN p1 <= 191)
                                 \/ (byteN p0 = 244 /\ 128 <= byteN p1 <= 143)))).
  { destruct Hf as [H|[H|[H|[H|[H|H]]]]]; [left | left | left | right | right | right];
      (split; [tauto|]); lia. }
  clear Hf Hlo Hhi Hsz.
  destruct H3 as [(-> & Hb) | (-> & Hb)].
  { (* three bytes *)
    simpl in Hd. inversion Hd; subst c size. clear Hd.
    exists [p0; p1; p2], rest. split; [reflexivity|]. split; [reflexivity|].
    set (c := (byteN p0 - 224) * 4096 + (byteN p1 - 128) * 64 + (byteN p2 - 128)).
    assert (Hc : 2048 <= c <= 65535 /\ (c < 55296 \/ 57343 < c)) by (unfold c; lia).
    assert (He : EncodeRune c = [p0; p1; p2]).
    { unfold EncodeRune, encode3, MaxRune.
      destruct (N.leb_spec c 127); [lia|].
      destruct (N.leb_spec c 2047); [lia|].
      destruct (N.ltb_spec 1114111 c); [lia|].
      destruct (N.leb_spec 55296 c); destruct (N.leb_spec c 57343); cbn [orb andb]; try lia;
        (destruct (N.leb_spec c 65535); [|lia]);
        (replace (224 + c / 4096) with (byteN p0) by (unfold c; lia));
        (replace (128 + (c / 64) mod 64) with (byteN p1) by (unfold c; lia));
        (replace (128 + c mod 64) with (byteN p2) by (unfold c; lia));
        rewrite !Nbyte_byteN; reflexivity. }
    split; [exact He|]. split; [repeat constructor; lia|]. split; [simpl; lia|].
    intros tail. simpl.
    destruct (N.ltb_spec (byteN p0) 128); [lia|].
    unfold first, is_cont. fold c.
    ncases; try lia; reflexivity. }
  (* four bytes *)
  destruct rest as [|p3 rest]; [simpl in Hd; inversion Hd; subst; discriminate Hv|].
  pose proof (byteN_lt p3) as B3.
  simpl in Hd. unfold is_cont in Hd.
  destruct (N.leb_spec 128 (byteN p3)) as [H3lo | H3lo]; simpl in Hd;
    [|inversion Hd; subst; discriminate Hv].
  destruct (N.leb_spec (byteN p3) 191) as [H3hi | H3hi]; simpl in Hd;
    [|inversion Hd; subst; discriminate Hv].
  inversion Hd; subst c size. clear Hd.
  exists [p0; p1; p2; p3], rest. split; [reflexivity|]. split; [reflexivity|].
  set (c := (byteN p0 - 240) * 262144 + (byteN p1 - 128) * 4096
            + (byteN p2 - 128) * 64 + (byteN p3 - 128)).
  assert (Hc : 65536 <= c <= 1114111) by (unfold c; lia).
  assert (He : EncodeRune c = [p0; p1; p2; p3]).
  { unfold EncodeRune, MaxRune.
    destruct (N.leb_spec c 127); [lia|].
    destruct (N.leb_spec c 2047); [lia|].
    destruct (N.ltb_spec 1114111 c); [lia|].
    destruct (N.leb_spec 55296 c); destruct (N.leb_spec c 57343); cbn [orb andb]; try lia;
      (destruct (N.leb_spec c 65535); [lia|]);
      (replace (240 + c / 262144) with (byteN p0) by (unfold c; lia));
      (replace (128 + (c / 4096) mod 64) with (byteN p1) by (unfold c; lia));
      (replace (128 + (c / 64) mod 64) with (byteN p2) by (unfold c; lia));
      (replace (128 + c mod 64) with (byteN p3) by (unfold c; lia));
      rewrite !Nbyte_byteN; reflexivity. }
  split; [exact He|]. split; [repeat constructor; lia|]. split; [simpl; lia|].
  intros tail. simpl.
  destruct (N.ltb_spec (byteN p0) 128); [lia|].
  unfold first, is_cont. fold c.
  ncases; try lia; reflexivity.
Qed.

Lemma scannable_nil : scannable [].
Proof. intros s. simpl. destruct (scan_string s) as [[raw rest]|]; reflexivity. Qed.

Lemma scannable_app : forall X Y, scannable X -> scannable Y -> scannable (X ++ Y).
Proof.
  intros X Y HX HY s. rewrite <- app_assoc, HX, HY.
  destruct (scan_string s) as [[raw rest]|]; simpl; [|reflexivity].
  rewrite app_assoc. reflexivity.
Qed.

Lemma high_byte_plain :
  forall c, 128 <= byteN c ->
    Ascii.eqb c dquote = false /\ Ascii.eqb c backslash = false /\ (byteN c <? 32) = false
    /\ (byteN c <? 128) = false.
Proof.
  intros c H. repeat split.
  - destruct (Ascii.eqb_spec c dquote); [subst; vm_compute in H; contradiction H; reflexivity | reflexivity].
  - destruct (Ascii.eqb_spec c backslash); [subst; vm_compute in H; contradiction H; reflexivity | reflexivity].
  - apply N.ltb_ge. lia.
  - apply N.ltb_ge. lia.
Qed.

Lemma scannable_high : forall c, 128 <= byteN c -> scannable [c].
Proof.
  intros c H s. destruct (high_byte_plain c H) as (Hq & Hb & Hc & _).
  simpl. rewrite Hq, Hb, Hc. reflexivity.
Qed.

Lemma scannable_high_bytes :
  forall X, Forall (fun b => 128 <= byteN b) X -> scannable X.
Proof.
  induction 1 as [|c X Hc _ IH]; [apply scannable_nil|].
  change (c :: X) with ([c] ++ X)%list. apply scannable_app; [apply scannable_high; exact Hc | exact IH].
Qed.

Lemma scannable_ascii : forall b, byteN b < 128 -> scannable (ascii_chunk b).
Proof.
  intros b H s.
  destruct b as [[] [] [] [] [] [] [] []];
    try (exfalso; vm_compute in H; discriminate H);
    reflexivity.
Qed.

Lemma unquote_ascii :
  forall b, byteN b < 128 ->
    forall fuel s,
      unquote_loop (S fuel) (ascii_chunk b ++ s) = option_map (cons b) (unquote_loop fuel s).
Proof.
  intros b H fuel s.
  destruct b as [[] [] [] [] [] [] [] []];
    try (exfalso; vm_compute in H; discriminate H);
    reflexivity.
Qed.

Lemma unquote_multibyte :
  forall chunk c, multibyte chunk c ->
    forall fuel s,
      unquote_loop (S fuel) (chunk ++ s) = option_map (app chunk) (unquote_loop fuel s).
Proof.
  intros chunk c (He & Hhigh & Hlen & Hdec) fuel s.
  destruct chunk as [|c0 chunk']; [simpl in Hlen; lia|].
  inversion Hhigh as [|x l Hc0 Hrest]; subst.
  destruct (high_byte_plain c0 Hc0) as (Hq & Hb & Hc & H128).
  cbn [unquote_loop app]. rewrite Hb, Hq, Hc, H128. cbn [orb].
  change (c0 :: (chunk' ++ s)%list) with ((c0 :: chunk') ++ s)%list.
  rewrite Hdec, He.
  rewrite skipn_app, skipn_all, Nat.sub_diag. reflexivity.
Qed.

Lemma unquote_separator :
  forall chunk c, multibyte chunk c -> c = 8232 \/ c = 8233 ->
    forall fuel s,
      unquote_loop (S fuel) ((bytes "\u202" ++ [hexN (c mod 16)]) ++ s)
      = option_map (app chunk) (unquote_loop fuel s).
Proof.
  intros chunk c (He & _) Hc fuel s.
  destruct Hc as [-> | ->]; rewrite <- He; reflexivity.
Qed.

Lemma scannable_separator :
  forall c, c = 8232 \/ c = 8233 -> scannable (bytes "\u202" ++ [hexN (c mod 16)]).
Proof.
  intros c [-> | ->] s; reflexivity.
Qed.

Lemma scannable_replacement : scannable (bytes "\ufffd").
Proof. intros s. reflexivity. Qed.

(** The body that [appendString] writes reads back as one string
    literal. *)
Lemma appendString_loop_scannable :
  forall fuel src, scannable (appendString_loop fuel src).
Proof.
  induction fuel as [|fuel IH]; intros src; [apply scannable_nil|].
  destruct src as [|b rest]; [apply scannable_nil|].
  cbn [appendString_loop].
  destruct (N.ltb_spec (byteN b) 128) as [Hb | Hb].
  - apply scannable_app; [apply (scannable_ascii b Hb) | apply IH].
  - destruct (DecodeRune (b :: rest)) as [c size] eqn:Hd.
    destruct ((c =? RuneError) && (size =? 1)%nat) eqn:Hv.
    + apply scannable_app; [apply scannable_replacement | apply IH].
    + destruct (DecodeRune_multibyte Hd Hv) as (chunk & tail & Hsrc & Hlen & Hm).
      { exists b, rest. split; [reflexivity | exact Hb]. }
      destruct ((c =? 8232) || (c =? 8233)) eqn:Hsep.
      * rewrite app_assoc. apply scannable_app; [|apply IH].
        apply scannable_separator.
        apply orb_true_iff in Hsep. destruct Hsep as [H | H]; apply N.eqb_eq in H; auto.
      * apply scannable_app; [|apply IH].
        rewrite Hsrc, <- Hlen, firstn_app, firstn_all, Nat.sub_diag. simpl.
        rewrite app_nil_r. apply scannable_high_bytes. apply Hm.
Qed.

Lemma scan_string_body :
  forall fuel src rest,
    scan_string (appendString_loop fuel src ++ dquote :: rest)
    = Some (appendString_loop fuel src, rest).
Proof.
  intros fuel src rest. rewrite appendString_loop_scannable. simpl.
  rewrite app_nil_r. reflexivity.
Qed.

(** What [appendString] writes of a string that is UTF-8 reads back as
    that string. *)
Lemma unquote_appendString_loop :
  forall n src,
    (List.length src <= n)%nat -> valid_loop n src = true ->
    forall fq fu,
      (List.length src <= fq)%nat -> (List.length src <= fu)%nat ->
      unquote_loop fu (appendString_loop fq src) = Some src.
Proof.
  induction n as [|n IH]; intros src Hn Hvalid fq fu Hfq Hfu.
  - destruct src; [|simpl in Hn; lia]. destruct fq, fu; reflexivity.
  - destruct src as [|b rest]; [destruct fq, fu; reflexivity|].
    destruct fq as [|fq]; [simpl in Hfq; lia|].
    destruct fu as [|fu]; [simpl in Hfu; lia|].
    simpl in Hn, Hfq, Hfu.
    cbn [valid_loop] in Hvalid. cbn [appendString_loop].
    destruct (DecodeRune (b :: rest)) as [c size] eqn:Hd.
    destruct ((c =? RuneError) && (size =? 1)%nat) eqn:Hv; [discriminate Hvalid|].
    destruct (N.ltb_spec (byteN b) 128) as [Hb | Hb].
    + assert (size = 1%nat) as ->.
      { unfold DecodeRune in Hd. destruct (N.ltb_spec (byteN b) 128); [|lia].
        inversion Hd. reflexivity. }
      cbn [skipn] in Hvalid.
      change (if htmlSafe (byteN b) then [b] else escape_ascii (byteN b)) with (ascii_chunk b).
      rewrite (unquote_ascii b Hb).
      rewrite (IH rest) by (assumption || lia). reflexivity.
    + destruct (DecodeRune_multibyte Hd Hv) as (chunk & tail & Hsrc & Hlen & Hm).
      { exists b, rest. split; [reflexivity | exact Hb]. }
      assert (Hskip : skipn size (b :: rest) = tail).
      { rewrite Hsrc, <- Hlen, skipn_app, skipn_all, Nat.sub_diag. reflexivity. }
      assert (Hfirst : firstn size (b :: rest) = chunk).
      { rewrite Hsrc, <- Hlen, firstn_app, firstn_all, Nat.sub_diag. simpl.
        apply app_nil_r. }
      assert (Htail : (List.length tail + 2 <= S (List.length rest))%nat).
      { change (S (List.length rest)) with (List.length (b :: rest)).
        rewrite Hsrc, length_app. destruct Hm as (_ & _ & Hl & _). lia. }
      rewrite Hskip in *. rewrite Hfirst.
      assert (Hrec : unquote_loop fu (appendString_loop fq tail) = Some tail).
      { apply IH; (assumption || lia). }
      destruct ((c =? 8232) || (c =? 8233)) eqn:Hsep.
      * rewrite app_assoc.
        rewrite (unquote_separator Hm).
        2:{ apply orb_true_iff in Hsep. destruct Hsep as [H | H]; apply N.eqb_eq in H; auto. }
        rewrite Hrec. simpl. rewrite Hsrc. reflexivity.
      * rewrite (unquote_multibyte Hm), Hrec. simpl. rewrite Hsrc. reflexivity.
Qed.

Lemma appendString_loop_length :
  forall n src fq,
    (List.length src <= n)%nat -> (List.length src <= fq)%nat ->
    (List.length src <= List.length (appendString_loop fq src))%nat.
Proof.
  induction n as [|n IH]; intros src fq Hn Hfq.
  - destruct src; [simpl; lia | simpl in Hn; lia].
  - destruct src as [|b rest]; [simpl; lia|].
    destruct fq as [|fq]; [simpl in Hfq; lia|].
    simpl in Hn, Hfq. cbn [appendString_loop].
    destruct (N.ltb_spec (byteN b) 128) as [Hb | Hb].
    + rewrite length_app. specialize (IH rest fq).
      assert (1 <= List.length (if htmlSafe (byteN b) then [b] else escape_ascii (byteN b)))%nat.
      { destruct (htmlSafe (byteN b)); [simpl; lia|]. unfold escape_ascii.
        repeat match goal with |- context [if ?x then _ else _] => destruct x end;
          simpl; lia. }
      simpl. lia.
    + destruct (DecodeRune (b :: rest)) as [c size] eqn:Hd.
      destruct ((c =? RuneError) && (size =? 1)%nat) eqn:Hv.
      * rewrite length_app. specialize (IH rest fq). simpl. simpl in IH. lia.
      * destruct (DecodeRune_multibyte Hd Hv) as (chunk & tail & Hsrc & Hlen & Hm).
        { exists b, rest. split; [reflexivity | exact Hb]. }
        assert (Hskip : skipn size (b :: rest) = tail).
        { rewrite Hsrc, <- Hlen, skipn_app, skipn_all, Nat.sub_diag. reflexivity. }
        assert (Hfirst : firstn size (b :: rest) = chunk).
        { rewrite Hsrc, <- Hlen, firstn_app, firstn_all, Nat.sub_diag. simpl.
          apply app_nil_r. }
        assert (Hl : (List.length (b :: rest) = List.length chunk + List.length tail)%nat).
        { rewrite Hsrc, length_app. reflexivity. }
        destruct Hm as (_ & _ & Hcl & _).
        rewrite Hskip, Hfirst.
        assert (Hrec : (List.length tail <= List.length (appendString_loop fq tail))%nat).
        { apply IH; simpl in Hl; lia. }
        destruct ((c =? 8232) || (c =? 8233)); rewrite !length_app; simpl; simpl in Hl; lia.
Qed.

Local Close Scope N_scope.

Lemma scannable_plain : forall X, Forall plain X -> scannable X.
Proof.
  induction 1 as [|c X (Hq & Hb & Hc) _ IH]; [apply scannable_nil|].
  change (c :: X) with ([c] ++ X)%list. apply scannable_app; [|exact IH].
  intros s. simpl. rewrite Hq, Hb, Hc. reflexivity.
Qed.

Lemma scan_string_plain :
  forall X rest, Forall plain X -> scan_string (X ++ dquote :: rest) = Some (X, rest).
Proof.
  intros X rest H. rewrite (scannable_plain H). simpl. rewrite app_nil_r. reflexivity.
Qed.

Lemma digit_spec :
  forall d, 0 <= d <= 9 ->
    isDigit (digit d) = true /\ Z.of_N (byteN (digit d)) - 48 = d /\ plain (digit d).
Proof.
  intros d H.
  assert (Hd : d = 0 \/ d = 1 \/ d = 2 \/ d = 3 \/ d = 4 \/ d = 5 \/ d = 6 \/ d = 7
               \/ d = 8 \/ d = 9) by lia.
  unfold plain.
  repeat (destruct Hd as [-> | Hd]; [repeat split; reflexivity|]).
  subst d. repeat split; reflexivity.
Qed.

Lemma digits_are_digits : forall w n, Forall (fun c => isDigit c = true /\ plain c) (digits w n).
Proof.
  induction w as [|w IH]; intros n; simpl; [constructor|].
  apply Forall_app. split; [apply IH|]. constructor; [|constructor].
  destruct (digit_spec (d := n mod 10)) as (H1 & _ & H3); [|split; assumption].
  pose proof (Z.mod_pos_bound n 10). lia.
Qed.









Lemma trim_zeros_Forall :
  forall (P : ascii -> Prop) r, Forall P r -> Forall P (trim_zeros r).
Proof.
  induction 1 as [|c r Hc Hr IH]; simpl; [constructor|].
  destruct (Ascii.eqb c "0"); [exact IH | constructor; assumption].
Qed.

Lemma rtrim_digits :
  forall ns, Forall (fun c => isDigit c = true /\ plain c)
               (rev (trim_zeros (rev (digits 9 ns)))).
Proof.
  intros ns. apply Forall_rev, trim_zeros_Forall, Forall_rev, digits_are_digits.
Qed.

Lemma take_digits_app :
  forall l c tail,
    Forall (fun c => isDigit c = true) l -> isDigit c = false ->
    take_digits (l ++ c :: tail) = (l, c :: tail).
Proof.
  induction 1 as [|d l Hd _ IH]; intros Hc; simpl.
  - rewrite Hc. reflexivity.
  - rewrite Hd, IH by assumption. reflexivity.
Qed.

Lemma formatZone_head :
  forall off, exists c tail, formatZone off = c :: tail /\ zone_head c /\ Forall plain tail.
Proof.
  intros off. unfold formatZone, zone_head.
  destruct (off =? 0).
  - exists "Z"%char, []. repeat split; constructor.
  - eexists. eexists. split; [reflexivity|].
    split.
    + destruct (off <? 0); repeat split; reflexivity.
    + apply Forall_app. split.
      * eapply Forall_impl; [|apply digits_are_digits]. intros x0 [_ Hx0]; exact Hx0.
      * constructor; [repeat split; reflexivity|].
        eapply Forall_impl; [|apply digits_are_digits]. intros x0 [_ Hx0]; exact Hx0.
Qed.




Lemma formatRFC3339_plain : forall t, Forall plain (bytes (formatRFC3339 t)).
Proof.
  intros t. unfold formatRFC3339, bytes, str. rewrite list_ascii_of_string_of_list_ascii.
  assert (D : forall w n, Forall plain (digits w n)).
  { intros w n. eapply Forall_impl; [|apply digits_are_digits]. intros x0 [_ Hx0]; exact Hx0. }
  assert (P : forall c : ascii, In c (bytes "-T:.") -> plain c).
  { intros c Hc. simpl in Hc.
    destruct Hc as [<- | [<- | [<- | [<- | []]]]]; repeat split; reflexivity. }
  repeat (apply Forall_app; split; [apply D|]; constructor;
          [apply P; simpl; tauto|]).
  apply Forall_app. split; [apply D|].
  apply Forall_app. split.
  - unfold formatNano.
    pose proof (rtrim_digits (Nanosecond t)) as Hd.
    destruct (rev (trim_zeros (rev (digits 9 (Nanosecond t))))); [constructor|].
    constructor; [apply P; simpl; tauto|].
    eapply Forall_impl; [|exact Hd]. intros x0 [_ Hx0]; exact Hx0.
  - destruct (formatZone_head (Offset t)) as (c & tail & -> & (_ & _ & Hc) & Ht).
    constructor; assumption.
Qed.

Lemma bytes_str : forall l, bytes (str l) = l.
Proof. intros l. apply list_ascii_of_string_of_list_ascii. Qed.

Lemma str_bytes : forall s, str (bytes s) = s.
Proof. intros s. apply string_of_list_ascii_of_string. Qed.

Lemma bytes_app : forall a b, bytes (a ++ b) = (bytes a ++ bytes b)%list.
Proof. induction a as [|c a IH]; intros b; simpl; [reflexivity|]. rewrite IH. reflexivity. Qed.

Lemma bytes_length : forall s, List.length (bytes s) = String.length s.
Proof. induction s as [|c s IH]; simpl; [reflexivity|]. rewrite IH. reflexivity. Qed.

Lemma uint_digits :
  forall d, Forall (fun c => isDigit c = true) (bytes (NilEmpty.string_of_uint d)).
Proof.
  induction d; simpl; constructor; (reflexivity || assumption).
Qed.

Lemma to_uint_no_leading_zero :
  forall p d, Pos.to_uint p <> Decimal.D0 d.
Proof.
  intros p d H.
  assert (Hn : Decimal.unorm (Pos.to_uint p) = Pos.to_uint p).
  { rewrite <- (DecimalPos.Unsigned.to_of (Pos.to_uint p)).
    rewrite DecimalPos.Unsigned.of_to. reflexivity. }
  rewrite H in Hn. rewrite unorm_D0 in Hn.
  destruct d;
    [exact (DecimalPos.Unsigned.to_uint_nonzero p H) | ..];
    match type of Hn with
    | Decimal.unorm ?u = _ =>
        assert (Hu : u <> Decimal.Nil) by discriminate;
        pose proof (nb_digits_unorm _ Hu) as Hl;
        rewrite Hn in Hl; simpl in Hl; lia
    end.
Qed.

Lemma scan_fraction_end :
  forall c rest, number_end c -> scan_fraction (c :: rest) = Some ([], c :: rest).
Proof. intros c rest [-> | ->]; reflexivity. Qed.

Lemma number_end_not_digit : forall c, number_end c -> isDigit c = false.
Proof. intros c [-> | ->]; reflexivity. Qed.

Lemma scan_unsigned_pos :
  forall p c rest, number_end c ->
    scan_unsigned (bytes (NilEmpty.string_of_uint (Pos.to_uint p)) ++ c :: rest)
    = Some (bytes (NilEmpty.string_of_uint (Pos.to_uint p)), c :: rest).
Proof.
  intros p c rest Hc.
  pose proof (@to_uint_no_leading_zero p) as Hz.
  pose proof (DecimalPos.Unsigned.to_uint_nonnil p) as Hnil.
  destruct (Pos.to_uint p) as [|d|d|d|d|d|d|d|d|d|d];
    [contradiction Hnil; reflexivity | contradiction (Hz d); reflexivity | ..];
    cbn [NilEmpty.string_of_uint bytes list_ascii_of_string app scan_unsigned];
    change (list_ascii_of_string (NilEmpty.string_of_uint d))
      with (bytes (NilEmpty.string_of_uint d));
    cbn [Ascii.eqb Bool.eqb andb];
    match goal with
    | |- context [isDigit ?ch] => change (isDigit ch) with true
    end; cbv iota;
    rewrite (@take_digits_app (bytes (NilEmpty.string_of_uint d)) c rest
               (uint_digits d) (number_end_not_digit Hc));
    rewrite (scan_fraction_end rest Hc); cbn [consumed]; rewrite List.app_nil_r; reflexivity.
Qed.

Lemma scan_number_itoa :
  forall z c rest, number_end c ->
    scan_number (bytes (itoa z) ++ c :: rest) = Some (bytes (itoa z), c :: rest).
Proof.
  intros z c rest Hc. unfold itoa.
  destruct z as [|p|p]; cbn [Z.to_int NilEmpty.string_of_int].
  - change (bytes (NilEmpty.string_of_uint Decimal.zero)) with ["0"%char].
    cbn [app scan_number scan_unsigned Ascii.eqb Bool.eqb andb].
    rewrite (scan_fraction_end rest Hc). reflexivity.
  - unfold scan_number.
    pose proof (scan_unsigned_pos p rest Hc) as H.
    pose proof (@to_uint_no_leading_zero p) as Hz.
    pose proof (DecimalPos.Unsigned.to_uint_nonnil p) as Hnil.
    destruct (Pos.to_uint p) as [|d|d|d|d|d|d|d|d|d|d];
      [contradiction Hnil; reflexivity | contradiction (Hz d); reflexivity | ..];
      exact H.
  - cbn [bytes list_ascii_of_string app scan_number].
    change (list_ascii_of_string (NilEmpty.string_of_uint (Pos.to_uint p)))
      with (bytes (NilEmpty.string_of_uint (Pos.to_uint p))).
    cbn [Ascii.eqb Bool.eqb andb]. cbv iota.
    rewrite (scan_unsigned_pos p rest Hc). reflexivity.
Qed.

Lemma itoa_head :
  forall z, exists c l,
    bytes (itoa z) = c :: l /\ (isDigit c = true \/ c = "-"%char).
Proof.
  intros z. unfold itoa. destruct z as [|p|p]; cbn [Z.to_int NilEmpty.string_of_int].
  - exists "0"%char, []. split; [reflexivity | left; reflexivity].
  - pose proof (DecimalPos.Unsigned.to_uint_nonnil p) as Hnil.
    pose proof (uint_digits (Pos.to_uint p)) as Hd.
    destruct (bytes (NilEmpty.string_of_uint (Pos.to_uint p))) as [|c l] eqn:Hb.
    + destruct (Pos.to_uint p); try discriminate Hb. contradiction Hnil; reflexivity.
    + exists c, l. split; [reflexivity|]. left. inversion Hd; assumption.
  - eexists. eexists. split; [reflexivity | right; reflexivity].
Qed.

Lemma parse_value_number :
  forall z fuel depth c rest, number_end c ->
    parse_value (S fuel) depth (bytes (itoa z) ++ c :: rest)
    = Some (JNumber (bytes (itoa z)), c :: rest).
Proof.
  intros z fuel depth c rest Hc.
  pose proof (scan_number_itoa z rest Hc) as Hs.
  destruct (itoa_head z) as (c0 & l & Hb & Hc0). rewrite Hb in *.
  cbn [app parse_value] in *.
  assert (Hws : isSpace c0 = false).
  { destruct Hc0 as [H | ->]; [|reflexivity].
    destruct c0 as [[] [] [] [] [] [] [] []]; try discriminate H; reflexivity. }
  cbn [skip_ws]. rewrite Hws.
  assert (Hk : Ascii.eqb c0 dquote = false /\ Ascii.eqb c0 "{" = false
               /\ Ascii.eqb c0 "[" = false /\ Ascii.eqb c0 "t" = false
               /\ Ascii.eqb c0 "f" = false /\ Ascii.eqb c0 "n" = false).
  { destruct Hc0 as [H | ->]; [|repeat split; reflexivity].
    destruct c0 as [[] [] [] [] [] [] [] []]; try discriminate H; repeat split; reflexivity. }
  destruct Hk as (-> & -> & -> & -> & -> & ->).
  rewrite Hs. reflexivity.
Qed.


Lemma scan_string_printable :
  forall s raw rest, scan_string s = Some (raw, rest) -> Forall printable raw.
Proof.
  assert (Hc : forall pre r raw rest,
             Forall printable pre ->
             (forall raw' rest', r = Some (raw', rest') -> Forall printable raw') ->
             consumed pre r = Some (raw, rest) -> Forall printable raw).
  { intros pre r raw rest Hpre Hr H. destruct r as [[raw' rest']|]; [|discriminate H].
    simpl in H. inversion H; subst. apply Forall_app. split; [exact Hpre|].
    eapply Hr. reflexivity. }
  fix IH 1.
  intros s raw rest H. destruct s as [|c r]; [discriminate H|].
  cbn [scan_string] in H.
  destruct (Ascii.eqb c dquote) eqn:Hq; [inversion H; constructor|].
  destruct (Ascii.eqb_spec c backslash) as [-> | Hb].
  - destruct r as [|e r']; [discriminate H|].
    destruct (Ascii.eqb e dquote || one_of "\/bfnrt" e)%bool eqn:He.
    + eapply Hc; [| |exact H].
      * constructor; [reflexivity|]. constructor; [|constructor].
        destruct e as [[] [] [] [] [] [] [] []]; try discriminate He; reflexivity.
      * intros raw' rest' Hr. eapply IH. exact Hr.
    + destruct (Ascii.eqb_spec e "u") as [-> | _]; [|discriminate H].
      destruct r' as [|h1 [|h2 [|h3 [|h4 r'']]]]; try discriminate H.
      destruct (isHex h1 && isHex h2 && isHex h3 && isHex h4)%bool eqn:Hh; [|discriminate H].
      apply andb_true_iff in Hh. destruct Hh as [Hh H4].
      apply andb_true_iff in Hh. destruct Hh as [Hh H3].
      apply andb_true_iff in Hh. destruct Hh as [H1 H2].
      assert (Hp : forall h, isHex h = true -> printable h).
      { intros h Hx. destruct h as [[] [] [] [] [] [] [] []]; try discriminate Hx; reflexivity. }
      eapply Hc; [| |exact H].
      * repeat constructor; auto.
      * intros raw' rest' Hr. eapply IH. exact Hr.
  - destruct (byteN c <? 32)%N eqn:H32; [discriminate H|].
    eapply Hc; [| |exact H].
    + constructor; [exact H32 | constructor].
    + intros raw' rest' Hr. eapply IH. exact Hr.
Qed.

Lemma plain_printable : forall X, Forall plain X -> Forall printable X.
Proof. intros X H. eapply Forall_impl; [|exact H]. intros c (_ & _ & Hc). exact Hc. Qed.

Lemma quote_body_printable : forall s, Forall printable (quote_body s).
Proof.
  intros s. eapply scan_string_printable. apply (scan_string_body _ _ []).
Qed.

Lemma dquote_printable : printable dquote.
Proof. reflexivity. Qed.

Lemma parses_string :
  forall key s, Forall plain (bytes key) -> parses (string_member key s).
Proof.
  intros key s Hk. unfold parses, string_member. split; [exact Hk|]. split.
  - constructor; [apply dquote_printable|]. apply Forall_app. split.
    + apply quote_body_printable.
    + constructor; [apply dquote_printable | constructor].
  - intros fuel depth c rest Hc.
    cbn [app parse_value skip_ws]. change (isSpace dquote) with false. cbv iota.
    change (Ascii.eqb dquote dquote) with true. cbv iota.
    rewrite <- app_assoc. cbn [app]. unfold quote_body. rewrite scan_string_body. reflexivity.
Qed.

Lemma parses_time :
  forall key t, Forall plain (bytes key) -> parses (time_member key t).
Proof.
  intros key t Hk. unfold parses, time_member. split; [exact Hk|]. split.
  - constructor; [apply dquote_printable|]. apply Forall_app. split.
    + apply plain_printable, formatRFC3339_plain.
    + constructor; [apply dquote_printable | constructor].
  - intros fuel depth c rest Hc.
    cbn [app parse_value skip_ws]. change (isSpace dquote) with false. cbv iota.
    change (Ascii.eqb dquote dquote) with true. cbv iota.
    rewrite <- app_assoc. cbn [app].
    rewrite (scan_string_plain _ (formatRFC3339_plain t)). reflexivity.
Qed.

Lemma itoa_printable : forall z, Forall printable (bytes (itoa z)).
Proof.
  intros z. unfold itoa.
  assert (H : forall d, Forall printable (bytes (DecimalString.NilEmpty.string_of_uint d))).
  { intros d. eapply Forall_impl; [|apply uint_digits].
    intros c Hc. destruct c as [[] [] [] [] [] [] [] []]; try discriminate Hc; reflexivity. }
  destruct z; cbn [Z.to_int DecimalString.NilEmpty.string_of_int].
  - apply H.
  - apply H.
  - constructor; [reflexivity | apply H].
Qed.

Lemma parses_int :
  forall key z, Forall plain (bytes key) -> parses (int_member key z).
Proof.
  intros key z Hk. unfold parses, int_member. split; [exact Hk|]. split.
  - apply itoa_printable.
  - intros fuel depth c rest Hc. apply parse_value_number. exact Hc.
Qed.

Lemma parses_optional :
  forall key s, Forall plain (bytes key) -> Forall parses (optional_member key s).
Proof.
  intros key s Hk. unfold optional_member. destruct s; [constructor|].
  constructor; [apply parses_string; exact Hk | constructor].
Qed.

Lemma plain_key : forall key, forallb (fun c => negb (Ascii.eqb c dquote) && negb (Ascii.eqb c backslash) && negb (byteN c <? 32)%N) (bytes key) = true -> Forall plain (bytes key).
Proof.
  intros key H. rewrite forallb_forall in H. apply Forall_forall. intros c Hc.
  specialize (H c Hc). apply andb_true_iff in H. destruct H as [H H3].
  apply andb_true_iff in H. destruct H as [H1 H2].
  unfold plain. repeat split; apply negb_true_iff; assumption.
Qed.

Lemma entry_members_parse : forall e, Forall parses (entry_members e).
Proof.
  intros e. unfold entry_members.
  repeat (apply Forall_app; split);
    try (apply parses_optional; apply plain_key; reflexivity);
    repeat (constructor;
            [first [apply parses_time | apply parses_string | apply parses_int];
             apply plain_key; reflexivity |]);
    constructor.
Qed.

Lemma render_cons :
  forall m ms, ms <> [] -> render (m :: ms) = (member_text m ++ ","%char :: render ms)%list.
Proof. intros m ms H. destruct ms; [contradiction H; reflexivity | reflexivity]. Qed.

Lemma member_text_head :
  forall m, exists tail, member_text m = dquote :: tail.
Proof. intros [[k t] v]. eexists. reflexivity. Qed.

Lemma render_head :
  forall ms, ms <> [] -> exists tail, render ms = dquote :: tail.
Proof.
  intros [|m ms] H; [contradiction H; reflexivity|].
  destruct (member_text_head m) as (tail & Ht).
  destruct ms as [|m' ms].
  - exists tail. exact Ht.
  - rewrite render_cons by discriminate. rewrite Ht. eexists. reflexivity.
Qed.

Lemma parse_member :
  forall m fuel depth c rest,
    parses m -> number_end c -> (0 < fuel)%nat ->
    exists r4,
      skip_ws (member_text m ++ c :: rest) = dquote :: r4
      /\ scan_string r4 = Some (fst (member_value m),
                                ":"%char :: (snd (fst m) ++ c :: rest)%list)
      /\ parse_value fuel depth (snd (fst m) ++ c :: rest)
         = Some (snd (member_value m), c :: rest).
Proof.
  intros [[key txt] v] fuel depth c rest (Hk & _ & Hp) Hc Hfuel.
  cbn [member_text member_value fst snd].
  exists ((bytes key ++ dquote :: ":"%char :: txt) ++ c :: rest)%list.
  split; [reflexivity|]. split.
  - rewrite <- app_assoc. cbn [app]. rewrite (scan_string_plain _ Hk). reflexivity.
  - destruct fuel as [|fuel]; [lia|]. apply Hp. exact Hc.
Qed.

Lemma parse_members_render :
  forall ms, ms <> [] -> Forall parses ms ->
    forall fuel depth rest,
      (List.length ms < fuel)%nat ->
      parse_members fuel depth (render ms ++ "}"%char :: rest)
      = Some (map member_value ms, rest).
Proof.
  induction ms as [|m ms IH]; intros Hne Hall fuel depth rest Hfuel;
    [contradiction Hne; reflexivity|].
  inversion Hall as [|m0 ms0 Hm Hms]; subst.
  destruct fuel as [|fuel]; [simpl in Hfuel; lia|].
  assert (Hpos : (0 < fuel)%nat) by (simpl in Hfuel; lia).
  destruct ms as [|m' ms].
  - cbn [render map].
    destruct (@parse_member m fuel depth "}"%char rest Hm (or_intror eq_refl) Hpos)
      as (r4 & Hws & Hscan & Hval).
    cbn [parse_members]. rewrite Hws.
    change (Ascii.eqb dquote dquote) with true. cbv iota.
    rewrite Hscan. cbn [skip_ws]. change (isSpace ":") with false. cbv iota.
    change (Ascii.eqb ":" ":") with true. cbv iota.
    rewrite Hval. cbn [skip_ws]. change (isSpace "}") with false. cbv iota.
    change (Ascii.eqb "}" ",") with false. change (Ascii.eqb "}" "}") with true.
    cbv iota. destruct m as [[k t] v]. reflexivity.
  - rewrite render_cons by discriminate.
    rewrite <- app_assoc. cbn [app].
    destruct (@parse_member m fuel depth ","%char
                (render (m' :: ms) ++ "}"%char :: rest)%list Hm (or_introl eq_refl) Hpos)
      as (r4 & Hws & Hscan & Hval).
    cbn [parse_members]. rewrite Hws.
    change (Ascii.eqb dquote dquote) with true. cbv iota.
    rewrite Hscan. cbn [skip_ws]. change (isSpace ":") with false. cbv iota.
    change (Ascii.eqb ":" ":") with true. cbv iota.
    rewrite Hval. cbn [skip_ws]. change (isSpace ",") with false. cbv iota.
    change (Ascii.eqb "," ",") with true. cbv iota.
    rewrite (IH ltac:(discriminate) Hms fuel depth rest) by (simpl in *; lia).
    destruct m as [[k t] v]. reflexivity.
Qed.

Lemma render_length : forall ms, (List.length ms <= List.length (render ms))%nat.
Proof.
  induction ms as [|m ms IH]; [simpl; lia|].
  destruct (member_text_head m) as (tail & Ht).
  destruct ms as [|m' ms].
  - cbn [render]. rewrite Ht. simpl. lia.
  - rewrite render_cons by discriminate. rewrite length_app. cbn [List.length] in *. lia.
Qed.

Lemma parse_json_object :
  forall ms, ms <> [] -> Forall parses ms ->
    parse_json ("{"%char :: render ms ++ ["}"%char]) = Some (JObject (map member_value ms)).
Proof.
  intros ms Hne Hall. unfold parse_json.
  change maxNestingDepth with (S (Nat.pred maxNestingDepth)).
  cbn [parse_value skip_ws]. change (isSpace "{") with false. cbv iota.
  change (Ascii.eqb "{" dquote) with false. change (Ascii.eqb "{" "{") with true. cbv iota.
  destruct (render_head Hne) as (tail & Ht).
  assert (Hws : skip_ws (render ms ++ ["}"%char]) = dquote :: (tail ++ ["}"%char])%list).
  { rewrite Ht. reflexivity. }
  rewrite Hws. change (Ascii.eqb dquote "}") with false. cbv iota.
  rewrite parse_members_render; [reflexivity | exact Hne | exact Hall |].
  cbn [List.length]. rewrite length_app. pose proof (render_length ms). simpl. lia.
Qed.

Lemma str_inj_bytes : forall s l, bytes s = l -> s = str l.
Proof. intros s l <-. symmetry. apply str_bytes. Qed.

Lemma member_eq :
  forall key value txt v, bytes value = txt ->
    Logger.member key value = member_string (key, txt, v).
Proof.
  intros key value txt v <-. unfold member_string, member_text, Logger.member.
  apply str_inj_bytes. cbn [bytes list_ascii_of_string]. f_equal.
  change (list_ascii_of_string ?x) with (bytes x).
  rewrite bytes_app. reflexivity.
Qed.

Lemma bytes_appendString :
  forall s, bytes (appendString s) = (dquote :: quote_body s ++ [dquote])%list.
Proof.
  intros s. unfold appendString, quote_body. cbn [bytes list_ascii_of_string]. f_equal.
  change (list_ascii_of_string ?x) with (bytes x).
  rewrite bytes_app, bytes_str. reflexivity.
Qed.

Lemma member_str :
  forall key s, Logger.member key (appendString s) = member_string (string_member key s).
Proof. intros key s. apply member_eq. apply bytes_appendString. Qed.

Lemma member_int :
  forall key z, Logger.member key (itoa z) = member_string (int_member key z).
Proof. intros key z. apply member_eq. reflexivity. Qed.

Lemma member_time :
  forall key t,
    Logger.member key (String dquote (formatRFC3339 t ++ String dquote EmptyString))
    = member_string (time_member key t).
Proof.
  intros key t. apply member_eq. cbn [bytes list_ascii_of_string]. f_equal.
  change (list_ascii_of_string ?x) with (bytes x).
  rewrite bytes_app. reflexivity.
Qed.

Lemma omitempty_members :
  forall key s, Logger.omitempty key s = map member_string (optional_member key s).
Proof.
  intros key s. unfold Logger.omitempty, optional_member.
  destruct s; [reflexivity|]. cbn [map]. f_equal. apply member_str.
Qed.

Lemma concat_render :
  forall ms, bytes (String.concat "," (map member_string ms)) = render ms.
Proof.
  induction ms as [|m ms IH]; [reflexivity|].
  destruct ms as [|m' ms].
  - cbn [map String.concat render]. unfold member_string. apply bytes_str.
  - rewrite render_cons by discriminate. rewrite <- IH.
    cbn [map String.concat]. rewrite !bytes_app. unfold member_string at 1.
    rewrite bytes_str. reflexivity.
Qed.


Lemma storeMembers_app :
  forall T fields (sf : T -> string -> JValue -> option T) l1 l2 old,
    storeMembers fields sf (l1 ++ l2) old
    = option_bind (storeMembers fields sf l1 old) (storeMembers fields sf l2).
Proof.
  intros T fields sf.
  induction l1 as [|[k v] l1 IH]; intros l2 old; [reflexivity|].
  cbn [app storeMembers]. destruct (unquote k) as [l|]; [|reflexivity].
  destruct (findField fields l) as [s|]; [|apply IH].
  destruct (sf old s v); [apply IH | reflexivity].
Qed.

Lemma unquote_quote_body :
  forall s, ValidString s = true -> unquote (quote_body s) = Some (bytes s).
Proof.
  intros s H. unfold unquote, quote_body, ValidString in *.
  rewrite <- bytes_length in *.
  eapply unquote_appendString_loop; [| exact H | |]; try apply Nat.le_refl.
  eapply appendString_loop_length; apply Nat.le_refl.
Qed.

Lemma storeString_quote :
  forall s old, ValidString s = true -> storeString (JString (quote_body s)) old = Some s.
Proof.
  intros s old H. cbn [storeString]. rewrite (unquote_quote_body _ H).
  cbn [option_map]. rewrite str_bytes. reflexivity.
Qed.










Lemma scan_app :
  forall old cur n ls,
    Logger.scan old cur n = (ls, None) ->
    complete old cur -> n = N.of_nat (List.length cur) ->
    forall rest,
      Logger.scan (old ++ rest) cur n
      = (let '(ls', e) := Logger.scan rest [] 0%N in ((ls ++ ls')%list, e)).
Proof.
  induction old as [|c r IH]; intros cur n ls Hs Hc Hn rest.
  - destruct Hc as [[_ ->] | (pre & Hpre)]; [|destruct pre; discriminate Hpre].
    simpl in Hn. subst n. simpl in Hs. inversion Hs; subst.
    cbn [app]. destruct (Logger.scan rest [] 0%N). reflexivity.
  - assert (Hr : forall cur', c = byte_of 10 \/ cur' = c :: cur -> complete r
                   (if Ascii.eqb c (byte_of 10) then [] else cur')).
    { intros cur' Hcase. destruct Hc as [[Habs _] | (pre & Hpre)]; [discriminate Habs|].
      destruct pre as [|p pre].
      - inversion Hpre; subst. left. split; reflexivity.
      - inversion Hpre; subst. right. exists pre. reflexivity. }
    cbn [app Logger.scan] in *.
    destruct (Ascii.eqb_spec c (byte_of 10)) as [-> | Hne].
    + destruct (Logger.scan r [] 0%N) as [ls1 e1] eqn:Hs1.
      inversion Hs; subst.
      rewrite (IH [] 0%N ls1 Hs1); [| |reflexivity].
      * destruct (Logger.scan rest [] 0%N). reflexivity.
      * specialize (Hr [] (or_introl eq_refl)).
        change (Ascii.eqb (byte_of 10) (byte_of 10)) with true in Hr. exact Hr.
    + destruct (Logger.MaxScanTokenSize <=? n + 1)%N; [discriminate Hs|].
      apply IH; [exact Hs | | cbn [List.length]; lia].
      destruct Hc as [[Habs _] | (pre & Hpre)]; [discriminate Habs|].
      destruct pre as [|p pre].
      * inversion Hpre; subst. contradiction Hne. reflexivity.
      * inversion Hpre; subst. right. exists pre. reflexivity.
Qed.

Lemma entriesOf_app :
  forall l1 l2, Logger.entriesOf (l1 ++ l2) = (Logger.entriesOf l1 ++ Logger.entriesOf l2)%list.
Proof.
  induction l1 as [|l l1 IH]; intros l2; [reflexivity|].
  cbn [app Logger.entriesOf]. rewrite IH. destruct (Logger.Unmarshal l); reflexivity.
Qed.

Lemma render_printable :
  forall ms, Forall parses ms -> Forall printable (render ms).
Proof.
  assert (Hm : forall m, parses m -> Forall printable (member_text m)).
  { intros [[k t] v] (Hk & Ht & _). cbn [member_text].
    constructor; [reflexivity|]. apply Forall_app. split; [apply plain_printable; exact Hk|].
    constructor; [reflexivity|]. constructor; [reflexivity | exact Ht]. }
  induction 1 as [|m ms Hp _ IH]; [constructor|].
  destruct ms as [|m' ms]; [apply Hm; exact Hp|].
  rewrite render_cons by discriminate.
  apply Forall_app. split; [apply Hm; exact Hp|]. constructor; [reflexivity | exact IH].
Qed.





(** * More of the program *)

(** ** The log as a history *)

Lemma Marshal_Ok_render :
  forall e data,
    Logger.Marshal e = Ok data ->
    data = str ("{"%char :: render (entry_members e) ++ ["}"%char]).
Proof.
  intros e data H.
  enough (Hr : Logger.Marshal e = Ok (str ("{"%char :: render (entry_members e) ++ ["}"%char])))
    by congruence.
  unfold Logger.Marshal, Time_MarshalJSON in *.
  destruct ((Year (Logger.Timestamp e) <? 0) || (9999 <? Year (Logger.Timestamp e)));
    [discriminate H|].
  destruct (24 <=? Z.abs (Offset (Logger.Timestamp e)) / 60); [discriminate H|].
  clear H. f_equal. apply str_inj_bytes.
  rewrite !omitempty_members, !member_str, member_int, member_time.
  change ([member_string (time_member "timestamp" (Logger.Timestamp e));
           member_string (string_member "file" (Logger.File e))])
    with (map member_string [time_member "timestamp" (Logger.Timestamp e);
                             string_member "file" (Logger.File e)]).
  change ([member_string (int_member "size" (Logger.Size e));
           member_string (string_member "method" (Logger.Method e));
           member_string (string_member "account" (Logger.Account e));
           member_string (string_member "workspace" (Logger.Workspace e));
           member_string (string_member "status" (Logger.Status e))])
    with (map member_string [int_member "size" (Logger.Size e);
                             string_member "method" (Logger.Method e);
                             string_member "account" (Logger.Account e);
                             string_member "workspace" (Logger.Workspace e);
                             string_member "status" (Logger.Status e)]).
  rewrite <- !map_app. fold (entry_members e).
  rewrite !bytes_app, concat_render. reflexivity.
Qed.

Lemma Marshal_Ok_printable :
  forall e data, Logger.Marshal e = Ok data -> Forall printable (bytes data).
Proof.
  intros e data H. rewrite (Marshal_Ok_render _ H), bytes_str.
  constructor; [reflexivity|]. apply Forall_app. split.
  - apply render_printable, entry_members_parse.
  - constructor; [reflexivity | constructor].
Qed.

(** X1: when [LogUpload] returns no error, the log file is what it was
    followed by one more line: a text without any control byte, so without
    line feed or carriage return, and a line feed after it.  This holds
    whatever bytes the strings of the entry are made of. *)
Theorem LogUpload_appends_one_line :
  forall d entry st,
    fst (Logger.LogUpload d entry st) = None ->
    exists line,
      Logger.LogFile (snd (Logger.LogUpload d entry st))
      = Some (Logger.content st ++ line ++ Logger.newline)%string
      /\ Forall printable (bytes line).
Proof.
  intros d entry st H. destruct (@LogUpload_ok d entry st H) as (data & Hm & Hf).
  exists data. split; [exact Hf|]. eapply Marshal_Ok_printable. exact Hm.
Qed.

Lemma LogUpload_appends_one_line_witness :
  exists line,
    Logger.LogFile (snd (Logger.LogUpload acme_disk latin1_entry one_line_log))
    = Some (Logger.content one_line_log ++ line ++ Logger.newline)%string
    /\ Forall printable (bytes line).
Proof.
  apply (@LogUpload_appends_one_line acme_disk latin1_entry one_line_log). reflexivity.
Defined.

Lemma string_app_assoc :
  forall a b c : string, ((a ++ b) ++ c = a ++ (b ++ c))%string.
Proof. induction a as [|x a IH]; intros b c; simpl; [reflexivity|]. rewrite IH. reflexivity. Qed.


Lemma ReadLogs_scan :
  forall d st ls e,
    Logger.Open_err d = None ->
    Logger.scan (bytes (Logger.content st)) [] 0%N = (ls, e) ->
    Logger.ReadLogs d st = (Logger.entriesOf ls, e).
Proof.
  intros d st ls e Hopen Hs. unfold Logger.ReadLogs, Logger.content in *. rewrite Hopen.
  destruct (Logger.LogFile st).
  - rewrite Hs. reflexivity.
  - simpl in Hs. inversion Hs. reflexivity.
Qed.






Lemma scan_one_line :
  forall line cur n rest,
    Forall (fun c => Ascii.eqb c (byte_of 10) = false) line ->
    (n + N.of_nat (List.length line) < Logger.MaxScanTokenSize)%N ->
    Logger.scan (line ++ byte_of 10 :: rest) cur n
    = (let '(ls, e) := Logger.scan rest [] 0%N in
       (Logger.dropCR (rev line ++ cur) :: ls, e)).
Proof.
  induction line as [|c line IH]; intros cur n rest Hp Hn.
  - cbn [app Logger.scan]. change (Ascii.eqb (byte_of 10) (byte_of 10)) with true.
    reflexivity.
  - inversion Hp as [|c' l' Hc Hl]; subst.
    cbn [app Logger.scan]. rewrite Hc.
    cbn [List.length] in Hn.
    destruct (N.leb_spec Logger.MaxScanTokenSize (n + 1)) as [Hle | _]; [lia|].
    rewrite IH by (assumption || lia).
    cbn [rev]. rewrite <- app_assoc. reflexivity.
Qed.

Lemma dropCR_one_line :
  forall l, one_line l -> Logger.dropCR (rev l ++ []) = l.
Proof.
  intros l H. rewrite app_nil_r.
  destruct (rev l) as [|c r] eqn:Hr.
  - apply (f_equal (@rev ascii)) in Hr. rewrite rev_involutive in Hr. subst l. reflexivity.
  - assert (Hc : Ascii.eqb c (byte_of 13) = false).
    { unfold one_line in H. rewrite Forall_forall in H. apply (H c).
      apply in_rev. rewrite Hr. left. reflexivity. }
    cbn [Logger.dropCR]. rewrite Hc, rev_append_rev, app_nil_r, <- Hr.
    apply rev_involutive.
Qed.

(** X3: a line that is no entry does not hide the others.  When a line
    shorter than 64 KiB that [json.Unmarshal] refuses (an empty line for
    one) stands in the log after whole lines that are read without error,
    [ReadLogs] returns what it would return were the line not there. *)
Theorem ReadLogs_skips_bad_line :
  forall d pre bad post clock,
    Logger.Open_err d = None ->
    log_complete (logOf pre clock) ->
    one_line (bytes bad) ->
    (N.of_nat (String.length bad) < Logger.MaxScanTokenSize)%N ->
    Logger.Unmarshal (bytes bad) = None ->
    Logger.ReadLogs d (logOf (pre ++ (bad ++ Logger.newline) ++ post)%string clock)
    = Logger.ReadLogs d (logOf (pre ++ post)%string clock).
Proof.
  intros d pre bad post clock Hopen (Hs & Hend) Hline Hlen Hbad.
  cbn [logOf Logger.content Logger.LogFile] in Hs, Hend.
  destruct (Logger.scan (bytes pre) [] 0%N) as [ls e] eqn:Hold.
  simpl in Hs. subst e.
  assert (Hc : complete (bytes pre) []).
  { destruct Hend as [-> | (p & ->)].
    - left. split; reflexivity.
    - right. exists (bytes p). rewrite bytes_app. reflexivity. }
  destruct (Logger.scan (bytes post) [] 0%N) as [ls2 e2] eqn:Hpost.
  rewrite (@ReadLogs_scan d (logOf (pre ++ post)%string clock) (ls ++ ls2)%list e2 Hopen).
  - rewrite (@ReadLogs_scan d _ (ls ++ bytes bad :: ls2)%list e2 Hopen).
    + rewrite !entriesOf_app. cbn [Logger.entriesOf]. rewrite Hbad. reflexivity.
    + cbn [logOf Logger.content Logger.LogFile]. unfold Logger.newline.
      rewrite !bytes_app. cbn [bytes list_ascii_of_string].
      rewrite (@scan_app _ _ _ _ Hold Hc eq_refl).
      rewrite <- app_assoc. cbn [app].
      rewrite scan_one_line.
      * change (list_ascii_of_string post) with (bytes post). rewrite Hpost.
        rewrite (dropCR_one_line Hline). reflexivity.
      * eapply Forall_impl; [|exact Hline]. intros c [Hc1 _]. exact Hc1.
      * rewrite bytes_length. lia.
  - cbn [logOf Logger.content Logger.LogFile]. rewrite bytes_app.
    rewrite (@scan_app _ _ _ _ Hold Hc eq_refl). rewrite Hpost. reflexivity.
Qed.

Lemma ReadLogs_skips_bad_line_witness :
  Logger.ReadLogs acme_disk
    (logOf ((line_ok "a.png" ++ Logger.newline)
            ++ ("not an entry" ++ Logger.newline)
            ++ (line_ok "b.png" ++ Logger.newline))%string 0)
  = Logger.ReadLogs acme_disk
      (logOf ((line_ok "a.png" ++ Logger.newline)
              ++ (line_ok "b.png" ++ Logger.newline))%string 0).
Proof.
  apply (@ReadLogs_skips_bad_line acme_disk (line_ok "a.png" ++ Logger.newline)%string
           "not an entry" (line_ok "b.png" ++ Logger.newline)%string 0%nat).
  - reflexivity.
  - split; [reflexivity|]. right. exists (line_ok "a.png"). reflexivity.
  - repeat constructor.
  - reflexivity.
  - reflexivity.
Defined.

Lemma ReadLogs_keeps_loose_time_stamp :
  Time_UnmarshalJSON (bytes "2025-10-23T9:05:00,5-03:00")
  = Some {| Year := 2025; Month := 10; Day := 23; Hour := 9; Minute := 5; Second := 0;
            Nanosecond := 500000000; Offset := -180 |}
  /\ parseRFC3339 (bytes "2025-10-23T9:05:00,5-03:00") = None
  /\ exists e,
       Logger.ReadLogs acme_disk (logOf (loose_line ++ Logger.newline) 0) = ([e], None)
       /\ Logger.File e = "a.png"%string /\ Hour (Logger.Timestamp e) = 9.
Proof.
  split; [reflexivity|]. split; [reflexivity|].
  eexists. split; [vm_compute; reflexivity|]. split; reflexivity.
Qed.



(** ** The command [logs] *)

Lemma filterEntries_acc :
  forall status method es acc,
    fold_left
      (fun filtered entry =>
         if (negb (String.eqb status EmptyString)
             && negb (String.eqb (Logger.Status entry) status))%bool then filtered
         else if (negb (String.eqb method EmptyString)
                  && negb (String.eqb (Logger.Method entry) method))%bool then filtered
         else (filtered ++ [entry])%list)
      es acc
    = (acc ++ filter (selected status method) es)%list.
Proof.
  intros status method. induction es as [|e es IH]; intros acc; cbn [fold_left filter].
  - rewrite app_nil_r. reflexivity.
  - rewrite IH. unfold selected at 2.
    destruct (String.eqb status EmptyString), (String.eqb (Logger.Status e) status),
      (String.eqb method EmptyString), (String.eqb (Logger.Method e) method);
      cbn [negb andb orb]; try reflexivity; rewrite <- app_assoc; reflexivity.
Qed.

Lemma filterEntries_filter :
  forall es status method,
    Logs.filterEntries es status method = filter (selected status method) es.
Proof. intros es status method. apply filterEntries_acc. Qed.

Lemma filter_filter :
  forall (A : Type) (p q : A -> bool) l,
    filter p (filter q l) = filter (fun x => q x && p x) l.
Proof.
  induction l as [|x l IH]; [reflexivity|]. cbn [filter].
  destruct (q x); cbn [filter andb]; [destruct (p x)|]; rewrite IH; reflexivity.
Qed.

Lemma filter_all :
  forall (A : Type) (p : A -> bool) l, (forall x, p x = true) -> filter p l = l.
Proof.
  intros A p l H. induction l as [|x l IH]; [reflexivity|].
  cbn [filter]. rewrite H, IH. reflexivity.
Qed.

(** X5: [filterEntries] keeps the entries that pass both filters, and
    these only, in the order of the log; a filter that is empty lets
    every entry pass, so that without filters every entry is kept. *)
Theorem filterEntries_keeps_selected :
  forall es status method,
    Logs.filterEntries es status method = filter (selected status method) es
    /\ (forall e, In e (Logs.filterEntries es status method)
                  <-> In e es
                      /\ (status = EmptyString \/ Logger.Status e = status)
                      /\ (method = EmptyString \/ Logger.Method e = method))
    /\ Logs.filterEntries es EmptyString EmptyString = es.
Proof.
  intros es status method. split; [apply filterEntries_filter|]. split.
  - intros e. rewrite filterEntries_filter, filter_In. unfold selected.
    rewrite andb_true_iff, !orb_true_iff, !String.eqb_eq. reflexivity.
  - rewrite filterEntries_filter. apply filter_all. reflexivity.
Qed.

(** X6: the filters compose.  To filter by status and then by method, or
    by method and then by status, is to filter by both at once; to filter
    twice by the same is to filter once; and the entries kept of a log
    that has grown are the ones kept before followed by the ones kept of
    what was added. *)
Theorem filterEntries_compose :
  forall es es' status method,
    Logs.filterEntries (Logs.filterEntries es status EmptyString) EmptyString method
    = Logs.filterEntries es status method
    /\ Logs.filterEntries (Logs.filterEntries es EmptyString method) status EmptyString
       = Logs.filterEntries es status method
    /\ Logs.filterEntries (Logs.filterEntries es status method) status method
       = Logs.filterEntries es status method
    /\ Logs.filterEntries (es ++ es') status method
       = (Logs.filterEntries es status method ++ Logs.filterEntries es' status method)%list.
Proof.
  intros es es' status method. rewrite !filterEntries_filter, !filter_filter.
  repeat split.
  - apply filter_ext. intros e. unfold selected. cbn [String.eqb orb andb].
    rewrite andb_true_r. reflexivity.
  - apply filter_ext. intros e. unfold selected. cbn [String.eqb orb andb].
    rewrite andb_true_r. apply andb_comm.
  - apply filter_ext. intros e. destruct (selected status method e); reflexivity.
  - apply filter_app.
Qed.

Lemma printLogsSummary_counts :
  forall es s0,
    let s := fold_left
      (fun s entry =>
         let '(successCount, failedCount) :=
           if String.eqb (Logger.Status entry) "success"
           then (Logs.successCount s + 1, Logs.failedCount s)
           else (Logs.successCount s, Logs.failedCount s + 1) in
         let '(cmsCount, graphqlCount) :=
           if String.eqb (Logger.Method entry) "cms"
           then (Logs.cmsCount s + 1, Logs.graphqlCount s)
           else if String.eqb (Logger.Method entry) "graphql"
           then (Logs.cmsCount s, Logs.graphqlCount s + 1)
           else (Logs.cmsCount s, Logs.graphqlCount s) in
         {| Logs.total := Logs.total s; Logs.successCount := successCount;
            Logs.failedCount := failedCount;
            Logs.cmsCount := cmsCount; Logs.graphqlCount := graphqlCount |})
      es s0 in
    Logs.total s = Logs.total s0
    /\ Logs.successCount s
       = Logs.successCount s0 + count (fun e => String.eqb (Logger.Status e) "success") es
    /\ Logs.failedCount s
       = Logs.failedCount s0
         + count (fun e => negb (String.eqb (Logger.Status e) "success")) es
    /\ Logs.cmsCount s
       = Logs.cmsCount s0 + count (fun e => String.eqb (Logger.Method e) "cms") es
    /\ Logs.graphqlCount s
       = Logs.graphqlCount s0 + count (fun e => String.eqb (Logger.Method e) "graphql") es.
Proof.
  unfold count. induction es as [|e es IH]; intros s0; cbn zeta.
  - cbn [fold_left filter List.length]. repeat split; lia.
  - cbn [fold_left filter].
    match goal with |- context [fold_left _ es ?s1] => specialize (IH s1) end.
    cbn zeta in IH. destruct IH as (H1 & H2 & H3 & H4 & H5).
    rewrite H1, H2, H3, H4, H5. clear.
    destruct (String.eqb (Logger.Status e) "success");
      destruct (String.eqb (Logger.Method e) "cms") eqn:Hc;
      [ rewrite (proj1 (String.eqb_eq _ _) Hc) | | rewrite (proj1 (String.eqb_eq _ _) Hc) | ];
      cbn [String.eqb Ascii.eqb Bool.eqb andb negb];
      try destruct (String.eqb (Logger.Method e) "graphql");
      cbn [List.length Logs.total Logs.successCount Logs.failedCount Logs.cmsCount
             Logs.graphqlCount negb];
      repeat split; lia.
Qed.

Lemma count_split :
  forall p es, count p es + count (fun e => negb (p e)) es = Z.of_nat (List.length es).
Proof.
  intros p es. unfold count. induction es as [|e es IH]; [reflexivity|].
  cbn [filter]. destruct (p e); cbn [negb List.length]; lia.
Qed.

Lemma count_disjoint :
  forall p q es,
    (forall e, p e = true -> q e = false) ->
    count p es + count q es <= Z.of_nat (List.length es).
Proof.
  intros p q es H. unfold count. induction es as [|e es IH]; [simpl; lia|].
  cbn [filter]. specialize (H e). destruct (p e).
  - rewrite H by reflexivity. cbn [List.length]. lia.
  - destruct (q e); cbn [List.length]; lia.
Qed.

Lemma printLogsSummary_spec :
  forall es,
    let s := Logs.printLogsSummary es in
    Logs.total s = Z.of_nat (List.length es)
    /\ Logs.successCount s = count (fun e => String.eqb (Logger.Status e) "success") es
    /\ Logs.failedCount s = Logs.total s - Logs.successCount s
    /\ Logs.cmsCount s = count (fun e => String.eqb (Logger.Method e) "cms") es
    /\ Logs.graphqlCount s = count (fun e => String.eqb (Logger.Method e) "graphql") es
    /\ Logs.cmsCount s + Logs.graphqlCount s <= Logs.total s.
Proof.
  intros es.
  pose proof (printLogsSummary_counts es
                {| Logs.total := Z.of_nat (List.length es); Logs.successCount := 0;
                   Logs.failedCount := 0; Logs.cmsCount := 0; Logs.graphqlCount := 0 |})
    as H.
  cbn zeta in *. fold (Logs.printLogsSummary es) in H.
  destruct H as (H1 & H2 & H3 & H4 & H5).
  cbn [Logs.total Logs.successCount Logs.failedCount Logs.cmsCount Logs.graphqlCount] in *.
  pose proof (count_split (fun e => String.eqb (Logger.Status e) "success") es) as Hs.
  pose proof (@count_disjoint (fun e => String.eqb (Logger.Method e) "cms")
                (fun e => String.eqb (Logger.Method e) "graphql") es) as Hm.
  assert (Hd : forall e, String.eqb (Logger.Method e) "cms" = true ->
                         String.eqb (Logger.Method e) "graphql" = false).
  { intros e He. apply String.eqb_eq in He. rewrite He. reflexivity. }
  specialize (Hm Hd).
  repeat split; lia.
Qed.

(** X7: the summary of the logs adds up.  [printLogsSummary] reports the
    number of the entries, the number of those whose status is
    [success], as failed all the others, and the numbers of the entries
    of either method, which are together at most the number of the
    entries. *)
Theorem printLogsSummary_adds_up :
  forall es,
    let s := Logs.printLogsSummary es in
    Logs.total s = Z.of_nat (List.length es)
    /\ Logs.successCount s = count (fun e => String.eqb (Logger.Status e) "success") es
    /\ Logs.failedCount s = Logs.total s - Logs.successCount s
    /\ Logs.cmsCount s = count (fun e => String.eqb (Logger.Method e) "cms") es
    /\ Logs.graphqlCount s = count (fun e => String.eqb (Logger.Method e) "graphql") es
    /\ Logs.cmsCount s + Logs.graphqlCount s <= Logs.total s.
Proof. exact printLogsSummary_spec. Qed.

Lemma skipn_suffix :
  forall (A : Type) (l : list A) (limit : Z),
    0 < limit < Z.of_nat (List.length l) ->
    l = (firstn (Z.to_nat (Z.of_nat (List.length l) - limit)) l
         ++ skipn (Z.to_nat (Z.of_nat (List.length l) - limit)) l)%list
    /\ Z.of_nat (List.length (skipn (Z.to_nat (Z.of_nat (List.length l) - limit)) l)) = limit
    /\ firstn (Z.to_nat (Z.of_nat (List.length l) - limit)) l <> [].
Proof.
  intros A l limit H. split; [symmetry; apply firstn_skipn|]. split.
  - rewrite length_skipn. lia.
  - intros Hn. apply (f_equal (@List.length A)) in Hn.
    rewrite length_firstn in Hn. simpl in Hn. lia.
Qed.

Lemma runLogs_listing :
  forall d remove_err ask f st display tot flt summary st',
    Logs.runLogs d remove_err ask f st
    = ((None, [Logs.Listing display tot flt summary]), st') ->
    st' = st
    /\ exists entries older,
         Logger.ReadLogs d st = (entries, None)
         /\ tot = Z.of_nat (List.length entries)
         /\ Logs.filterEntries entries (Logs.logsStatus f) (Logs.logsMethod f)
            = (older ++ display)%list
         /\ display <> []
         /\ (0 < Logs.logsLimit f ->
             Z.of_nat (List.length display) <= Logs.logsLimit f
             /\ (older <> [] -> Z.of_nat (List.length display) = Logs.logsLimit f))
         /\ (Logs.logsLimit f <= 0 -> older = [])
         /\ summary = Logs.printLogsSummary (older ++ display).
Proof.
  intros d remove_err ask f st display tot flt summary st' H.
  unfold Logs.runLogs in H. destruct (Logs.logsClear f).
  { unfold Logs.clearLogsWithConfirmation in H.
    destruct (Logger.ReadLogs d st) as [entries [msg|]]; [discriminate H|].
    destruct (List.length entries =? 0)%nat; [discriminate H|].
    destruct (negb (ask "Are you sure you want to clear all logs?"%string)); [discriminate H|].
    destruct (Logger.ClearLogs remove_err st) as [[msg|] st'']; discriminate H. }
  destruct (Logger.GetLogPath d); [discriminate H|].
  destruct (Logger.ReadLogs d st) as [entries [msg|]]; [discriminate H|].
  destruct (List.length entries =? 0)%nat; [discriminate H|].
  set (filtered := Logs.filterEntries entries (Logs.logsStatus f) (Logs.logsMethod f)) in *.
  destruct (List.length filtered =? 0)%nat eqn:Hlen; [discriminate H|].
  apply Nat.eqb_neq in Hlen. cbv zeta in H.
  destruct ((0 <? Logs.logsLimit f)
            && (Logs.logsLimit f <? Z.of_nat (List.length filtered))) eqn:Hlim.
  - apply andb_true_iff in Hlim. destruct Hlim as [H0 H1].
    apply Z.ltb_lt in H0. apply Z.ltb_lt in H1.
    destruct (@skipn_suffix _ filtered (Logs.logsLimit f) (conj H0 H1)) as (Hsplit & Hl & Hne).
    injection H as Hd Ht Hf Hs Hst. subst st'. split; [reflexivity|].
    exists entries,
      (firstn (Z.to_nat (Z.of_nat (List.length filtered) - Logs.logsLimit f)) filtered).
    rewrite <- Hd.
    split; [reflexivity|]. split; [symmetry; exact Ht|]. split; [exact Hsplit|].
    split; [intros Hn; rewrite Hn in Hl; simpl in Hl; lia|].
    split; [intros _; split; [lia | intros _; exact Hl]|].
    split; [intros Hn; lia|].
    rewrite <- Hsplit. symmetry. exact Hs.
  - injection H as Hd Ht Hf Hs Hst. subst st'. split; [reflexivity|].
    exists entries, []. rewrite <- Hd. cbn [app].
    split; [reflexivity|]. split; [symmetry; exact Ht|]. split; [reflexivity|].
    split; [intros Hn; rewrite Hn in Hlen; apply Hlen; reflexivity|].
    split.
    + intros H0. apply andb_false_iff in Hlim. destruct Hlim as [Hl | Hl].
      * apply Z.ltb_ge in Hl. lia.
      * apply Z.ltb_ge in Hl. split; [lia | intros Hn; contradiction Hn; reflexivity].
    + split; [reflexivity | symmetry; exact Hs].
Qed.

(** X8: what [runLogs] lists.  When the command lists entries, these are
    the last entries of the log that pass the filters: all of them when
    the limit is zero or below, and otherwise as many as the limit
    allows, exactly that many when some are left out.  The summary below
    the list is the summary of all the entries that pass the filters, and
    the log is left as it is. *)
Theorem runLogs_lists_most_recent :
  forall d remove_err ask f st display tot flt summary st',
    Logs.runLogs d remove_err ask f st
    = ((None, [Logs.Listing display tot flt summary]), st') ->
    st' = st
    /\ exists entries older,
         Logger.ReadLogs d st = (entries, None)
         /\ tot = Z.of_nat (List.length entries)
         /\ Logs.filterEntries entries (Logs.logsStatus f) (Logs.logsMethod f)
            = (older ++ display)%list
         /\ display <> []
         /\ (0 < Logs.logsLimit f ->
             Z.of_nat (List.length display) <= Logs.logsLimit f
             /\ (older <> [] -> Z.of_nat (List.length display) = Logs.logsLimit f))
         /\ (Logs.logsLimit f <= 0 -> older = [])
         /\ summary = Logs.printLogsSummary (older ++ display).
Proof. exact runLogs_listing. Qed.

(** X9: the log is cleared by consent only.  [clearLogsWithConfirmation]
    leaves the log as it is, or else the log could be read, held an entry
    at least, the user answered yes to the question, and the file is
    gone. *)
Theorem clearLogs_by_consent :
  forall d remove_err ask st,
    snd (Logs.clearLogsWithConfirmation d remove_err ask st) = st
    \/ (ask clearQuestion = true
        /\ snd (Logger.ReadLogs d st) = None
        /\ fst (Logger.ReadLogs d st) <> []
        /\ Logger.LogFile (snd (Logs.clearLogsWithConfirmation d remove_err ask st)) = None
        /\ fst (fst (Logs.clearLogsWithConfirmation d remove_err ask st)) = None).
Proof.
  intros d remove_err ask st. unfold Logs.clearLogsWithConfirmation, clearQuestion.
  destruct (Logger.ReadLogs d st) as [entries [msg|]]; [left; reflexivity|].
  destruct entries as [|e entries]; [left; reflexivity|]. cbn [List.length Nat.eqb].
  destruct (ask "Are you sure you want to clear all logs?"%string); [|left; reflexivity].
  cbn [negb]. unfold Logger.ClearLogs.
  destruct (Logger.LogFile st) eqn:Hf; [|left; reflexivity].
  destruct remove_err; [left; reflexivity|].
  right. repeat split; try reflexivity. discriminate.
Qed.

(** X10: a log that cannot be read can be neither shown nor cleared.
    When [ReadLogs] returns an error, and a line of 64 KiB is enough for
    that, [runLogs] returns this error with or without the flag
    [--clear], asks nothing and leaves the log file where it is. *)
Theorem runLogs_unreadable_log :
  forall d remove_err ask f st msg,
    Logger.GetLogPath d = None ->
    snd (Logger.ReadLogs d st) = Some msg ->
    Logs.runLogs d remove_err ask f st = ((Some ("failed to read logs: " ++ msg)%string, []), st).
Proof.
  intros d remove_err ask f st msg Hp Hr. unfold Logs.runLogs, Logs.clearLogsWithConfirmation.
  rewrite Hp. destruct (Logger.ReadLogs d st) as [entries e]. simpl in Hr. subst e.
  destruct (Logs.logsClear f); reflexivity.
Qed.

Lemma runLogs_unreadable_log_witness :
  Logs.runLogs acme_disk None (fun _ => true)
    {| Logs.logsLimit := 50; Logs.logsStatus := EmptyString; Logs.logsMethod := EmptyString;
       Logs.logsClear := true |} log_after_success
  = ((Some "failed to read logs: bufio.Scanner: token too long"%string, []), log_after_success).
Proof.
  apply (@runLogs_unreadable_log acme_disk None (fun _ => true) _ log_after_success
           Logger.ErrTooLong).
  - reflexivity.
  - vm_compute. reflexivity.
Defined.

Lemma runLogs_lists_most_recent_witness :
  exists display tot flt summary,
    Logs.runLogs acme_disk None (fun _ => true)
      {| Logs.logsLimit := 1; Logs.logsStatus := EmptyString; Logs.logsMethod := "cms"%string;
         Logs.logsClear := false |} corrupted_log
    = ((None, [Logs.Listing display tot flt summary]), corrupted_log)
    /\ exists entries older,
         Logger.ReadLogs acme_disk corrupted_log = (entries, None)
         /\ Logs.filterEntries entries EmptyString "cms"%string = (older ++ display)%list.
Proof.
  eexists. eexists. eexists. eexists. split; [vm_compute; reflexivity|].
  destruct (@runLogs_lists_most_recent acme_disk None (fun _ => true)
              {| Logs.logsLimit := 1; Logs.logsStatus := EmptyString;
                 Logs.logsMethod := "cms"%string; Logs.logsClear := false |}
              corrupted_log _ _ _ _ corrupted_log ltac:(vm_compute; reflexivity))
    as (_ & entries & older & Hr & _ & Hf & _).
  exists entries, older. split; [exact Hr | exact Hf].
Defined.

(** ** The requests of the FilePicker *)

Lemma GetMIMEType_ValidExtensions :
  forall ext, ValidExtensions (ToLower ext) = true <-> GetMIMEType ext <> octetStream.
Proof.
  intros ext. unfold ValidExtensions, ValidExtensionsTable, GetMIMEType, octetStream.
  cbn [map_lookup].
  repeat match goal with
         | |- context [String.eqb (ToLower ext) ?l] =>
             let E := fresh "E" in
             destruct (String.eqb (ToLower ext) l) eqn:E;
             [ apply String.eqb_eq in E; rewrite ?E; vm_compute;
               split; [intros _ H; discriminate H | intros _; reflexivity] | ]
         end.
  cbn [orb]. split; [discriminate | intros H; contradiction H; reflexivity].
Qed.

(** X11: the table of the extensions and the table of the MIME types
    agree.  [GetMIMEType] knows the type of an extension, that is, returns
    something else than [application/octet-stream], exactly when
    [ValidExtensions] has the extension in lower case. *)
Theorem GetMIMEType_knows_valid_extensions :
  forall ext, ValidExtensions (ToLower ext) = true <-> GetMIMEType ext <> octetStream.
Proof. exact GetMIMEType_ValidExtensions. Qed.

Lemma ValidateFile_extension :
  forall stat filePath,
    ValidateFile stat filePath = None -> ValidExtensions (ToLower (Ext filePath)) = true.
Proof.
  intros stat filePath H. unfold ValidateFile in H.
  destruct (stat filePath) as [info | [] msg]; try discriminate H.
  destruct (IsDir info); [discriminate H|].
  destruct (Size info >? MaxFileSize); [discriminate H|].
  destruct (Size info =? 0); [discriminate H|]. cbv zeta in H.
  destruct (ValidExtensions (ToLower (Ext filePath))); [reflexivity | discriminate H].
Qed.

Lemma CMS_prepare_Ok :
  forall env c filePath info body,
    CMS_prepare env c filePath = Ok (info, body) ->
    ValidateFile (os_Stat env) filePath = None
    /\ exists requestToken file data,
         getRequestToken env c = Ok requestToken
         /\ os_Open env filePath = Ok file
         /\ file_Stat file = Ok info
         /\ file_Read file = Ok data
         /\ body = [fieldPart "requestToken" requestToken;
                    filePart "FileData" (Base filePath) (GetMIMEType (Ext filePath)) data].
Proof.
  intros env c filePath info body H. unfold CMS_prepare in H.
  destruct (ValidateFile (os_Stat env) filePath) eqn:Hv; [discriminate H|].
  destruct (getRequestToken env c) as [tok | msg]; [|discriminate H].
  destruct (os_Open env filePath) as [file | msg]; [|discriminate H].
  destruct (file_Stat file) as [fi | msg] eqn:Hst; [|discriminate H].
  destruct (buffer_err env (WriteField "requestToken")); [discriminate H|].
  cbv zeta in H.
  destruct (buffer_err env CreatePart); [discriminate H|].
  destruct (file_Read file) as [data | msg] eqn:Hrd; [|discriminate H].
  destruct (buffer_err env CopyTo); [discriminate H|].
  destruct (buffer_err env CloseWriter); [discriminate H|].
  inversion H; subst. split; [reflexivity|].
  exists tok, file, data. repeat split; assumption || reflexivity.
Qed.

Lemma GraphQL_prepare_Ok :
  forall env c filePath info body,
    GraphQL_prepare env c filePath = Ok (info, body) ->
    ValidateFile (os_Stat env) filePath = None
    /\ exists file data,
         os_Open env filePath = Ok file
         /\ file_Stat file = Ok info
         /\ file_Read file = Ok data
         /\ body = [fieldPart "operations" operationsJSON; fieldPart "map" mapJSON;
                    filePart "0" (Base filePath) (GetMIMEType (Ext filePath)) data].
Proof.
  intros env c filePath info body H. unfold GraphQL_prepare in H.
  destruct (ValidateFile (os_Stat env) filePath) eqn:Hv; [discriminate H|].
  destruct (os_Open env filePath) as [file | msg]; [|discriminate H].
  destruct (file_Stat file) as [fi | msg] eqn:Hst; [|discriminate H].
  destruct (buffer_err env (MarshalValue "operations")); [discriminate H|].
  destruct (buffer_err env (WriteField "operations")); [discriminate H|].
  destruct (buffer_err env (MarshalValue "map")); [discriminate H|].
  destruct (buffer_err env (WriteField "map")); [discriminate H|].
  cbv zeta in H.
  destruct (buffer_err env CreatePart); [discriminate H|].
  destruct (file_Read file) as [data | msg] eqn:Hrd; [|discriminate H].
  destruct (buffer_err env CopyTo); [discriminate H|].
  destruct (buffer_err env CloseWriter); [discriminate H|].
  inversion H; subst. split; [reflexivity|].
  exists file, data. repeat split; assumption || reflexivity.
Qed.

(** X12: what an upload sends.  When [UploadFile] of the FilePicker gets
    as far as its request, the body of the request has two parts: the
    token that this very call has fetched, and the content of the file
    under its base name, with the MIME type of its extension, which is
    never the fallback [application/octet-stream].  The body of the
    GraphQL upload has the operations, the map and the same file part. *)
Theorem UploadFile_request_body :
  forall env cms gql filePath info body,
    (CMS_prepare env cms filePath = Ok (info, body) ->
     exists requestToken file data,
       getRequestToken env cms = Ok requestToken
       /\ os_Open env filePath = Ok file /\ file_Read file = Ok data
       /\ body = [fieldPart "requestToken" requestToken;
                  filePart "FileData" (Base filePath) (GetMIMEType (Ext filePath)) data]
       /\ GetMIMEType (Ext filePath) <> octetStream)
    /\ (GraphQL_prepare env gql filePath = Ok (info, body) ->
        exists file data,
          os_Open env filePath = Ok file /\ file_Read file = Ok data
          /\ body = [fieldPart "operations" operationsJSON; fieldPart "map" mapJSON;
                     filePart "0" (Base filePath) (GetMIMEType (Ext filePath)) data]
          /\ GetMIMEType (Ext filePath) <> octetStream).
Proof.
  intros env cms gql filePath info body. split; intros H.
  - destruct (CMS_prepare_Ok _ _ _ H) as (Hv & tok & file & data & Ht & Ho & _ & Hr & Hb).
    exists tok, file, data. repeat split; try assumption.
    apply GetMIMEType_ValidExtensions. eapply ValidateFile_extension. exact Hv.
  - destruct (GraphQL_prepare_Ok _ _ _ H) as (Hv & file & data & Ho & _ & Hr & Hb).
    exists file, data. repeat split; try assumption.
    apply GetMIMEType_ValidExtensions. eapply ValidateFile_extension. exact Hv.
Qed.

Lemma UploadFile_request_body_witness :
  CMS_prepare (acme_env ["photos/banner.jpg"%string] (inserted "banner.jpg")) acme_cms
    "photos/banner.jpg"
  = Ok ({| Size := 10240; IsDir := false |},
        [fieldPart "requestToken" "t0k3n";
         filePart "FileData" "banner.jpg" "image/jpeg" "(image data)"])
  /\ exists requestToken file data,
       getRequestToken (acme_env ["photos/banner.jpg"%string] (inserted "banner.jpg")) acme_cms
       = Ok requestToken
       /\ os_Open (acme_env ["photos/banner.jpg"%string] (inserted "banner.jpg"))
            "photos/banner.jpg" = Ok file
       /\ file_Read file = Ok data
       /\ [fieldPart "requestToken" "t0k3n";
           filePart "FileData" "banner.jpg" "image/jpeg" "(image data)"]
          = [fieldPart "requestToken" requestToken;
             filePart "FileData" (Base "photos/banner.jpg")
               (GetMIMEType (Ext "photos/banner.jpg")) data]
       /\ GetMIMEType (Ext "photos/banner.jpg") <> octetStream.
Proof.
  split; [reflexivity|].
  apply (proj1 (@UploadFile_request_body
                  (acme_env ["photos/banner.jpg"%string] (inserted "banner.jpg"))
                  acme_cms acme_gql "photos/banner.jpg"
                  {| Size := 10240; IsDir := false |}
                  [fieldPart "requestToken" "t0k3n";
                   filePart "FileData" "banner.jpg" "image/jpeg" "(image data)"])).
  reflexivity.
Defined.

Lemma getRequestToken_refused :
  forall env c resp,
    http_NewRequest env "POST" (tokenPageURL c) = None ->
    http_Do env (tokenPageRequest c) = Client.Received resp ->
    is2xx (StatusCode resp) = false ->
    getRequestToken env c = Err (tokenPageError resp).
Proof.
  intros env c resp Hn Hd Hs. unfold getRequestToken. cbv zeta.
  change ("https://" ++ account c
          ++ ".vtexcommercestable.com.br/admin/a/PortalManagement/AddFile?fileType=images")%string
    with (tokenPageURL c).
  rewrite Hn.
  change {| ReqMethod := "POST"; ReqURL := tokenPageURL c;
            ReqHeader := AddAuthHeaders (authenticator c) []; ReqBody := [] |}
    with (tokenPageRequest c).
  rewrite Hd. unfold is2xx in Hs. apply negb_false_iff in Hs. rewrite Hs.
  unfold tokenPageError.
  destruct ((StatusCode resp =? 401) || (StatusCode resp =? 403)); [reflexivity|].
  destruct (StatusCode resp =? 302); reflexivity.
Qed.

(** X13: a token page that is refused.  When the file is valid and the
    page of the token is answered with a status outside 200..299, the
    FilePicker [UploadFile] fails with [failed to get requestToken:]
    followed by: the expired session for 401 and 403, the redirection for
    302, and the status with the body for any other status.  The upload
    is not logged. *)
Theorem UploadFile_token_page_refused :
  forall env c filePath showProgress st resp,
    ValidateFile (os_Stat env) filePath = None ->
    http_NewRequest env "POST" (tokenPageURL c) = None ->
    http_Do env (tokenPageRequest c) = Client.Received resp ->
    is2xx (StatusCode resp) = false ->
    CMS_UploadFile env c filePath showProgress st
    = (failed (newResult filePath)
         ("failed to get requestToken: " ++ tokenPageError resp)%string, st).
Proof.
  intros env c filePath showProgress st resp Hv Hn Hd Hs.
  unfold CMS_UploadFile, CMS_prepare. cbv zeta.
  rewrite Hv, (getRequestToken_refused _ _ Hn Hd Hs). reflexivity.
Qed.

Lemma UploadFile_token_page_refused_witness :
  CMS_UploadFile expired_env acme_cms "a.png" true emptyLog
  = (failed (newResult "a.png")
       ("failed to get requestToken: authentication failed (redirect): "
        ++ sessionExpired)%string, emptyLog).
Proof.
  apply (@UploadFile_token_page_refused expired_env acme_cms "a.png"%string true emptyLog
           {| StatusCode := 302; RespBody := EmptyString |});
    reflexivity.
Defined.

Lemma hex_decode :
  forall x : ascii,
    byte_of (16 * unhex (upperhex (code x / 16)) + unhex (upperhex (code x mod 16))) = x.
Proof. intros x. destruct x as [[] [] [] [] [] [] [] []]; reflexivity. Qed.

Lemma PathEscape_inj : forall a b, PathEscape a = PathEscape b -> a = b.
Proof.
  induction a as [|x a IH]; intros b H.
  - destruct b as [|y b]; [reflexivity|]. cbn [PathEscape] in H.
    destruct (shouldEscape y); discriminate H.
  - destruct b as [|y b]; cbn [PathEscape] in H.
    + destruct (shouldEscape x); discriminate H.
    + destruct (shouldEscape x) eqn:Hx, (shouldEscape y) eqn:Hy.
      * injection H as H1 H2 H3. f_equal; [|apply IH; exact H3].
        change (upperhex (code x / 16) = upperhex (code y / 16)) in H1.
        change (upperhex (code x mod 16) = upperhex (code y mod 16)) in H2.
        rewrite <- (hex_decode x), <- (hex_decode y), H1, H2. reflexivity.
      * injection H as H1 _. subst y. discriminate Hy.
      * injection H as H1 _. subst x. discriminate Hx.
      * injection H as H1 H2. f_equal; [exact H1 | apply IH; exact H2].
Qed.

Lemma string_app_inv_head :
  forall p a b : string, (p ++ a = p ++ b)%string -> a = b.
Proof.
  induction p as [|c p IH]; intros a b H; [exact H|].
  simpl in H. injection H as H. apply IH. exact H.
Qed.

(** X14: the FilePicker gives different names different addresses.  Two
    uploads for one account that return the same URL were stored by the
    server under the same name: [PathEscape] maps no two names to one
    text. *)
Theorem FilePicker_url_names_the_file :
  forall env1 env2 c body1 body2 ct1 ct2 fileName1 fileName2 url,
    uploadFilePicker env1 c body1 ct1 fileName1 = Ok url ->
    uploadFilePicker env2 c body2 ct2 fileName2 = Ok url ->
    exists resp1 ins1 resp2 ins2,
      http_Do env1 (filePickerRequest c body1 ct1) = Client.Received resp1
      /\ UnmarshalFilePicker (RespBody resp1) = Some ins1
      /\ http_Do env2 (filePickerRequest c body2 ct2) = Client.Received resp2
      /\ UnmarshalFilePicker (RespBody resp2) = Some ins2
      /\ FileNameInserted ins1 = FileNameInserted ins2.
Proof.
  intros env1 env2 c body1 body2 ct1 ct2 fileName1 fileName2 url H1 H2.
  destruct (uploadFilePicker_ok _ _ _ _ _ H1) as (resp1 & ins1 & Hd1 & _ & Hu1 & _ & E1).
  destruct (uploadFilePicker_ok _ _ _ _ _ H2) as (resp2 & ins2 & Hd2 & _ & Hu2 & _ & E2).
  exists resp1, ins1, resp2, ins2. repeat split; try assumption.
  apply PathEscape_inj. rewrite E1 in E2.
  apply string_app_inv_head in E2. apply string_app_inv_head in E2.
  apply string_app_inv_head in E2. exact E2.
Qed.

Lemma FilePicker_url_names_the_file_witness :
  exists resp1 ins1 resp2 ins2,
    http_Do (acme_env ["photos/my file.jpg"%string] (inserted "my file.jpg"))
      (filePickerRequest acme_cms [] multipartContentType) = Client.Received resp1
    /\ UnmarshalFilePicker (RespBody resp1) = Some ins1
    /\ http_Do (acme_env [] (inserted "my file.jpg"))
         (filePickerRequest acme_cms [] multipartContentType) = Client.Received resp2
    /\ UnmarshalFilePicker (RespBody resp2) = Some ins2
    /\ FileNameInserted ins1 = FileNameInserted ins2.
Proof.
  apply (@FilePicker_url_names_the_file
           (acme_env ["photos/my file.jpg"%string] (inserted "my file.jpg"))
           (acme_env [] (inserted "my file.jpg")) acme_cms [] [] multipartContentType
           multipartContentType "my file.jpg"%string "x.jpg"%string
           "https://acme.vtexassets.com/arquivos/my%20file.jpg"%string);
    reflexivity.
Defined.

Lemma PathEscape_byte_safe :
  forall c : ascii, forallb url_safe (bytes (PathEscape (String c EmptyString))) = true.
Proof. intros c. destruct c as [[] [] [] [] [] [] [] []]; reflexivity. Qed.

Lemma PathEscape_safe :
  forall s, Forall (fun c => url_safe c = true) (bytes (PathEscape s)).
Proof.
  induction s as [|c s IH]; [constructor|].
  change (String c s) with (String c EmptyString ++ s)%string.
  rewrite PathEscape_app, bytes_app. apply Forall_app. split; [|exact IH].
  apply Forall_forall. intros x Hx.
  pose proof (PathEscape_byte_safe c) as H. rewrite forallb_forall in H. apply H. exact Hx.
Qed.

(** X15: the URL of a FilePicker upload is safe to print and to follow.
    It is the address of the account's files followed by one segment,
    not empty, made of letters, digits, the marks [-_.~$&+=:@] and the
    per cent sign only: no slash, no question mark, no number sign, no
    blank, no control byte, nothing outside ASCII, whatever name the
    server stored the file under. *)
Theorem FilePicker_url_is_safe :
  forall env c body contentType fileName url,
    uploadFilePicker env c body contentType fileName = Ok url ->
    exists segment,
      url = (arquivos c ++ segment)%string
      /\ segment <> EmptyString
      /\ Forall (fun ch => url_safe ch = true) (bytes segment).
Proof.
  intros env c body contentType fileName url H.
  destruct (uploadFilePicker_ok _ _ _ _ _ H) as (resp & ins & _ & _ & _ & Hne & E).
  exists (PathEscape (FileNameInserted ins)). split; [|split].
  - rewrite E. unfold arquivos. rewrite !string_app_assoc. reflexivity.
  - intros Hn. apply Hne. apply PathEscape_inj. exact Hn.
  - apply PathEscape_safe.
Qed.

Lemma FilePicker_url_is_safe_witness :
  exists segment,
    "https://acme.vtexassets.com/arquivos/my%20file.jpg"%string
    = (arquivos acme_cms ++ segment)%string
    /\ segment <> EmptyString
    /\ Forall (fun ch => url_safe ch = true) (bytes segment).
Proof.
  apply (@FilePicker_url_is_safe
           (acme_env ["photos/my file.jpg"%string] (inserted "my file.jpg"))
           acme_cms [] multipartContentType "my file.jpg"%string).
  reflexivity.
Defined.

Lemma CheckFileExists_true_inv :
  forall env c fileName,
    fst (CheckFileExists env c fileName) = true ->
    snd (CheckFileExists env c fileName) = None
    /\ exists resp result,
         http_Do env (fileExistsRequest c fileName) = Client.Received resp
         /\ UnmarshalStringMap (RespBody resp) = Some result
         /\ map_has fileName result = true.
Proof.
  intros env c fileName H. unfold CheckFileExists in *.
  destruct (buffer_err env (WriteField fileName)); [discriminate H|].
  destruct (buffer_err env CloseWriter); [discriminate H|].
  destruct (http_NewRequest env "POST" (fileExistsEndpoint c)); [discriminate H|].
  destruct (http_Do env (fileExistsRequest c fileName)) as [m | m | resp] eqn:Hd;
    try discriminate H.
  cbv zeta in *.
  destruct (UnmarshalStringMap (RespBody resp)) as [result|] eqn:Hu; [|discriminate H].
  split; [reflexivity|]. exists resp, result.
  split; [reflexivity|]. split; [exact Hu | exact H].
Qed.

(** X16: [CheckFileExists] says that a file exists only together with no
    error, and only when the answer of the server, whatever its status,
    is a JSON object with strings for values that has the name of the
    file among its keys. *)
Theorem CheckFileExists_true_means_listed :
  forall env c fileName,
    fst (CheckFileExists env c fileName) = true ->
    snd (CheckFileExists env c fileName) = None
    /\ exists resp result,
         http_Do env (fileExistsRequest c fileName) = Client.Received resp
         /\ UnmarshalStringMap (RespBody resp) = Some result
         /\ map_has fileName result = true.
Proof. exact CheckFileExists_true_inv. Qed.

Lemma CheckFileExists_true_means_listed_witness :
  snd (CheckFileExists listing_env acme_cms "logo.png") = None.
Proof.
  apply (@CheckFileExists_true_means_listed listing_env acme_cms "logo.png"%string).
  vm_compute. reflexivity.
Defined.

Lemma unquote_loop_simple :
  forall l fuel,
    Forall simple l -> (List.length l <= fuel)%nat -> unquote_loop fuel l = Some l.
Proof.
  induction l as [|c l IH]; intros fuel Hl Hf.
  - destruct fuel; reflexivity.
  - destruct fuel as [|fuel]; [simpl in Hf; lia|].
    inversion Hl as [|c' l' [(Hq & Hb & Hc) Ha] Hl']; subst.
    cbn [unquote_loop]. rewrite Hb, Hq, Hc, Ha. cbn [orb].
    rewrite IH by (assumption || (simpl in Hf; lia)). reflexivity.
Qed.

Lemma map_has_set :
  forall (T : Type) name k (v : T) m,
    map_has name (map_set k v m) = (String.eqb k name || map_has name m)%bool.
Proof.
  intros T name k v m. unfold map_has, map_set. cbn [existsb fst].
  destruct (String.eqb k name) eqn:Hk; [reflexivity|]. cbn [orb].
  induction m as [|[k' v'] m IH]; [reflexivity|].
  cbn [filter existsb fst].
  destruct (String.eqb k' k) eqn:Hk'; cbn [negb existsb fst].
  - apply String.eqb_eq in Hk'. subst k'. rewrite Hk. exact IH.
  - rewrite IH. reflexivity.
Qed.

Lemma storeMapMembers_strings :
  forall kvs old,
    Forall (fun kv => Forall simple (bytes (fst kv)) /\ ValidString (snd kv) = true) kvs ->
    exists m,
      storeMapMembers EmptyString storeString
        (map member_value (map (fun kv => string_member (fst kv) (snd kv)) kvs)) old
      = Some m
      /\ forall name,
           map_has name m
           = (existsb (fun kv => String.eqb (fst kv) name) kvs || map_has name old)%bool.
Proof.
  induction kvs as [|[k v] kvs IH]; intros old H.
  - exists old. split; [reflexivity|]. intros name. reflexivity.
  - inversion H as [|kv kvs' [Hk Hv] Hrest]; subst. cbn [fst snd] in *.
    cbn [map member_value string_member storeMapMembers fst snd].
    unfold unquote. rewrite (unquote_loop_simple Hk (Nat.le_refl _)).
    rewrite (storeString_quote _ _ Hv), str_bytes.
    destruct (IH (map_set k v old) Hrest) as (m & Hm & Hhas).
    exists m. split; [exact Hm|]. intros name.
    rewrite Hhas, map_has_set. cbn [existsb fst].
    destruct (String.eqb k name), (existsb (fun kv => String.eqb (fst kv) name) kvs);
      reflexivity.
Qed.

Lemma UnmarshalStringMap_object :
  forall kvs,
    json_strings kvs ->
    exists m,
      UnmarshalStringMap (json_object kvs) = Some m
      /\ forall name, map_has name m = existsb (fun kv => String.eqb (fst kv) name) kvs.
Proof.
  intros kvs [Hne Hall]. unfold UnmarshalStringMap, json_object. rewrite bytes_str.
  rewrite parse_json_object.
  - cbn [storeMap].
    destruct (@storeMapMembers_strings kvs [] Hall) as (m & Hm & Hhas).
    exists m. split; [exact Hm|]. intros name. rewrite Hhas. cbn [map_has existsb].
    apply orb_false_r.
  - destruct kvs; [contradiction Hne; reflexivity | discriminate].
  - apply Forall_forall. intros x Hx. apply in_map_iff in Hx.
    destruct Hx as ([k v] & <- & Hin). rewrite Forall_forall in Hall.
    destruct (Hall _ Hin) as [Hk _]. apply parses_string. cbn [fst].
    eapply Forall_impl; [|exact Hk]. intros c [Hc _]. exact Hc.
Qed.

(** X17: what [CheckFileExists] reads in the answer.  When the request can
    be built and the server answers, with whatever status, by a JSON
    object of strings, [CheckFileExists] returns no error and says that
    the file exists exactly when its name is one of the keys of the
    object. *)
Theorem CheckFileExists_reads_keys :
  forall env c fileName resp kvs,
    buffer_err env (WriteField fileName) = None ->
    buffer_err env CloseWriter = None ->
    http_NewRequest env "POST" (fileExistsEndpoint c) = None ->
    http_Do env (fileExistsRequest c fileName) = Client.Received resp ->
    json_strings kvs ->
    RespBody resp = json_object kvs ->
    CheckFileExists env c fileName
    = (existsb (fun kv => String.eqb (fst kv) fileName) kvs, None).
Proof.
  intros env c fileName resp kvs H1 H2 H3 H4 Hk Hb. unfold CheckFileExists.
  rewrite H1, H2, H3, H4. cbv zeta. rewrite Hb.
  destruct (@UnmarshalStringMap_object kvs Hk) as (m & Hm & Hhas).
  rewrite Hm, Hhas. reflexivity.
Qed.

Lemma CheckFileExists_reads_keys_witness :
  CheckFileExists listing_env acme_cms "logo.png" = (true, None)
  /\ CheckFileExists listing_env acme_cms "LOGO.png" = (false, None).
Proof.
  assert (H : json_strings [("banner.jpg", "banner.jpg"); ("logo.png", "logo.png")]%string).
  { split; [discriminate|]. repeat constructor. }
  split.
  - apply (@CheckFileExists_reads_keys listing_env acme_cms "logo.png"%string
             {| StatusCode := 500;
                RespBody := json_object
                  [("banner.jpg", "banner.jpg"); ("logo.png", "logo.png")]%string |}
             [("banner.jpg", "banner.jpg"); ("logo.png", "logo.png")]%string);
      try reflexivity. exact H.
  - apply (@CheckFileExists_reads_keys listing_env acme_cms "LOGO.png"%string
             {| StatusCode := 500;
                RespBody := json_object
                  [("banner.jpg", "banner.jpg"); ("logo.png", "logo.png")]%string |}
             [("banner.jpg", "banner.jpg"); ("logo.png", "logo.png")]%string);
      try reflexivity. exact H.
Defined.

(** ** Pools of no worker and of one worker *)

Section NoWorkers.

Import Batch.

Variable a : Call.
Variable st0 : Logger.State.
Hypothesis none : c_concurrency a <= 0.

Lemma no_workers :
  forall p, reachable a st0 p -> workers p = [] /\ results p = [] /\ state p = st0.
Proof.
  induction 1 as [|p q Hp IH Hstep]; [repeat split; reflexivity|].
  destruct IH as (Hw & Hr & Hs).
  destruct Hstep as
    [p k Hm Hlt | p k Hm Hge | p file rest Hm | p Hm | p Hm Hall
     | p i filePath rest Hi Hch | p i Hi Hch Hcl | p i filePath Hi | p i result Hi];
    cbn [workers results state];
    try (rewrite Hw in Hi; destruct i; discriminate Hi);
    try (repeat split; assumption).
  lia.
Qed.

End NoWorkers.

Section OneWorker.

Import Batch.

Variable a : Call.
Variable st0 : Logger.State.
Hypothesis one : c_concurrency a = 1.

Lemma uploadAll_app :
  forall l1 l2 st,
    uploadAll a (l1 ++ l2) st
    = (fst (uploadAll a l1 st) ++ fst (uploadAll a l2 (snd (uploadAll a l1 st))),
       snd (uploadAll a l2 (snd (uploadAll a l1 st))))%list.
Proof.
  induction l1 as [|f l1 IH]; intros l2 st.
  - cbn [app uploadAll fst snd]. destruct (uploadAll a l2 st). reflexivity.
  - cbn [app uploadAll]. rewrite IH.
    destruct (uploadAll a l1 (snd (uploadFunc a f st))) as [rs st']. reflexivity.
Qed.

Lemma one_worker :
  forall ws i (w : Worker),
    (List.length ws <= 1)%nat -> nth_error ws i = Some w ->
    ws = [w] /\ forall w', (firstn i ws ++ w' :: skipn (S i) ws)%list = [w'].
Proof.
  intros ws i w Hl Hi. destruct ws as [|x [|y ws]]; [destruct i; discriminate Hi | |].
  - destruct i as [|i]; [|destruct i; discriminate Hi].
    inversion Hi; subst. split; reflexivity.
  - simpl in Hl. lia.
Qed.

Lemma sequential_reachable : forall p, reachable a st0 p -> sequential a st0 p.
Proof.
  induction 1 as [|p q Hp IH Hstep].
  - split; [simpl; lia|]. unfold made, todo. cbn [initial workers results fileChan main state pending app].
    destruct (uploadAll a (c_files a) st0). reflexivity.
  - pose proof (reachable_invariant Hp) as Hinv.
    destruct IH as [Hl Hseq]. unfold sequential, made, todo in *.
    destruct Hstep as
      [p k Hm Hlt | p k Hm Hge | p file rest Hm | p Hm | p Hm Hall
       | p i filePath rest Hi Hch | p i Hi Hch Hcl | p i filePath Hi | p i result Hi];
      cbn [workers results fileChan main state] in *; unfold setWorker;
      try (destruct (@one_worker _ _ _ Hl Hi) as [Hws Hset]; rewrite Hset; rewrite Hws in Hseq);
      try rewrite Hm in Hseq; try rewrite Hch in Hseq; cbn [pending app] in *.
    + pose proof (inv_started Hinv) as Hs. rewrite Hm in Hs.
      assert (Hk : k = 0%nat) by lia. rewrite Hk in Hs.
      destruct (workers p); [|discriminate Hs].
      split; [simpl; lia|]. exact Hseq.
    + split; [exact Hl | exact Hseq].
    + split; [exact Hl|].
      replace ((fileChan p ++ [file]) ++ rest)%list with (fileChan p ++ file :: rest)%list
        by (rewrite <- app_assoc; reflexivity).
      exact Hseq.
    + split; [exact Hl | exact Hseq].
    + split; [exact Hl | exact Hseq].
    + split; [simpl; lia | exact Hseq].
    + split; [simpl; lia|]. rewrite Hch. exact Hseq.
    + split; [simpl; lia|]. rewrite Hseq. cbn [uploadAll].
      destruct (uploadAll a (fileChan p ++ pending a (main p))
                  (snd (uploadFunc a filePath (state p)))) as [rs st'].
      cbn [fst snd]. rewrite app_nil_r, <- app_assoc. reflexivity.
    + split; [simpl; lia|]. rewrite app_nil_r. exact Hseq.
Qed.

Lemma one_worker_returns :
  forall p, reachable a st0 p -> main p = Returned ->
            (results p, state p) = uploadAll a (c_files a) st0.
Proof.
  intros p Hp Hm. pose proof (reachable_invariant Hp) as Hinv.
  destruct (sequential_reachable Hp) as [Hl Hseq].
  pose proof (inv_returned Hinv Hm) as Hall.
  pose proof (inv_started Hinv) as Hs. rewrite Hm in Hs.
  unfold made, todo in Hseq. rewrite Hm in Hseq. cbn [pending] in Hseq.
  destruct (workers p) as [|w [|w' ws]] eqn:Hws; [simpl in Hs; lia | | simpl in Hl; lia].
  inversion Hall as [|x xs Hw _]; subst.
  destruct (inv_exited Hinv) as [Hch _]; [rewrite Hws; left; reflexivity|].
  rewrite Hch in Hseq. cbn [app uploadAll fst snd] in Hseq.
  rewrite !app_nil_r in Hseq. symmetry. exact Hseq.
Qed.

End OneWorker.

(** X18: without workers nothing is uploaded.  When the number of
    concurrent uploads is zero or below, [uploadFilesWithConcurrency]
    starts no worker: it returns, and what it returns is an empty list of
    results, whatever the files; no upload has been made and the log is
    as it was. *)
Theorem uploadFilesWithConcurrency_without_workers :
  forall (a : Batch.Call) (st : Logger.State),
    Batch.c_concurrency a <= 0 ->
    (exists p, Batch.reachable a st p /\ Batch.main p = Batch.Returned)
    /\ (forall p, Batch.reachable a st p ->
                  Batch.workers p = [] /\ Batch.results p = [] /\ Batch.state p = st).
Proof.
  intros a st H. split.
  - apply (runs_return (n := weight a (Batch.initial a st)) (p := Batch.initial a st)).
    + apply Nat.le_refl.
    + constructor.
  - apply no_workers. exact H.
Qed.

Lemma uploadFilesWithConcurrency_without_workers_witness :
  exists p, Batch.reachable (acme_batch 0) emptyLog p /\ Batch.main p = Batch.Returned.
Proof.
  apply (@uploadFilesWithConcurrency_without_workers (acme_batch 0) emptyLog).
  simpl. lia.
Defined.

(** X19: one worker uploads the files in their order.  With one
    concurrent upload, [uploadFilesWithConcurrency] returns, and in
    whatever order the two goroutines take their steps it returns the
    results of the uploads of the files made one after the other, in the
    order of the files, and leaves the log that these uploads leave. *)
Theorem uploadFilesWithConcurrency_one_worker :
  forall (a : Batch.Call) (st : Logger.State),
    Batch.c_concurrency a = 1 ->
    (exists p, Batch.reachable a st p /\ Batch.main p = Batch.Returned)
    /\ (forall p, Batch.reachable a st p -> Batch.main p = Batch.Returned ->
                  (Batch.results p, Batch.state p) = uploadAll a (Batch.c_files a) st).
Proof.
  intros a st H. split.
  - apply (runs_return (n := weight a (Batch.initial a st)) (p := Batch.initial a st)).
    + apply Nat.le_refl.
    + constructor.
  - apply one_worker_returns. exact H.
Qed.

Lemma uploadFilesWithConcurrency_one_worker_witness :
  exists p, Batch.reachable (acme_batch 1) emptyLog p /\ Batch.main p = Batch.Returned.
Proof.
  apply (@uploadFilesWithConcurrency_one_worker (acme_batch 1) emptyLog).
  reflexivity.
Defined.

(** ** The summary of a batch *)

Lemma printBatchSummary_counts :
  forall results s f,
    fold_left
      (fun '(s, f) (result : UploadResult) =>
         if Success result then (s + 1, f) else (s, f + 1))
      results (s, f)
    = (s + Z.of_nat (List.length (filter Success results)),
       f + Z.of_nat (List.length (failures results))).
Proof.
  unfold failures. induction results as [|r rs IH]; intros s f; cbn [fold_left filter].
  - cbn [List.length]. f_equal; lia.
  - destruct (Success r); rewrite IH; cbn [negb List.length]; f_equal; lia.
Qed.

Lemma failedUploads_acc :
  forall results acc,
    fold_left
      (fun l (result : UploadResult) =>
         if negb (Success result) then (l ++ [(FileName result, Error result)])%list else l)
      results acc
    = (acc ++ map (fun r => (FileName r, Error r)) (failures results))%list.
Proof.
  unfold failures. induction results as [|r rs IH]; intros acc; cbn [fold_left filter].
  - cbn [map]. rewrite app_nil_r. reflexivity.
  - rewrite IH. destruct (Success r); cbn [negb map]; [reflexivity|].
    rewrite <- app_assoc. reflexivity.
Qed.

Lemma filter_split_length :
  forall (A : Type) (p : A -> bool) l,
    (List.length (filter p l) + List.length (filter (fun x => negb (p x)) l)
     = List.length l)%nat.
Proof.
  induction l as [|x l IH]; [reflexivity|]. cbn [filter].
  destruct (p x); cbn [negb List.length]; lia.
Qed.

Lemma printBatchSummary_spec :
  forall results,
    let s := Batch.printBatchSummary results in
    Batch.totalFiles s = Z.of_nat (List.length results)
    /\ Batch.successCount s + Batch.failureCount s = Batch.totalFiles s
    /\ Batch.failureCount s = Z.of_nat (List.length (failures results))
    /\ Batch.failedUploads s = map (fun r => (FileName r, Error r)) (failures results).
Proof.
  intros results. unfold Batch.printBatchSummary.
  rewrite printBatchSummary_counts. cbn zeta.
  cbn [Batch.totalFiles Batch.successCount Batch.failureCount Batch.failedUploads].
  pose proof (filter_split_length Success results) as Hl. fold (failures results) in Hl.
  repeat split; try lia.
  destruct (0 <? 0 + Z.of_nat (List.length (failures results))) eqn:Hf.
  - rewrite failedUploads_acc. reflexivity.
  - apply Z.ltb_ge in Hf. destruct (failures results); [reflexivity | simpl in Hf; lia].
Qed.

Lemma outcome_invariant :
  forall a r, outcome a r ->
    exists filePath, In filePath (Batch.c_files a) /\ FileName r = Base filePath
                     /\ (Success r = false -> Error r <> None).
Proof.
  intros a r (filePath & st & Hin & ->). exists filePath. split; [exact Hin|].
  unfold Batch.uploadFunc. destruct (String.eqb (Batch.c_method a) "cms").
  - destruct (CMS_UploadFile_invariant (Batch.c_env a)
                (NewCMSFilePickerClient (Batch.c_account a) (Batch.c_workspace a)
                   (Batch.c_authenticator a) (Batch.c_verbose a)) filePath false st)
      as (Hn & _ & _ & Hf).
    split; [exact Hn | intros H; apply Hf; exact H].
  - destruct (GraphQL_UploadFile_invariant (Batch.c_env a)
                (NewGraphQLClient (Batch.c_account a) (Batch.c_workspace a)
                   (Batch.c_authenticator a) (Batch.c_verbose a)) filePath false st)
      as (Hn & _ & _ & Hf).
    split; [exact Hn | intros H; apply Hf; exact H].
Qed.

(** X20: the summary of a batch accounts for every file.  After
    [uploadFilesWithConcurrency] has returned from one worker at least,
    [printBatchSummary] reports as many files as were given, the
    successes and the failures add up to them, and the failed uploads it
    lists are the results that are no success, in the order of the
    results, each with the base name of one of the files and with an
    error. *)
Theorem printBatchSummary_accounts_for_files :
  forall (a : Batch.Call) (st : Logger.State) (p : Batch.Pool),
    1 <= Batch.c_concurrency a ->
    Batch.reachable a st p -> Batch.main p = Batch.Returned ->
    let s := Batch.printBatchSummary (Batch.results p) in
    Batch.totalFiles s = Z.of_nat (List.length (Batch.c_files a))
    /\ Batch.successCount s + Batch.failureCount s = Batch.totalFiles s
    /\ Batch.failureCount s = Z.of_nat (List.length (Batch.failedUploads s))
    /\ Batch.failedUploads s
       = map (fun r => (FileName r, Error r)) (failures (Batch.results p))
    /\ forall name err,
         In (name, err) (Batch.failedUploads s) ->
         err <> None /\ In name (map Base (Batch.c_files a)).
Proof.
  intros a st p HW Hp Hm s.
  destruct (printBatchSummary_spec (Batch.results p)) as (Ht & Hsum & Hf & Hl).
  fold s in Ht, Hsum, Hf, Hl.
  pose proof (reachable_invariant Hp) as Hinv.
  assert (Hlen : List.length (Batch.results p) = List.length (Batch.c_files a)).
  { assert (Hperm : Permutation (map FileName (Batch.results p))
                                (map Base (Batch.c_files a))).
    { apply (Permutation_count_occ string_dec). intros x.
      rewrite <- (returned_names HW Hinv Hm). apply (inv_names Hinv). }
    apply Permutation_length in Hperm. rewrite !length_map in Hperm. exact Hperm. }
  split; [rewrite Ht, Hlen; reflexivity|]. split; [exact Hsum|].
  split; [rewrite Hl, length_map; exact Hf|]. split; [exact Hl|].
  intros name err Hin. rewrite Hl in Hin. apply in_map_iff in Hin.
  destruct Hin as (r & Hr & Hin). inversion Hr; subst name err.
  unfold failures in Hin. apply filter_In in Hin. destruct Hin as [Hin Hs].
  apply negb_true_iff in Hs.
  pose proof (inv_results Hinv) as Hres. rewrite Forall_forall in Hres.
  destruct (outcome_invariant (Hres r Hin)) as (filePath & Hf' & Hn & He).
  split; [apply He; exact Hs|]. rewrite Hn. apply in_map. exact Hf'.
Qed.

Lemma printBatchSummary_accounts_for_files_witness :
  exists p,
    Batch.reachable (acme_batch 2) emptyLog p /\ Batch.main p = Batch.Returned
    /\ Batch.totalFiles (Batch.printBatchSummary (Batch.results p)) = 3.
Proof.
  destruct (runs_return (a := acme_batch 2) (st0 := emptyLog)
              (n := weight (acme_batch 2) (Batch.initial (acme_batch 2) emptyLog))
              (p := Batch.initial (acme_batch 2) emptyLog) (Nat.le_refl _)
              (Batch.reach_initial _ _)) as (p & Hp & Hm).
  exists p. split; [exact Hp|]. split; [exact Hm|].
  apply (@printBatchSummary_accounts_for_files (acme_batch 2) emptyLog p);
    [simpl; lia | exact Hp | exact Hm].
Defined.

(** ** The search for the files *)

Lemma Node_nested_ind :
  forall P : Batch.Node -> Prop,
    (forall name, P (Batch.FileNode name)) ->
    (forall name err es, Forall P es -> P (Batch.DirNode name err es)) ->
    (forall name msg, P (Batch.LostNode name msg)) ->
    forall n, P n.
Proof.
  intros P Hf Hd Hl. fix IH 1. intros [name | name err es | name msg]; [apply Hf| |apply Hl].
  apply Hd. induction es as [|e es IHes]; constructor; [apply IH | exact IHes].
Qed.

Lemma walk_dir :
  forall path name es files,
    Batch.walk path (Batch.DirNode name None es) files
    = walkEntries path es (Batch.visit path true files).
Proof. reflexivity. Qed.

Lemma walk_readable :
  forall n path files,
    if readable n then exists files', Batch.walk path n files = Ok files'
    else exists msg, Batch.walk path n files = Err msg.
Proof.
  induction n as [name | name err es IH | name msg] using Node_nested_ind; intros path files.
  - cbn [readable Batch.walk]. eexists. reflexivity.
  - destruct err as [msg|]; [cbn [readable Batch.walk]; eexists; reflexivity|].
    rewrite walk_dir. cbn [readable]. generalize (Batch.visit path true files) as acc.
    induction IH as [|e es He _ IHes]; intros acc.
    + cbn [forallb walkEntries]. eexists. reflexivity.
    + cbn [forallb walkEntries]. specialize (He (Join path (Batch.Name e)) acc).
      destruct (readable e).
      * destruct He as [files' ->]. cbn [andb]. apply IHes.
      * destruct He as [msg ->]. cbn [andb]. eexists. reflexivity.
  - cbn [readable Batch.walk]. eexists. reflexivity.
Qed.

(** X21: one directory that cannot be read, or one entry that cannot be
    inspected, stops the recursive search.  When [os.Lstat] finds something
    at the directory, [findImageFiles] with [recursive] returns a list of
    files exactly when every directory of the tree below can be read and
    [os.Lstat] succeeds on every entry that these directories list;
    otherwise it returns an error, and none of the files it had found.
    What [os.ReadDir] would return is of no account. *)
Theorem findImageFiles_recursive_needs_readable :
  forall listing n directory,
    (exists files,
        Batch.findImageFiles {| Batch.os_ReadDir := listing; Batch.os_Lstat := Ok n |}
          directory true = Ok files)
    <-> readable n = true.
Proof.
  intros listing n directory. cbn [Batch.findImageFiles Batch.os_Lstat].
  pose proof (walk_readable n directory []) as H.
  destruct (readable n).
  - split; [reflexivity | intros _; exact H].
  - destruct H as [msg ->]. split; [intros [files Hf]; discriminate Hf | discriminate].
Qed.

Lemma split_sep_name :
  forall name cur,
    Forall (fun c => IsPathSeparator c = false) (bytes name) ->
    split_sep name cur = [str (rev cur ++ bytes name)].
Proof.
  induction name as [|c name IH]; intros cur H.
  - cbn [split_sep bytes list_ascii_of_string]. rewrite app_nil_r. reflexivity.
  - cbn [bytes list_ascii_of_string] in H. inversion H as [|c' l' Hc Hl]; subst.
    cbn [split_sep]. rewrite Hc. rewrite (IH (c :: cur) Hl).
    cbn [rev bytes list_ascii_of_string]. rewrite <- app_assoc. reflexivity.
Qed.

Lemma split_sep_slash :
  forall d cur name,
    exists init,
      split_sep (d ++ String "/" name)%string cur = (init ++ split_sep name [])%list.
Proof.
  induction d as [|c d IH]; intros cur name.
  - exists [str (rev cur)]. reflexivity.
  - cbn [String.append split_sep]. destruct (IsPathSeparator c).
    + destruct (IH [] name) as [init ->]. exists (str (rev cur) :: init). reflexivity.
    + apply IH.
Qed.

Lemma concat_last :
  forall l name,
    exists P,
      String.concat "/" (l ++ [name]) = (P ++ name)%string
      /\ (P = EmptyString \/ exists p, P = (p ++ "/")%string).
Proof.
  induction l as [|x l IH]; intros name.
  - exists EmptyString. split; [reflexivity | left; reflexivity].
  - destruct (IH name) as (P & HP & Hend).
    assert (Hc : String.concat "/" ((x :: l) ++ [name])
                 = (x ++ "/" ++ String.concat "/" (l ++ [name]))%string).
    { cbn [app String.concat]. destruct (l ++ [name])%list eqn:E; [|reflexivity].
      destruct l; discriminate E. }
    rewrite Hc, HP. exists (x ++ "/" ++ P)%string. split.
    + rewrite !string_app_assoc. reflexivity.
    + right. destruct Hend as [-> | (p & ->)].
      * exists x. reflexivity.
      * exists (x ++ "/" ++ p)%string. rewrite !string_app_assoc. reflexivity.
Qed.

Lemma clean_step_name :
  forall rooted out name,
    entry_name name -> clean_step rooted out name = name :: out.
Proof.
  intros rooted out name (H1 & H2 & H3 & _). unfold clean_step.
  destruct (String.eqb_spec name EmptyString) as [E|_]; [contradiction|].
  destruct (String.eqb_spec name ".") as [E|_]; [contradiction|].
  destruct (String.eqb_spec name "..") as [E|_]; [contradiction|].
  reflexivity.
Qed.

Lemma Clean_ends :
  forall path init name,
    path <> EmptyString -> split_sep path [] = (init ++ [name])%list -> entry_name name ->
    exists P,
      Clean path = (P ++ name)%string
      /\ (P = EmptyString \/ exists p, P = (p ++ "/")%string).
Proof.
  intros path init name Hne Hs Hn. unfold Clean.
  destruct path as [|c path']; [contradiction Hne; reflexivity|].
  cbv zeta. rewrite Hs, fold_left_app. cbn [fold_left].
  rewrite (@clean_step_name (IsPathSeparator c) _ name Hn). cbn [rev].
  destruct (concat_last (rev (fold_left (clean_step (IsPathSeparator c)) init [])) name)
    as (P & HP & Hend).
  unfold join_sep. rewrite HP.
  destruct (IsPathSeparator c).
  - exists ("/" ++ P)%string. split; [reflexivity|]. right.
    destruct Hend as [-> | (p & ->)].
    + exists EmptyString. reflexivity.
    + exists ("/" ++ p)%string. reflexivity.
  - exists P. split; [reflexivity | exact Hend].
Qed.

Lemma ext_loop_stop :
  forall l rest acc,
    Forall (fun c => IsPathSeparator c = false) l ->
    (rest = [] \/ exists r, rest = "/"%char :: r) ->
    ext_loop (l ++ rest) acc = ext_loop l acc.
Proof.
  induction l as [|c l IH]; intros rest acc Hl Hrest.
  - cbn [app]. destruct Hrest as [-> | (r & ->)]; reflexivity.
  - inversion Hl as [|c' l' Hc Hl']; subst. cbn [app ext_loop]. rewrite Hc.
    destruct (Ascii.eqb c "."); [reflexivity|]. apply IH; assumption.
Qed.

Lemma Ext_suffix :
  forall P name,
    Forall (fun c => IsPathSeparator c = false) (bytes name) ->
    (P = EmptyString \/ exists p, P = (p ++ "/")%string) ->
    Ext (P ++ name) = Ext name.
Proof.
  intros P name Hn HP. unfold Ext. f_equal.
  rewrite bytes_app, rev_app_distr. apply ext_loop_stop.
  - apply Forall_rev. exact Hn.
  - destruct HP as [-> | (p & ->)]; [left; reflexivity|].
    right. exists (rev (bytes p)). rewrite bytes_app, rev_app_distr. reflexivity.
Qed.

Lemma Ext_Join :
  forall directory name, entry_name name -> Ext (Join directory name) = Ext name.
Proof.
  intros directory name Hn. pose proof Hn as (Hne & _ & _ & Hsl).
  assert (Hsplit : split_sep name [] = [name]).
  { rewrite (@split_sep_name name [] Hsl). cbn [rev app]. rewrite str_bytes. reflexivity. }
  assert (H : exists P, Join directory name = (P ++ name)%string
                        /\ (P = EmptyString \/ exists p, P = (p ++ "/")%string)).
  { unfold Join. destruct directory as [|c d].
    - destruct name as [|x name']; [contradiction Hne; reflexivity|].
      apply (@Clean_ends _ [] _ Hne Hsplit Hn).
    - destruct (split_sep_slash (String c d) [] name) as [init Hi].
      rewrite Hsplit in Hi.
      apply (@Clean_ends _ init name); [discriminate | exact Hi | exact Hn]. }
  destruct H as (P & -> & HP). apply Ext_suffix; assumption.
Qed.

Lemma flat_acc :
  forall directory es acc,
    fold_left
      (fun files entry =>
         if negb (Batch.EntryIsDir entry) then
           if ValidExtensions (Ext (Batch.EntryName entry))
           then (files ++ [Join directory (Batch.EntryName entry)])%list
           else files
         else files)
      es acc
    = (acc ++ map (fun e => Join directory (Batch.EntryName e)) (filter isImage es))%list.
Proof.
  intros directory. induction es as [|e es IH]; intros acc; cbn [fold_left filter map].
  - rewrite app_nil_r. reflexivity.
  - rewrite IH. unfold isImage at 2.
    destruct (negb (Batch.EntryIsDir e)); cbn [andb]; [|reflexivity].
    destruct (ValidExtensions (Ext (Batch.EntryName e))); [|reflexivity].
    cbn [map]. rewrite <- app_assoc. reflexivity.
Qed.

Lemma Forall2_In_l :
  forall (A B : Type) (R : A -> B -> Prop) l l' a,
    Forall2 R l l' -> In a l -> exists b, In b l' /\ R a b.
Proof.
  intros A B R l l' a H. induction H as [|x y l l' Hxy _ IH]; intros Hin.
  - destruct Hin.
  - destruct Hin as [<- | Hin].
    + exists y. split; [left; reflexivity | exact Hxy].
    + destruct (IH Hin) as (b & Hb & Hab). exists b. split; [right; exact Hb | exact Hab].
Qed.

Lemma visit_sound :
  forall path isDir files,
    incl files (Batch.visit path isDir files)
    /\ (Forall (fun p => ValidExtensions (Ext p) = true) files ->
        Forall (fun p => ValidExtensions (Ext p) = true) (Batch.visit path isDir files)).
Proof.
  intros path isDir files. unfold Batch.visit.
  destruct (negb isDir); [|split; [apply incl_refl | auto]].
  cbv zeta. destruct (ValidExtensions (Ext path)) eqn:Hv; [|split; [apply incl_refl | auto]].
  split; [apply incl_appl, incl_refl|].
  intros H. apply Forall_app. split; [exact H|]. constructor; [exact Hv | constructor].
Qed.

Lemma walk_sound :
  forall n path files files',
    Batch.walk path n files = Ok files' ->
    incl files files'
    /\ (Forall (fun p => ValidExtensions (Ext p) = true) files ->
        Forall (fun p => ValidExtensions (Ext p) = true) files').
Proof.
  induction n as [name | name err es IH | name msg] using Node_nested_ind;
    intros path files files' H; [| |discriminate H].
  - cbn [Batch.walk] in H. inversion H; subst. apply visit_sound.
  - destruct err as [msg|]; [discriminate H|]. rewrite walk_dir in H.
    destruct (visit_sound path true files) as [Hi Hv]. revert H Hi Hv.
    generalize (Batch.visit path true files) as acc.
    induction IH as [|e es He _ IHes]; intros acc H Hi Hv.
    + cbn [walkEntries] in H. inversion H; subst. split; assumption.
    + cbn [walkEntries] in H.
      destruct (Batch.walk (Join path (Batch.Name e)) e acc) as [acc' | msg] eqn:Hw;
        [|discriminate H].
      destruct (He _ _ _ Hw) as [Hi' Hv'].
      apply (IHes acc' H).
      * eapply incl_tran; eassumption.
      * intros Hf. apply Hv', Hv, Hf.
Qed.

Lemma walkEntries_finds :
  forall path es files files',
    walkEntries path es files = Ok files' ->
    incl files files'
    /\ (forall name, In (Batch.FileNode name) es ->
                     ValidExtensions (Ext (Join path name)) = true ->
                     In (Join path name) files')
    /\ (forall name msg, ~ In (Batch.LostNode name msg) es).
Proof.
  intros path. induction es as [|e0 es IH]; intros files files' H.
  - cbn [walkEntries] in H. inversion H; subst. split; [apply incl_refl|].
    split; [intros name [] | intros name msg []].
  - cbn [walkEntries] in H.
    destruct (Batch.walk (Join path (Batch.Name e0)) e0 files) as [f1 | msg] eqn:Hw;
      [|discriminate H].
    destruct (@walk_sound _ _ _ _ Hw) as [Hi1 _].
    destruct (IH _ _ H) as (Hi2 & Hfind & Hlost).
    split; [eapply incl_tran; eassumption|]. split.
    + intros name [-> | Hin] Hv; [|apply Hfind; assumption].
      apply Hi2. cbn [Batch.walk Batch.Name] in Hw. inversion Hw; subst f1.
      unfold Batch.visit. cbn [negb]. cbv zeta. rewrite Hv.
      apply in_or_app. right. left. reflexivity.
    + intros name msg [-> | Hin]; [discriminate Hw | exact (Hlost _ _ Hin)].
Qed.

(** X22: the recursive search finds what the flat search finds, in a
    directory that is one itself.  When [os.Lstat] finds a directory at
    the path, not a link to one, when [os.ReadDir] lists there the entries
    that the walk meets, with the names that entries have (not empty, not
    [.] or [..], no separator) and each a directory for the one exactly
    when it is for the other, then every path that [findImageFiles]
    returns without [recursive] is among those that it returns with
    [recursive], when it returns some. *)
Theorem findImageFiles_recursive_finds_more :
  forall name es listing directory flat deep,
    Forall (fun e => entry_name (Batch.Name e)) es ->
    Forall2 lists listing es ->
    Batch.findImageFiles (directoryOf name listing es) directory false = Ok flat ->
    Batch.findImageFiles (directoryOf name listing es) directory true = Ok deep ->
    incl flat deep.
Proof.
  intros name es listing directory flat deep Hnames Hlists Hflat Hdeep.
  cbn [Batch.findImageFiles directoryOf Batch.os_ReadDir Batch.os_Lstat] in Hflat, Hdeep.
  rewrite walk_dir in Hdeep.
  inversion Hflat as [Hf]. clear Hflat. rewrite flat_acc. cbn [app].
  destruct (@walkEntries_finds _ _ _ _ Hdeep) as (_ & Hfind & Hlost).
  intros p Hp. apply in_map_iff in Hp. destruct Hp as (d & <- & Hd).
  apply filter_In in Hd. destruct Hd as [Hin Himg].
  unfold isImage in Himg. apply andb_true_iff in Himg. destruct Himg as [Hnd Hv].
  apply negb_true_iff in Hnd.
  destruct (@Forall2_In_l _ _ _ _ _ d Hlists Hin) as (e & He & Hname & Hkind).
  rewrite Forall_forall in Hnames. specialize (Hnames e He). rewrite Hname in *.
  destruct e as [nm | nm err es0 | nm msg].
  - cbn [Batch.Name] in *. apply Hfind; [exact He|].
    rewrite (@Ext_Join directory _ Hnames). exact Hv.
  - congruence.
  - contradiction (Hlost _ _ He).
Qed.

Lemma findImageFiles_recursive_finds_more_witness :
  incl ["images/banner.jpg"%string] ["images/banner.jpg"; "images/old/y.gif"]%string.
Proof.
  apply (@findImageFiles_recursive_finds_more "images"%string
           [ Batch.FileNode "LOGO.PNG"; Batch.FileNode "banner.jpg";
             Batch.FileNode "notes.md";
             Batch.DirNode "old" None [Batch.FileNode "x.GIF"; Batch.FileNode "y.gif"] ]
           [ {| Batch.EntryName := "LOGO.PNG"; Batch.EntryIsDir := false |};
             {| Batch.EntryName := "banner.jpg"; Batch.EntryIsDir := false |};
             {| Batch.EntryName := "notes.md"; Batch.EntryIsDir := false |};
             {| Batch.EntryName := "old"; Batch.EntryIsDir := true |} ]
           "images"%string).
  - repeat constructor; cbn [Batch.Name]; discriminate.
  - repeat constructor.
  - reflexivity.
  - reflexivity.
Defined.

Lemma findImageFiles_lost_entry :
  Batch.findImageFiles locked "locked" false = Ok ["locked/a.png"%string]
  /\ Batch.findImageFiles locked "locked" true
     = Err "lstat locked/a.png: permission denied".
Proof. split; reflexivity. Qed.

Lemma findImageFiles_linked_directory :
  Batch.findImageFiles linked "link" false = Ok ["link/a.png"%string]
  /\ Batch.findImageFiles linked "link" true = Ok [].
Proof. split; reflexivity. Qed.

Lemma ValidExtensions_lower :
  forall ext, ValidExtensions ext = true -> ToLower ext = ext.
Proof.
  intros ext. unfold ValidExtensions, ValidExtensionsTable. cbn [map_lookup].
  repeat match goal with
         | |- context [String.eqb ext ?l] =>
             let E := fresh "E" in
             destruct (String.eqb ext l) eqn:E;
             [ apply String.eqb_eq in E; rewrite E; intros _; reflexivity | ]
         end.
  discriminate.
Qed.

Lemma findImageFiles_sound :
  forall root directory recursive files,
    (recursive = false ->
     forall entries, Batch.os_ReadDir root = Ok entries ->
                     Forall (fun e => entry_name (Batch.EntryName e)) entries) ->
    Batch.findImageFiles root directory recursive = Ok files ->
    Forall (fun p => ValidExtensions (Ext p) = true) files.
Proof.
  intros root directory recursive files Hnames H. unfold Batch.findImageFiles in H.
  destruct recursive.
  - destruct (Batch.os_Lstat root) as [n | msg]; [|discriminate H].
    apply (@walk_sound _ _ _ _ H). constructor.
  - destruct (Batch.os_ReadDir root) as [es | msg]; [|discriminate H].
    specialize (Hnames eq_refl es eq_refl). rewrite Forall_forall in Hnames.
    inversion H as [Hf]. rewrite flat_acc. cbn [app]. apply Forall_forall.
    intros p Hp. apply in_map_iff in Hp. destruct Hp as (e & <- & He).
    apply filter_In in He. destruct He as [Hin Himg].
    unfold isImage in Himg. apply andb_true_iff in Himg. destruct Himg as [_ Hv].
    rewrite (@Ext_Join directory _ (Hnames e Hin)). exact Hv.
Qed.

(** X23: what [findImageFiles] finds, [ValidateFile] does not refuse for
    its type.  Every path that the search returns, recursive or not, has
    an extension that is in [ValidExtensions] as it is written, hence
    also in lower case, which is what [ValidateFile] checks; and
    [GetMIMEType] knows its type.  (Without [recursive] the entries that
    [os.ReadDir] returns are taken to have the names that entries
    have.) *)
Theorem findImageFiles_finds_valid_types :
  forall root directory recursive files,
    (recursive = false ->
     forall entries, Batch.os_ReadDir root = Ok entries ->
                     Forall (fun e => entry_name (Batch.EntryName e)) entries) ->
    Batch.findImageFiles root directory recursive = Ok files ->
    forall p, In p files ->
              ValidExtensions (Ext p) = true
              /\ ValidExtensions (ToLower (Ext p)) = true
              /\ GetMIMEType (Ext p) <> octetStream.
Proof.
  intros root directory recursive files Hnames H p Hp.
  pose proof (@findImageFiles_sound _ _ _ _ Hnames H) as Hall.
  rewrite Forall_forall in Hall. specialize (Hall p Hp).
  assert (Hl : ValidExtensions (ToLower (Ext p)) = true)
    by (rewrite (@ValidExtensions_lower _ Hall); exact Hall).
  split; [exact Hall|]. split; [exact Hl|]. apply GetMIMEType_ValidExtensions. exact Hl.
Qed.

Lemma findImageFiles_finds_valid_types_witness :
  ValidExtensions (Ext "images/old/y.gif") = true
  /\ ValidExtensions (ToLower (Ext "images/old/y.gif")) = true
  /\ GetMIMEType (Ext "images/old/y.gif") <> octetStream.
Proof.
  apply (@findImageFiles_finds_valid_types images "images"%string true
           ["images/banner.jpg"; "images/old/y.gif"]%string).
  - intros H. discriminate H.
  - reflexivity.
  - right. left. reflexivity.
Defined.

(** ** The session and the command [upload] *)

Lemma LoadSession_Ok :
  forall fs s,
    Vtexcli.LoadSession fs = Ok s ->
    Vtexcli.Account s <> EmptyString /\ Vtexcli.Token s <> EmptyString
    /\ Vtexcli.Workspace s <> EmptyString.
Proof.
  intros fs s H. unfold Vtexcli.LoadSession in H.
  destruct (Vtexcli.getVTEXSessionPath fs) as [sessionPath | msg]; [|discriminate H].
  assert (H' :
    match Vtexcli.os_ReadFile fs (JoinElems [sessionPath; "session.json"%string]) with
    | Ok sessionBytes =>
        match Vtexcli.UnmarshalSession sessionBytes with
        | Some sessionData =>
            match Vtexcli.os_ReadFile fs (JoinElems [sessionPath; "workspace.json"%string]) with
            | Ok workspaceBytes =>
                match Vtexcli.UnmarshalWorkspace workspaceBytes with
                | Some workspaceData =>
                    String.eqb (Vtexcli.data_Account sessionData) EmptyString = false
                    /\ String.eqb (Vtexcli.data_Token sessionData) EmptyString = false
                    /\ String.eqb (Vtexcli.CurrentWorkspace workspaceData) EmptyString = false
                    /\ s = {| Vtexcli.Account := Vtexcli.data_Account sessionData;
                              Vtexcli.Login := Vtexcli.data_Login sessionData;
                              Vtexcli.Token := Vtexcli.data_Token sessionData;
                              Vtexcli.Workspace := Vtexcli.CurrentWorkspace workspaceData |}
                | None => False
                end
            | Err _ => False
            end
        | None => False
        end
    | Err _ => False
    end).
  { destruct (Vtexcli.os_Stat fs sessionPath) as [info | [] m]; try discriminate H;
      cbv zeta in H;
      (destruct (Vtexcli.os_ReadFile fs (JoinElems [sessionPath; "session.json"%string]));
       [|discriminate H]);
      (destruct (Vtexcli.UnmarshalSession v) as [sd|]; [|discriminate H]);
      (destruct (Vtexcli.os_ReadFile fs (JoinElems [sessionPath; "workspace.json"%string]));
       [|discriminate H]);
      (destruct (Vtexcli.UnmarshalWorkspace v0) as [wd|]; [|discriminate H]);
      (destruct (String.eqb (Vtexcli.data_Account sd) EmptyString); [discriminate H|]);
      (destruct (String.eqb (Vtexcli.data_Token sd) EmptyString); [discriminate H|]);
      (destruct (String.eqb (Vtexcli.CurrentWorkspace wd) EmptyString); [discriminate H|]);
      inversion H; repeat split; reflexivity. }
  clear H.
  destruct (Vtexcli.os_ReadFile fs (JoinElems [sessionPath; "session.json"%string]));
    [|contradiction].
  destruct (Vtexcli.UnmarshalSession v) as [sd|]; [|contradiction].
  destruct (Vtexcli.os_ReadFile fs (JoinElems [sessionPath; "workspace.json"%string]));
    [|contradiction].
  destruct (Vtexcli.UnmarshalWorkspace v0) as [wd|]; [|contradiction].
  destruct H' as (H1 & H2 & H3 & ->). cbn [Vtexcli.Account Vtexcli.Token Vtexcli.Workspace].
  rewrite String.eqb_neq in H1, H2, H3. repeat split; assumption.
Qed.

(** X24: a session that [LoadSession] returns is complete: its account,
    its token and its workspace are not empty.  Hence [ValidateToken]
    never finds the token of such a session missing; it accepts the
    session exactly when the token has ten bytes or more, and refuses it
    as too short otherwise. *)
Theorem LoadSession_session_is_complete :
  forall fs s,
    Vtexcli.LoadSession fs = Ok s ->
    Vtexcli.Account s <> EmptyString /\ Vtexcli.Token s <> EmptyString
    /\ Vtexcli.Workspace s <> EmptyString
    /\ (Vtexcli.ValidateToken s = None <-> (10 <= String.length (Vtexcli.Token s))%nat)
    /\ (Vtexcli.ValidateToken s <> None ->
        Vtexcli.ValidateToken s
        = Some "authentication token appears to be invalid (too short)"%string).
Proof.
  intros fs s H. destruct (LoadSession_Ok _ H) as (Ha & Ht & Hw).
  split; [exact Ha|]. split; [exact Ht|]. split; [exact Hw|].
  unfold Vtexcli.ValidateToken. apply String.eqb_neq in Ht. rewrite Ht.
  destruct (Nat.ltb_spec (String.length (Vtexcli.Token s)) 10) as [Hl | Hl].
  - split; [split; [discriminate | lia] | reflexivity].
  - split; [split; [intros _; exact Hl | reflexivity] | intros Hn; contradiction Hn; reflexivity].
Qed.

Lemma LoadSession_session_is_complete_witness :
  Vtexcli.LoadSession acme_files = Ok acme_session
  /\ Vtexcli.Token acme_session <> EmptyString.
Proof.
  split; [vm_compute; reflexivity|].
  apply (@LoadSession_session_is_complete acme_files acme_session).
  vm_compute. reflexivity.
Defined.

Lemma attempted_existsb :
  forall events, attempted events <-> existsb is_outcome events = true.
Proof.
  intros events. unfold attempted. rewrite existsb_exists. split.
  - intros (e & Hin & [(m & ->) | (u & ->)]); eexists; split; try exact Hin; reflexivity.
  - intros (e & Hin & He). exists e. split; [exact Hin|].
    destruct e; try discriminate He; [left | right]; eexists; reflexivity.
Qed.

Lemma shownFirst_no_outcome :
  forall env f session info filePath,
    existsb is_outcome (shownFirst env f session info filePath) = false.
Proof.
  intros env f session info filePath. unfold shownFirst. cbv zeta.
  rewrite !existsb_app.
  destruct (if String.eqb (Upload.uploadMethod f) "cms"
            then CheckFileExists env (cmsClientOf session (Upload.verbose f)) (Base filePath)
            else (false, None)) as [ex [err|]]; cbn [fst snd];
    destruct (Upload.verbose f), ex; reflexivity.
Qed.

Lemma upload_spec :
  forall env f session filePath events st,
    Upload.upload env f session (NewAuthenticator (Vtexcli.Token session)) filePath events st
    = match snd (fst (uploadOf env f session filePath st)) with
      | Some msg =>
          ((Some msg, (events ++ [Upload.UploadFailed msg])%list),
           snd (uploadOf env f session filePath st))
      | None =>
          ((None,
            (events ++ [Upload.UploadSuccessful
                          (FileURL (fst (fst (uploadOf env f session filePath st))))])%list),
           snd (uploadOf env f session filePath st))
      end.
Proof.
  intros env f session filePath events st. unfold Upload.upload, uploadOf, cmsClientOf.
  destruct (String.eqb (Upload.uploadMethod f) "cms").
  - destruct (CMS_UploadFile env _ filePath true st) as [[result [msg|]] st']; reflexivity.
  - destruct (GraphQL_UploadFile env _ filePath true st) as [[result [msg|]] st']; reflexivity.
Qed.

Lemma runUpload_ready :
  forall fs env ask f filePath st session info,
    ready fs env f filePath session info ->
    Upload.runUpload fs env ask f filePath st
    = let pre := shownFirst env f session info filePath in
      let q := questionOf env f session filePath in
      if negb (Upload.skipConfirm f) then
        if negb (ask q) then
          ((None, (pre ++ [Upload.Asked q false; Upload.Cancelled])%list), st)
        else
          Upload.upload env f session (NewAuthenticator (Vtexcli.Token session)) filePath
            (pre ++ [Upload.Asked q true])%list st
      else
        Upload.upload env f session (NewAuthenticator (Vtexcli.Token session)) filePath pre st.
Proof.
  intros fs env ask f filePath st session info (Hm & Hs & Ht & Hi).
  unfold Upload.runUpload. rewrite Hs, Ht, Hi.
  assert (Hm' : String.eqb (Upload.uploadMethod f) EmptyString = false
                /\ (negb (String.eqb (Upload.uploadMethod f) "graphql")
                    && negb (String.eqb (Upload.uploadMethod f) "cms"))%bool = false).
  { destruct Hm as [-> | ->]; split; reflexivity. }
  destruct Hm' as [-> ->]. cbv zeta.
  unfold shownFirst, questionOf, destinationOf, cmsClientOf.
  destruct (String.eqb (Upload.uploadMethod f) "cms"); cbn [andb fst snd].
  - destruct (CheckFileExists env _ (Base filePath)) as [ex [err|]]; cbn [fst snd];
      destruct ex; reflexivity.
  - reflexivity.
Qed.

Lemma runUpload_not_ready :
  forall fs env ask f filePath st,
    (forall session info, ~ ready fs env f filePath session info) ->
    snd (Upload.runUpload fs env ask f filePath st) = st
    /\ snd (fst (Upload.runUpload fs env ask f filePath st)) = [].
Proof.
  intros fs env ask f filePath st Hn. unfold Upload.runUpload.
  destruct (String.eqb (Upload.uploadMethod f) EmptyString) eqn:H0; [split; reflexivity|].
  destruct (negb (String.eqb (Upload.uploadMethod f) "graphql")
            && negb (String.eqb (Upload.uploadMethod f) "cms"))%bool eqn:Hm;
    [split; reflexivity|].
  destruct (Vtexcli.LoadSession fs) as [session | msg] eqn:Hs; [|split; reflexivity].
  destruct (Vtexcli.ValidateToken session) as [msg|] eqn:Ht; [split; reflexivity|].
  destruct (os_Stat env filePath) as [info | b msg] eqn:Hi; [|split; reflexivity].
  exfalso. apply (Hn session info). split; [|repeat split; assumption].
  apply andb_false_iff in Hm. destruct Hm as [Hm | Hm]; apply negb_false_iff in Hm;
    apply String.eqb_eq in Hm; [right | left]; exact Hm.
Qed.

Lemma ready_unique :
  forall fs env f filePath s1 i1 s2 i2,
    ready fs env f filePath s1 i1 -> ready fs env f filePath s2 i2 -> s1 = s2 /\ i1 = i2.
Proof.
  intros fs env f filePath s1 i1 s2 i2 (_ & H1 & _ & H2) (_ & H3 & _ & H4).
  split; congruence.
Qed.

Lemma classic_ready :
  forall fs env f filePath,
    (exists session info, ready fs env f filePath session info)
    \/ (forall session info, ~ ready fs env f filePath session info).
Proof.
  intros fs env f filePath. unfold ready.
  destruct (Vtexcli.LoadSession fs) as [session | msg];
    [|right; intros s i (_ & H & _); discriminate H].
  destruct (os_Stat env filePath) as [info | b msg];
    [|right; intros s i (_ & _ & _ & H); discriminate H].
  destruct (Vtexcli.ValidateToken session) as [msg|] eqn:Ht;
    [right; intros s i (_ & H & H' & _); inversion H; subst s; rewrite Ht in H';
     discriminate H'|].
  destruct (String.eqb_spec (Upload.uploadMethod f) "cms") as [Hc | Hc];
    [left; exists session, info; split;
     [left; exact Hc | repeat split; (reflexivity || exact Ht)]|].
  destruct (String.eqb_spec (Upload.uploadMethod f) "graphql") as [Hg | Hg];
    [left; exists session, info; split;
     [right; exact Hg | repeat split; (reflexivity || exact Ht)]|].
  right. intros s i ([H | H] & _); contradiction.
Qed.

Lemma runUpload_attempt :
  forall fs env ask f filePath st,
    (attempted (snd (fst (Upload.runUpload fs env ask f filePath st))) ->
     exists session info,
       ready fs env f filePath session info
       /\ (Upload.skipConfirm f = true \/ ask (questionOf env f session filePath) = true)
       /\ fst (fst (Upload.runUpload fs env ask f filePath st))
          = snd (fst (uploadOf env f session filePath st))
       /\ snd (Upload.runUpload fs env ask f filePath st)
          = snd (uploadOf env f session filePath st))
    /\ (~ attempted (snd (fst (Upload.runUpload fs env ask f filePath st))) ->
        snd (Upload.runUpload fs env ask f filePath st) = st)
    /\ (forall session info,
          ready fs env f filePath session info ->
          (Upload.skipConfirm f = true \/ ask (questionOf env f session filePath) = true) ->
          attempted (snd (fst (Upload.runUpload fs env ask f filePath st)))).
Proof.
  intros fs env ask f filePath st.
  assert (Hup : forall session events,
             let out := Upload.upload env f session
                          (NewAuthenticator (Vtexcli.Token session)) filePath events st in
             attempted (snd (fst out))
             /\ fst (fst out) = snd (fst (uploadOf env f session filePath st))
             /\ snd out = snd (uploadOf env f session filePath st)).
  { intros session events. cbv zeta. rewrite upload_spec.
    destruct (snd (fst (uploadOf env f session filePath st))) as [msg|]; cbn [fst snd].
    - split; [|split; reflexivity]. apply attempted_existsb. rewrite existsb_app.
      cbn [existsb is_outcome]. apply orb_true_r.
    - split; [|split; reflexivity]. apply attempted_existsb. rewrite existsb_app.
      cbn [existsb is_outcome]. apply orb_true_r. }
  assert (Hcancel : forall session info q,
             ~ attempted (shownFirst env f session info filePath
                          ++ [Upload.Asked q false; Upload.Cancelled])%list).
  { intros session info q Ha. apply attempted_existsb in Ha.
    rewrite existsb_app, shownFirst_no_outcome in Ha. discriminate Ha. }
  destruct (classic_ready fs env f filePath) as [(session & info & Hr) | Hn].
  - rewrite (runUpload_ready ask st Hr). cbv zeta.
    destruct (Upload.skipConfirm f) eqn:Hskip; cbn [negb].
    + destruct (Hup session (shownFirst env f session info filePath)) as (Ha & He & Hs).
      split; [|split].
      * intros _. exists session, info. split; [exact Hr|]. split; [left; reflexivity|].
        split; assumption.
      * intros Hna. contradiction.
      * intros _ _ _ _. exact Ha.
    + destruct (ask (questionOf env f session filePath)) eqn:Hask; cbn [negb].
      * destruct (Hup session (shownFirst env f session info filePath
                               ++ [Upload.Asked (questionOf env f session filePath) true])%list)
          as (Ha & He & Hs).
        split; [|split].
        -- intros _. exists session, info. split; [exact Hr|]. split; [right; exact Hask|].
           split; assumption.
        -- intros Hna. contradiction.
        -- intros _ _ _ _. exact Ha.
      * cbn [fst snd]. split; [|split].
        -- intros Ha. exfalso. exact (Hcancel _ _ _ Ha).
        -- intros _. reflexivity.
        -- intros s2 i2 Hr2 [Hc | Hc]; [discriminate Hc|].
           destruct (ready_unique Hr Hr2) as [<- _]. rewrite Hask in Hc. discriminate Hc.
  - destruct (runUpload_not_ready ask st Hn) as [Hs He]. rewrite He. split; [|split].
    + intros (e & [] & _).
    + intros _. exact Hs.
    + intros session info Hr _. exfalso. exact (Hn session info Hr).
Qed.

(** X25: [runUpload] uploads by consent only.  The command gets as far
    as the outcome of an upload exactly when the method is one of the two,
    the session is there with a token long enough, the file can be
    inspected, and the user has agreed, by the flag [--yes] or by the
    answer to the question, which speaks of overwriting exactly when
    [CheckFileExists] has found the file.  Then the command returns what
    [UploadFile] returns and leaves the log that [UploadFile] leaves;
    otherwise the log is as it was. *)
Theorem runUpload_uploads_by_consent :
  forall fs env ask f filePath st,
    (attempted (snd (fst (Upload.runUpload fs env ask f filePath st))) ->
     exists session info,
       ready fs env f filePath session info
       /\ (Upload.skipConfirm f = true \/ ask (questionOf env f session filePath) = true)
       /\ fst (fst (Upload.runUpload fs env ask f filePath st))
          = snd (fst (uploadOf env f session filePath st))
       /\ snd (Upload.runUpload fs env ask f filePath st)
          = snd (uploadOf env f session filePath st))
    /\ (~ attempted (snd (fst (Upload.runUpload fs env ask f filePath st))) ->
        snd (Upload.runUpload fs env ask f filePath st) = st)
    /\ (forall session info,
          ready fs env f filePath session info ->
          (Upload.skipConfirm f = true \/ ask (questionOf env f session filePath) = true) ->
          attempted (snd (fst (Upload.runUpload fs env ask f filePath st)))).
Proof. exact runUpload_attempt. Qed.

Lemma runUpload_uploads_by_consent_witness :
  attempted
    (snd (fst (Upload.runUpload acme_files (acme_env ["logo.png"%string] (inserted "logo.png"))
                 (fun _ => false)
                 {| Upload.uploadMethod := "cms"; Upload.skipConfirm := true;
                    Upload.verbose := false |}
                 "logo.png" emptyLog))).
Proof.
  apply (proj2 (proj2 (@runUpload_uploads_by_consent acme_files
                         (acme_env ["logo.png"%string] (inserted "logo.png"))
                         (fun _ => false)
                         {| Upload.uploadMethod := "cms"; Upload.skipConfirm := true;
                            Upload.verbose := false |}
                         "logo.png"%string emptyLog))
           acme_session {| Size := 10240; IsDir := false |}).
  - split; [left; reflexivity|]. split; [vm_compute; reflexivity|].
    split; reflexivity.
  - left. reflexivity.
Defined.

Lemma CMS_UploadFile_success :
  forall env c filePath showProgress st,
    snd (fst (CMS_UploadFile env c filePath showProgress st)) = None ->
    exists info body url,
      CMS_prepare env c filePath = Ok (info, body)
      /\ uploadFilePicker env c body multipartContentType (Base filePath) = Ok url
      /\ FileURL (fst (fst (CMS_UploadFile env c filePath showProgress st))) = url.
Proof.
  intros env c filePath showProgress st H. unfold CMS_UploadFile in *. cbv zeta in *.
  destruct (CMS_prepare env c filePath) as [[info body] | msg] eqn:Hp; [|discriminate H].
  destruct (uploadFilePicker env c body multipartContentType (Base filePath))
    as [url | msg] eqn:Hu; [|discriminate H].
  exists info, body, url. split; [reflexivity|]. split; [exact Hu | reflexivity].
Qed.

Lemma In_shownFirst :
  forall env f session info filePath s m name size dest,
    In (Upload.UploadInfo s m name size dest) (shownFirst env f session info filePath) ->
    s = session /\ dest = destinationOf f session filePath.
Proof.
  intros env f session info filePath s m name size dest H. unfold shownFirst in H.
  cbv zeta in H. apply in_app_or in H. destruct H as [H | H].
  - destruct (snd _) as [err|]; [|destruct H].
    destruct (Upload.verbose f); [|destruct H]. destruct H as [H | []]. discriminate H.
  - destruct H as [H | H]; [inversion H; split; reflexivity|].
    destruct (fst _); [|destruct H]. destruct H as [H | []]. discriminate H.
Qed.

Lemma uploadOf_cms :
  forall env f session filePath st,
    Upload.uploadMethod f = "cms"%string ->
    uploadOf env f session filePath st
    = CMS_UploadFile env (cmsClientOf session (Upload.verbose f)) filePath true st.
Proof. intros env f session filePath st H. unfold uploadOf. rewrite H. reflexivity. Qed.

Lemma destinationOf_cms :
  forall f session filePath,
    Upload.uploadMethod f = "cms"%string ->
    destinationOf f session filePath
    = ("https://" ++ Vtexcli.Account session ++ ".vtexassets.com/arquivos/"
       ++ PathEscape (Base filePath))%string.
Proof. intros f session filePath H. unfold destinationOf. rewrite H. reflexivity. Qed.

Lemma runUpload_announced :
  forall fs env ask f filePath st session name size dest url,
    Upload.uploadMethod f = "cms"%string ->
    In (Upload.UploadInfo session "cms" name size dest)
       (snd (fst (Upload.runUpload fs env ask f filePath st))) ->
    In (Upload.UploadSuccessful url)
       (snd (fst (Upload.runUpload fs env ask f filePath st))) ->
    exists body resp ins,
      http_Do env (filePickerRequest (cmsClientOf session (Upload.verbose f)) body
                     multipartContentType) = Client.Received resp
      /\ UnmarshalFilePicker (RespBody resp) = Some ins
      /\ (url = dest <-> FileNameInserted ins = Base filePath).
Proof.
  intros fs env ask f filePath st session name size dest url Hcms Hinfo Hurl.
  destruct (classic_ready fs env f filePath) as [(s0 & i0 & Hr) | Hn];
    [|destruct (runUpload_not_ready ask st Hn) as [_ He]; rewrite He in Hurl;
      destruct Hurl].
  rewrite (runUpload_ready ask st Hr) in Hinfo, Hurl. cbv zeta in Hinfo, Hurl.
  pose proof (shownFirst_no_outcome env f s0 i0 filePath) as Hno.
  assert (Hpre : forall evs : list Upload.Event,
             existsb is_outcome evs = false -> ~ In (Upload.UploadSuccessful url) evs).
  { intros evs He Hin. assert (Ht : existsb is_outcome evs = true).
    { apply existsb_exists. eexists. split; [exact Hin | reflexivity]. }
    rewrite He in Ht. discriminate Ht. }
  assert (Hmain : forall evs,
             existsb is_outcome evs = false ->
             (forall s m n sz d, In (Upload.UploadInfo s m n sz d) evs ->
                                 s = s0 /\ d = destinationOf f s0 filePath) ->
             In (Upload.UploadInfo session "cms" name size dest)
                (snd (fst (Upload.upload env f s0 (NewAuthenticator (Vtexcli.Token s0))
                             filePath evs st))) ->
             In (Upload.UploadSuccessful url)
                (snd (fst (Upload.upload env f s0 (NewAuthenticator (Vtexcli.Token s0))
                             filePath evs st))) ->
             exists body resp ins,
               http_Do env (filePickerRequest (cmsClientOf session (Upload.verbose f)) body
                              multipartContentType) = Client.Received resp
               /\ UnmarshalFilePicker (RespBody resp) = Some ins
               /\ (url = dest <-> FileNameInserted ins = Base filePath)).
  { intros evs Hevs Hinfos Hi Hu. rewrite upload_spec in Hi, Hu.
    destruct (snd (fst (uploadOf env f s0 filePath st))) as [msg|] eqn:Hres;
      cbn [fst snd] in Hi, Hu.
    - apply in_app_or in Hu. destruct Hu as [Hu | [Hu | []]]; [|discriminate Hu].
      exfalso. exact (Hpre evs Hevs Hu).
    - apply in_app_or in Hu. destruct Hu as [Hu | [Hu | []]];
        [exfalso; exact (Hpre evs Hevs Hu)|].
      apply in_app_or in Hi. destruct Hi as [Hi | [Hi | []]]; [|discriminate Hi].
      destruct (Hinfos _ _ _ _ _ Hi) as [-> ->].
      injection Hu as Hu.
      rewrite (@uploadOf_cms env f s0 filePath st Hcms) in Hres, Hu.
      destruct (@CMS_UploadFile_success _ _ _ _ _ Hres) as (info & body & u & _ & Hup & Hfu).
      assert (Hurl' : url = u) by congruence.
      destruct (uploadFilePicker_ok _ _ _ _ _ Hup) as (resp & ins & Hd & _ & Hj & _ & E).
      exists body, resp, ins. split; [exact Hd|]. split; [exact Hj|].
      rewrite (@destinationOf_cms f s0 filePath Hcms), Hurl', E.
      cbn [cmsClientOf NewCMSFilePickerClient account]. split.
      + intros H. apply PathEscape_inj.
        apply string_app_inv_head in H. apply string_app_inv_head in H.
        apply string_app_inv_head in H. exact H.
      + intros ->. reflexivity. }
  destruct (Upload.skipConfirm f); cbn [negb] in Hinfo, Hurl.
  - apply (Hmain _ Hno); [|exact Hinfo | exact Hurl].
    intros s m n sz d H. eapply In_shownFirst. exact H.
  - destruct (ask (questionOf env f s0 filePath)); cbn [negb] in Hinfo, Hurl.
    + apply (Hmain (shownFirst env f s0 i0 filePath
                    ++ [Upload.Asked (questionOf env f s0 filePath) true])%list);
        [rewrite existsb_app, Hno; reflexivity | | exact Hinfo | exact Hurl].
      intros s m n sz d H. apply in_app_or in H. destruct H as [H | [H | []]];
        [eapply In_shownFirst; exact H | discriminate H].
    + cbn [fst snd] in Hurl. exfalso.
      apply (Hpre (shownFirst env f s0 i0 filePath
                   ++ [Upload.Asked (questionOf env f s0 filePath) false; Upload.Cancelled])%list);
        [rewrite existsb_app, Hno; reflexivity | exact Hurl].
Qed.

(** X26: the address that [runUpload] announces.  When the command
    uploads by the FilePicker and the upload succeeds, the URL it shows
    at the end is the destination it has shown before the upload exactly
    when the server has stored the file under the base name of the
    path. *)
Theorem runUpload_announces_the_url :
  forall fs env ask f filePath st session name size dest url,
    Upload.uploadMethod f = "cms"%string ->
    In (Upload.UploadInfo session "cms" name size dest)
       (snd (fst (Upload.runUpload fs env ask f filePath st))) ->
    In (Upload.UploadSuccessful url)
       (snd (fst (Upload.runUpload fs env ask f filePath st))) ->
    exists body resp ins,
      http_Do env (filePickerRequest (cmsClientOf session (Upload.verbose f)) body
                     multipartContentType) = Client.Received resp
      /\ UnmarshalFilePicker (RespBody resp) = Some ins
      /\ (url = dest <-> FileNameInserted ins = Base filePath).
Proof. exact runUpload_announced. Qed.

Lemma runUpload_announces_the_url_witness :
  exists body resp ins,
    http_Do (acme_env ["photos/my file.jpg"%string] (inserted "my file.jpg"))
      (filePickerRequest (cmsClientOf acme_session false) body multipartContentType)
    = Client.Received resp
    /\ UnmarshalFilePicker (RespBody resp) = Some ins
    /\ ("https://acme.vtexassets.com/arquivos/my%20file.jpg"%string
        = "https://acme.vtexassets.com/arquivos/my%20file.jpg"%string
        <-> FileNameInserted ins = Base "photos/my file.jpg").
Proof.
  apply (@runUpload_announces_the_url acme_files
           (acme_env ["photos/my file.jpg"%string] (inserted "my file.jpg"))
           (fun _ => true)
           {| Upload.uploadMethod := "cms"; Upload.skipConfirm := false;
              Upload.verbose := false |}
           "photos/my file.jpg"%string emptyLog acme_session
           "my file.jpg"%string 10240).
  - reflexivity.
  - vm_compute. left. reflexivity.
  - vm_compute. do 2 right. left. reflexivity.
Defined.

(** ** The command [batch] *)

Lemma fileLines_panics :
  forall stat n files i,
    0 <= i ->
    (snd (Batch.fileLines stat i n files) = false
     <-> exists j p, (Z.of_nat j + i < 10) /\ nth_error files j = Some p
                     /\ forall info, stat p <> StatOk info).
Proof.
  intros stat n. induction files as [|f files IH]; intros i Hi.
  - cbn [Batch.fileLines snd]. split; [discriminate|].
    intros (j & p & _ & Hn & _). destruct j; discriminate Hn.
  - cbn [Batch.fileLines]. destruct (Z.leb_spec 10 i) as [Hle | Hlt].
    + cbn [snd]. split; [discriminate|]. intros (j & p & Hj & _). lia.
    + destruct (stat f) as [info | b msg] eqn:Hs.
      * specialize (IH (i + 1) ltac:(lia)).
        destruct (Batch.fileLines stat (i + 1) n files) as [events ok]. cbn [snd] in *.
        rewrite IH. split.
        -- intros (j & p & Hj & Hn & Hp). exists (S j), p.
           split; [lia|]. split; [exact Hn | exact Hp].
        -- intros (j & p & Hj & Hn & Hp). destruct j as [|j].
           ++ cbn [nth_error] in Hn. inversion Hn; subst p. exfalso.
              exact (Hp info Hs).
           ++ exists j, p. split; [lia|]. split; [exact Hn | exact Hp].
      * cbn [snd]. split; [|reflexivity]. intros _. exists 0%nat, f.
        split; [lia|]. split; [reflexivity|]. intros info H. rewrite Hs in H.
        discriminate H.
Qed.

Lemma runBatch_found :
  forall fs env root ask f directory session files,
    found fs root f directory session files ->
    Batch.runBatch fs env root ask f directory
    = let '(existing, events) :=
        if String.eqb (Batch.batchMethod f) "cms" then
          Batch.existingFiles env (cmsClientOf session (Batch.verbose f)) (Batch.verbose f) files
        else ([], []) in
      let events :=
        (events ++ [Batch.BatchInfo session (Batch.batchMethod f) directory
                      (Z.of_nat (List.length files)) (Batch.totalSize (os_Stat env) files)
                      (Batch.concurrency f)])%list in
      let '(lines, ok) :=
        Batch.fileLines (os_Stat env) 0 (Z.of_nat (List.length files)) files in
      let events := (events ++ lines)%list in
      if negb ok then (Batch.Panic, events)
      else
        let n := Z.of_nat (List.length existing) in
        let events :=
          if 0 <? n
          then (events ++ Batch.OverwriteWarning n :: Batch.existingLines 0 n existing)%list
          else events in
        if negb (Batch.batchSkipConfirm f) then
          let promptMsg :=
            if 0 <? n then (itoa n ++ " file(s) will be overwritten. Continue?")%string
            else "Proceed with upload?"%string in
          if negb (ask promptMsg) then
            (Batch.Return None,
             (events ++ [Batch.Asked promptMsg false; Batch.Cancelled])%list)
          else (Batch.Run (callOf env f session files),
                (events ++ [Batch.Asked promptMsg true])%list)
        else (Batch.Run (callOf env f session files), events).
Proof.
  intros fs env root ask f directory session files (Hm & Hs & Ht & Hf & Hne).
  unfold Batch.runBatch. rewrite Hs, Ht, Hf.
  assert (Hm' : String.eqb (Batch.batchMethod f) EmptyString = false
                /\ (negb (String.eqb (Batch.batchMethod f) "graphql")
                    && negb (String.eqb (Batch.batchMethod f) "cms"))%bool = false).
  { destruct Hm as [-> | ->]; split; reflexivity. }
  destruct Hm' as [-> ->].
  destruct files as [|p files]; [contradiction Hne; reflexivity|].
  reflexivity.
Qed.

Lemma runBatch_not_found :
  forall fs env root ask f directory,
    (forall session files, ~ found fs root f directory session files) ->
    exists err events, Batch.runBatch fs env root ask f directory = (Batch.Return err, events).
Proof.
  intros fs env root ask f directory Hn. unfold Batch.runBatch.
  destruct (String.eqb (Batch.batchMethod f) EmptyString) eqn:H0;
    [eexists; eexists; reflexivity|].
  destruct (negb (String.eqb (Batch.batchMethod f) "graphql")
            && negb (String.eqb (Batch.batchMethod f) "cms"))%bool eqn:Hm;
    [eexists; eexists; reflexivity|].
  destruct (Vtexcli.LoadSession fs) as [session | msg] eqn:Hs;
    [|eexists; eexists; reflexivity].
  destruct (Vtexcli.ValidateToken session) as [msg|] eqn:Ht;
    [eexists; eexists; reflexivity|].
  destruct (Batch.findImageFiles root directory (Batch.recursive f)) as [files | msg] eqn:Hf;
    [|eexists; eexists; reflexivity].
  destruct files as [|p files]; [eexists; eexists; reflexivity|].
  exfalso. apply (Hn session (p :: files)).
  split; [|repeat split; try assumption; discriminate].
  apply andb_false_iff in Hm. destruct Hm as [Hm | Hm]; apply negb_false_iff in Hm;
    apply String.eqb_eq in Hm; [right | left]; exact Hm.
Qed.

Lemma classic_found :
  forall fs root f directory,
    (exists session files, found fs root f directory session files)
    \/ (forall session files, ~ found fs root f directory session files).
Proof.
  intros fs root f directory. unfold found.
  destruct (Vtexcli.LoadSession fs) as [session | msg];
    [|right; intros s l (_ & H & _); discriminate H].
  destruct (Batch.findImageFiles root directory (Batch.recursive f)) as [files | msg];
    [|right; intros s l (_ & _ & _ & H & _); discriminate H].
  destruct (Vtexcli.ValidateToken session) as [msg|] eqn:Ht;
    [right; intros s l (_ & H & H' & _); inversion H; subst s; rewrite Ht in H';
     discriminate H'|].
  destruct files as [|p files];
    [right; intros s l (_ & _ & _ & H & Hne); inversion H; subst l; contradiction Hne;
     reflexivity|].
  destruct (String.eqb_spec (Batch.batchMethod f) "cms") as [Hc | Hc];
    [left; exists session, (p :: files); split;
     [left; exact Hc | repeat split; (reflexivity || exact Ht || discriminate)]|].
  destruct (String.eqb_spec (Batch.batchMethod f) "graphql") as [Hg | Hg];
    [left; exists session, (p :: files); split;
     [right; exact Hg | repeat split; (reflexivity || exact Ht || discriminate)]|].
  right. intros s l ([H | H] & _); contradiction.
Qed.

Lemma vanished_fileLines :
  forall stat n files,
    snd (Batch.fileLines stat 0 n files) = false <-> vanished stat files.
Proof.
  intros stat n files. rewrite (@fileLines_panics stat n files 0 (Z.le_refl 0)).
  unfold vanished. split; intros (j & p & Hj & H); exists j, p; (split; [lia | exact H]).
Qed.

Lemma runBatch_plan :
  forall fs env root ask f directory,
    (forall call events,
        Batch.runBatch fs env root ask f directory = (Batch.Run call, events) ->
        exists session files,
          found fs root f directory session files
          /\ call = callOf env f session files
          /\ ~ vanished (os_Stat env) files
          /\ (Batch.batchSkipConfirm f = true
              \/ exists prompt, ask prompt = true /\ In (Batch.Asked prompt true) events))
    /\ (forall events,
          Batch.runBatch fs env root ask f directory = (Batch.Panic, events) <->
          (exists session files,
              found fs root f directory session files /\ vanished (os_Stat env) files)
          /\ events = snd (Batch.runBatch fs env root ask f directory)).
Proof.
  intros fs env root ask f directory.
  destruct (classic_found fs root f directory) as [(session & files & Hf) | Hn].
  - rewrite (runBatch_found env ask Hf).
    destruct (if String.eqb (Batch.batchMethod f) "cms"
              then Batch.existingFiles env (cmsClientOf session (Batch.verbose f))
                     (Batch.verbose f) files
              else ([], [])) as [existing ev0].
    cbv zeta. pose proof (vanished_fileLines (os_Stat env) (Z.of_nat (List.length files)) files)
      as Hv.
    destruct (Batch.fileLines (os_Stat env) 0 (Z.of_nat (List.length files)) files)
      as [lines ok].
    cbn [snd] in Hv. destruct ok; cbn [negb].
    + assert (Hnv : ~ vanished (os_Stat env) files).
      { intros H. apply Hv in H. discriminate H. }
      split.
      * intros call events H.
        exists session, files. split; [exact Hf|].
        destruct (Batch.batchSkipConfirm f); cbn [negb] in H.
        -- inversion H; subst. split; [reflexivity|]. split; [exact Hnv | left; reflexivity].
        -- match type of H with
           | context [ask ?q] => destruct (ask q) eqn:Hask; cbn [negb] in H;
                                 [|discriminate H]
           end.
           inversion H; subst. split; [reflexivity|]. split; [exact Hnv|].
           right. eexists. split; [exact Hask|]. apply in_or_app. right. left. reflexivity.
      * intros events. split.
        -- intros H. exfalso.
           destruct (Batch.batchSkipConfirm f); cbn [negb] in H; [discriminate H|].
           match type of H with
           | context [ask ?q] => destruct (ask q); discriminate H
           end.
        -- intros [(s2 & l2 & Hf2 & Hv2) _]. exfalso.
           destruct Hf as (_ & H1 & _ & H2 & _). destruct Hf2 as (_ & H3 & _ & H4 & _).
           assert (l2 = files) by congruence. subst l2. exact (Hnv Hv2).
    + assert (Hva : vanished (os_Stat env) files) by (apply Hv; reflexivity).
      split.
      * intros call events H. discriminate H.
      * intros events. cbn [snd]. split.
        -- intros H. inversion H; subst. split; [|reflexivity].
           exists session, files. split; assumption.
        -- intros [_ ->]. reflexivity.
  - destruct (runBatch_not_found env ask Hn) as (err & evs & ->). split.
    + intros call events H. discriminate H.
    + intros events. split; [discriminate|].
      intros [(s & l & Hf & _) _]. exfalso. exact (Hn s l Hf).
Qed.

(** X27: [runBatch] uploads by consent only.  The command goes on to
    [uploadFilesWithConcurrency] only when the method is one of the two,
    the session is there with a token long enough, the search has
    returned files, and the user has agreed, by the flag [--yes] or by
    the answer to the question.  It calls it with the account, the
    workspace and the token of the session, the files that the search
    has returned, the method, and the number of workers that the flag
    gives, whatever that number is. *)
Theorem runBatch_uploads_by_consent :
  forall fs env root ask f directory call events,
    Batch.runBatch fs env root ask f directory = (Batch.Run call, events) ->
    exists session files,
      found fs root f directory session files
      /\ call = callOf env f session files
      /\ ~ vanished (os_Stat env) files
      /\ (Batch.batchSkipConfirm f = true
          \/ exists prompt, ask prompt = true /\ In (Batch.Asked prompt true) events).
Proof.
  intros fs env root ask f directory. apply (runBatch_plan fs env root ask f directory).
Qed.

(** X28: a file that has vanished crashes [runBatch].  When the checks
    have passed and the search has returned files, the command panics,
    before it asks anything and before it uploads anything, exactly when
    [os.Stat] fails on one of the first ten files: the list of the files
    calls [info.Size()] on the nil [info] of the failed call. *)
Theorem runBatch_panics_on_vanished_file :
  forall fs env root ask f directory session files,
    found fs root f directory session files ->
    (fst (Batch.runBatch fs env root ask f directory) = Batch.Panic
     <-> vanished (os_Stat env) files).
Proof.
  intros fs env root ask f directory session files Hf.
  destruct (runBatch_plan fs env root ask f directory) as [_ Hp].
  specialize (Hp (snd (Batch.runBatch fs env root ask f directory))).
  split.
  - intros H.
    assert (H' : Batch.runBatch fs env root ask f directory
                 = (Batch.Panic, snd (Batch.runBatch fs env root ask f directory))).
    { destruct (Batch.runBatch fs env root ask f directory) as [plan evs].
      cbn [fst snd] in *. rewrite H. reflexivity. }
    apply Hp in H'. destruct H' as [(s2 & l2 & Hf2 & Hv) _].
    destruct Hf as (_ & H1 & _ & H2 & _). destruct Hf2 as (_ & H3 & _ & H4 & _).
    assert (l2 = files) by congruence. subst l2. exact Hv.
  - intros Hv. assert (H' : Batch.runBatch fs env root ask f directory
                            = (Batch.Panic, snd (Batch.runBatch fs env root ask f directory))).
    { apply Hp. split; [|reflexivity]. exists session, files. split; assumption. }
    rewrite H'. reflexivity.
Qed.

Lemma runBatch_panics_on_vanished_file_witness :
  fst (Batch.runBatch acme_files (acme_env ["images/a.png"%string] (inserted "a.png"))
         stale_images (fun _ => true) (batch_flags "graphql" true 3) "images")
  = Batch.Panic.
Proof.
  apply (@runBatch_panics_on_vanished_file acme_files
           (acme_env ["images/a.png"%string] (inserted "a.png"))
           stale_images (fun _ => true) (batch_flags "graphql" true 3) "images"%string
           acme_session ["images/a.png"; "images/gone.png"]%string).
  - split; [right; reflexivity|]. split; [vm_compute; reflexivity|].
    split; [reflexivity|]. split; [reflexivity | discriminate].
  - exists 1%nat, "images/gone.png"%string. split; [lia|]. split; [reflexivity|].
    intros info H. vm_compute in H. discriminate H.
Defined.

Lemma runBatch_uploads_by_consent_witness :
  exists session files,
    found acme_files images (batch_flags "cms" true 3) "images" session files
    /\ files = ["images/banner.jpg"%string].
Proof.
  destruct (@runBatch_uploads_by_consent acme_files
              (acme_env ["images/banner.jpg"%string] (inserted "banner.jpg"))
              images (fun _ => true) (batch_flags "cms" true 3) "images"%string
              (callOf (acme_env ["images/banner.jpg"%string] (inserted "banner.jpg"))
                 (batch_flags "cms" true 3) acme_session ["images/banner.jpg"%string])
              _ ltac:(vm_compute; reflexivity))
    as (session & files & Hf & Hc & _).
  exists session, files. split; [exact Hf|].
  apply (f_equal Batch.c_files) in Hc. cbn [callOf Batch.c_files] in Hc. symmetry. exact Hc.
Defined.

(** X29: a batch without workers.  When [runBatch] goes on to the uploads
    with a number of workers that is zero or below, as the flag
    [--concurrent] allows, there are files to upload and none is
    uploaded: no result is ever recorded, the log stays as it was, and the
    summary counts no file. *)
Theorem runBatch_without_workers :
  forall fs env root ask f directory call events st p,
    Batch.runBatch fs env root ask f directory = (Batch.Run call, events) ->
    Batch.concurrency f <= 0 ->
    Batch.reachable call st p ->
    Batch.c_files call <> []
    /\ Batch.results p = [] /\ Batch.state p = st
    /\ Batch.totalFiles (Batch.printBatchSummary (Batch.results p)) = 0.
Proof.
  intros fs env root ask f directory call events st p H Hc Hp.
  destruct (proj1 (runBatch_plan fs env root ask f directory) call events H)
    as (session & files & Hf & -> & _).
  destruct (@no_workers (callOf env f session files) st Hc p Hp) as (_ & Hr & Hs).
  split; [apply Hf|]. split; [exact Hr|]. split; [exact Hs|]. rewrite Hr. reflexivity.
Qed.

Lemma runBatch_without_workers_witness :
  Batch.c_files
    (callOf (acme_env ["images/banner.jpg"%string] (inserted "banner.jpg"))
       (batch_flags "cms" true 0) acme_session ["images/banner.jpg"%string]) <> [].
Proof.
  apply (@runBatch_without_workers acme_files
           (acme_env ["images/banner.jpg"%string] (inserted "banner.jpg"))
           images (fun _ => true) (batch_flags "cms" true 0) "images"%string
           (callOf (acme_env ["images/banner.jpg"%string] (inserted "banner.jpg"))
              (batch_flags "cms" true 0) acme_session ["images/banner.jpg"%string])
           [Batch.BatchInfo acme_session "cms" "images" 1 10240 0;
            Batch.FileLine 1 "banner.jpg" 10240]
           emptyLog
           (Batch.initial
              (callOf (acme_env ["images/banner.jpg"%string] (inserted "banner.jpg"))
                 (batch_flags "cms" true 0) acme_session ["images/banner.jpg"%string])
              emptyLog)).
  - vm_compute. reflexivity.
  - simpl. lia.
  - constructor.
Defined.
